(* ===== verification/_CoqProject ===== *)
-Q . S2P
Prelude.v
Json.v
Runtime.v
PyInt.v
Text.v
Calendar.v
EventLoop.v
Http.v
Wire.v
Selector.v
Reserve.v
Provenance.v
Modes.v
Cli.v
Transport.v
