(* ===== verification/Prelude.v ===== *)
(** * A verification development of narije_food_reservation (src/reserve.py)

    The program is one Python script, [src/reserve.py], that logs into the
    Narije meal-reservation service, walks the 36 calendar days starting
    today, asks the service which foods can be reserved on each eligible
    day, picks one (the first one in lazy mode, otherwise by an
    interactive numbered menu), and submits one reservation per picked day
    as an asyncio task; the tasks are gathered at the end of [main].

    ** Parts of the program and how they interact

    - Authenticator, [get_bearer_token] (reserve.py 8-18): one POST; on
      status 200 the [token] field of the JSON body, otherwise a print and
      [exit()], i.e. [SystemExit].
    - Day enumerator, the [for day in range(36)] loop of [main]
      (reserve.py 59-70): [datetime.today() + timedelta(days=day)], the
      two weekday filters ([weekday() == 4] unless [--include-thursdays],
      [weekday() == 5] always) and the [strftime] rendering of the date.
    - Availability fetcher, [get_reserves] (21-25) and the branch on
      [reserves_response["status"]] in [main] (72-86).
    - Selector: lazy mode ([reserves_list[0]["reserves"][0]], 77-78) or
      [display_and_choose_food] (40-54), a [while True] loop over
      [input()] and Python's [int()].
    - Reservation submitter, the coroutine [reserve_food] (28-37): one PUT,
      a print, [time.sleep(10)].
    - The asyncio runtime: [asyncio.create_task] (82), [asyncio.gather]
      (87) and [asyncio.run] (102), which decide when the coroutines run.

    Data flows one way: the token of the authenticator is passed to every
    later request, each day's fetch result feeds the selector, the
    selector's choice becomes a coroutine object queued on the event loop,
    and the loop runs the queued coroutines after [main] reaches its
    [await].  The only shared state is the process's: standard output,
    standard input, the sequence of HTTP requests sent, the wall clock
    advanced by [time.sleep], and the event loop's ready queue.

    ** Files, in dependency order

    - [Prelude] (this file): the state-and-exception monad [st] with its
      notation ([st_scope]) and laws (rewrite database [st_rw]); [st_fold],
      the combinator for Python [for] loops, with its trace invariant;
      footprint reasoning ([frame]) and exception reasoning
      ([raises_only]) with their tactics; lock-step simulation of two
      computations ([sim], with [st_fold_sim] for loops that use up a
      resource); the hint database [narije]; the
      reflective range check [z_all]; generic lemmas on lists ([omap],
      positions, [NoDup]).
    - [Json]: the values [response.json()] returns, Python subscript
      [x[k]] ([getitem]) with [KeyError], [TypeError], [IndexError],
      truthiness, [len], iteration, [str(int)] ([py_str_int]) and the
      f-strings the script prints ([fstr]); the exception type [exn].
    - [Runtime]: the process state [world] (stdout, stdin, HTTP log with
      send times, clock, asyncio ready queue), the monad [PyM] and the
      primitives [print], [input], [time.sleep], [requests.*] through a
      [server], [response.json()], [asyncio.create_task]; the relation
      [clock_log] (clock monotone, requests appended in time order) and
      the log invariant [log_ok] it preserves; [agree], states with the
      same log, clock and queue, from which the primitives other than
      [input] run in lock step ([sim_solve]).
    - [PyInt]: Python's [int(s)] on ASCII strings (whitespace, sign,
      underscores, the 4300-digit limit).
    - [Text]: the text on stdout: [str()] and [repr()] of the decoded
      values ([unicode_repr]'s quoting and escaping, dict repr on the dict
      [json.loads] builds), f-strings ([render]) and output events
      ([stdout_text]); a reader of Python string literals.
    - [Calendar]: CPython's [_ymd2ord], [_ord2ymd], [weekday()],
      [date + timedelta] with its [OverflowError], and
      [strftime("%Y-%m-%dT00:00:00")].
    - [EventLoop]: the event loop after [main] yields, as a step relation
      [loop_step] and as a function [drain]/[run_loop], against the
      interface [CoroRunner] (how one coroutine runs).
    - [Http]: [get_bearer_token], [get_reserves], [reserve_food] and the
      [CoroRunner] instance that runs [reserve_food] tasks.
    - [Wire]: what [requests] and [http.client] put on the wire for the
      script's requests: [json.dumps] of the body as Python holds it
      ([json_dumps], the encoder [encode_value] on [py_value]), the
      header checks, the case-insensitive header dict, [Content-Length]
      and the [Content-Type] default ([prepare]), [http.client]'s header
      check ([transmit]); a JSON reader [json_loads] written from the
      JSON grammar, the specification side of the round trip.
    - [Selector]: [display_and_choose_food].
    - [Reserve]: [main] ([main_day] per day, [handle_reserves] per
      answer, [main_prefix] up to its [await]) and [program], the whole
      [asyncio.run(main(...))].
    - [Provenance]: where the reserved foods come from: a history
      invariant of [world] ([tasks_backed]: every queued task is backed by
      a logged fetch for its date whose answer offered its food), kept by
      the login and every [main_day], and carried through the event loop.
    - [Modes]: the interactive and the lazy run compared in lock step.
    - [Cli]: the [__main__] block: [parser.parse_args()] as CPython 3.12's
      argparse runs it for this parser ([parse_args]), then [program]
      ([cli_main]).
    - [Transport]: [Reserve]'s request log seen through [Wire]: what the
      service receives in a whole run.

    ** What the theorems show (claim numbers of the project manifest)

    - Whole runs, for every server and every stdin ([Reserve]): the
      shape of the request log ([program_trace]: the login, the fetches
      in day order, then the PUTs in queue order); every request is for an
      eligible day of the window (C1); at most one reservation per date
      (C2); when the day loop completes, exactly one fetch per eligible
      day (C4), 26 of them from a Monday (C22); the login's two outcomes
      (C6, C7); all fetches before all reservations (C13); the
      submissions are serialised, 10 s apart (C14); tasks queued before
      [main] fails still run (C15); at most 36 fetches, no more PUTs than
      fetches, at most 360 s of sleep (C17).
    - Provenance ([Provenance]): every PUT of every run reserves, by its
      ["foodId"], a food that the service offered for that date and token
      in its answer to an earlier fetch of the same run (C3, safety).
    - On the wire ([Transport], [Wire]): with a token that prints without
      a line break, every request of every run reaches the service with
      its headers and a body that decodes to the value the script built
      (C8, a refinement of the request log by the wire); with a line
      break in the token no request after the login can be sent (C9);
      against a service that accepts such a clean token and always offers
      food, a lazy run reserves every eligible day and all its requests
      reach the service (C5, liveness).
    - One day ([Reserve]): the lazy choice (C10), the error paths (C11,
      C12), and the weekday tests, which skip Fridays under the message
      "Skipping Thursday" (C16).
    - The selector ([Selector]): the first valid line wins (C18); the
      [while True] loop ends with [EOFError] when no line is valid (C19);
      it always ends, within one iteration per line of input plus one
      (C20, termination); the menu shows food [k] on the line
      [str(k). name], and typing the number back selects food [k], since
      [int()] reads back [str()] (C26).
    - The two modes ([Modes]): answering "1" at each of the first 36
      prompts gives the outcome and the request log of [--lazy-mode], for
      a service whose foods all have a name (C21, an equivalence proved by
      running both programs in lock step).
    - The command line ([Cli]): [--username=U --password=P] reads back
      for every U and P (C23); a password argparse takes for an unknown
      option, given as a separate argument, exits with status 2 (C24);
      every prefix of a long option that keeps its first letter names
      that option (C25).
    - Supporting results without a claim of their own: [drain] is the
      unique final state of [loop_step] ([EventLoop.drain_refines_loop]);
      the request log is in time order ([program_clock_log]); the reader
      [json_loads] reads back what the encoder writes ([encode_roundtrip]);
      [repr] of a string reads back ([Text.literal_eval_repr_str]); the
      calendar conversions are inverse bijections and one day after a
      date is the next date ([Calendar]); the date text is injective on
      the calendar's range ([strftime_date_inj], used by C2).

    ** Bounds and fuel

    - The day loop is [st_fold] over [seq 0 36], the script's
      [range(36)]; no fuel.
    - [display_and_choose_food] runs [choose_loop] with fuel
      [1 + length stdin]: each iteration reads one line, so the fuel
      outlasts the input; running out of fuel gives the model-only
      exception [OutOfFuel], kept apart from every real outcome, and
      [choose_loop_not_base] shows it never happens (C20).
    - [dec_digits] (the digits of [str(k)]) takes fuel [1 + |k|], more
      than the number of digits.
    - The JSON reader [json_loads] runs with fuel [1 + length text]; the
      size of a value ([json_size]: one per value and one per element or
      member) is at most the length of its encoding, and the reader spends
      at most one unit per value and per element ([json_size_le],
      [parse_value_dumps]).
    - The calendar facts are checked by computation over one 400-year
      cycle (146097 days, 400 years) and carried to all years by the
      shift lemmas: the Gregorian calendar repeats every 400 years.

    ** Not modelled

    - The usage and help texts argparse prints; argparse is modelled as
      in Python 3.12, and other versions differ in corner cases such as
      the handling of ["--"].
    - Inside [Runtime], a request is an HTTP method, URL, headers and JSON
      body, answered by [server] with a status and an optional decoded
      body ([None]: not JSON); [send] does not raise the [InvalidHeader]
      that [Wire] predicts for a token with a line break (C9 states that
      case on its own, and C5 assumes a token without one).  The session's default headers ([User-Agent],
      [Accept], ...), URL normalisation, timeouts, retries and TLS are not
      modelled; [requests] may use [simplejson] when it is installed,
      whose output for these values is the same.
    - JSON floats, characters above U+00FF, non-ASCII input to [int()],
      the time of day of [datetime.today()], signals and
      [KeyboardInterrupt].

    ** Modelling choices

    - The remote service is an arbitrary function [server] of the request
      history and the request; every theorem about [main] holds for every
      server, so nothing about the service is assumed.
    - [datetime.today()] is an input (an ordinal day number); the time of
      day is not kept because [strftime("%Y-%m-%dT00:00:00")] and
      [weekday()] ignore it and [timedelta(days=...)] leaves it unchanged.
    - stdout is kept as a list of events ([OLine] for [print], [OPrompt]
      for the prompt [input] writes) whose text is an [fstr]: literal
      strings and the decoded JSON values the f-strings embed; [Text]
      renders them as the characters written.
*)

From Stdlib Require Import ZArith List Bool Lia RelationClasses Sorting.Sorted.
Import ListNotations.

(** ** The state-and-exception monad *)

Inductive outcome (E A : Type) : Type :=
| Ok (a : A)
| Exc (e : E).
Arguments Ok {E A} a.
Arguments Exc {E A} e.

Definition st (S E A : Type) : Type := S -> outcome E A * S.

Section Monad.
Context {S E : Type}.

Definition st_ret {A} (a : A) : st S E A := fun s => (Ok a, s).

Definition st_bind {A B} (m : st S E A) (k : A -> st S E B) : st S E B :=
  fun s =>
    match m s with
    | (Ok a, s') => k a s'
    | (Exc e, s') => (Exc e, s')
    end.

Definition st_raise {A} (e : E) : st S E A := fun s => (Exc e, s).

(** [try: m except <h applies>: handler] *)
Definition st_catch {A} (m : st S E A) (h : E -> option (st S E A)) : st S E A :=
  fun s =>
    match m s with
    | (Exc e, s') =>
        match h e with
        | Some handler => handler s'
        | None => (Exc e, s')
        end
    | r => r
    end.

(** A Python [for x in l:] loop whose body threads an accumulator. *)
Fixpoint st_fold {A B} (body : B -> A -> st S E B) (acc : B) (l : list A)
  : st S E B :=
  match l with
  | [] => st_ret acc
  | x :: l' => st_bind (body acc x) (fun acc' => st_fold body acc' l')
  end.

(** A [for x in l:] loop whose body returns nothing. *)
Definition st_iter {A} (body : A -> st S E unit) (l : list A) : st S E unit :=
  st_fold (fun _ x => body x) tt l.

Lemma st_bind_ret_l {A B} (a : A) (k : A -> st S E B) s :
  st_bind (st_ret a) k s = k a s.
Proof. reflexivity. Qed.

Lemma st_bind_assoc {A B C} (m : st S E A) (k : A -> st S E B)
      (k' : B -> st S E C) s :
  st_bind (st_bind m k) k' s = st_bind m (fun a => st_bind (k a) k') s.
Proof. unfold st_bind. destruct (m s) as [[a|e] s']; reflexivity. Qed.

Lemma st_bind_raise {A B} (e : E) (k : A -> st S E B) s :
  st_bind (st_raise e) k s = (Exc e, s).
Proof. reflexivity. Qed.

Lemma st_bind_ok {A B} (m : st S E A) (k : A -> st S E B) s a s' :
  m s = (Ok a, s') -> st_bind m k s = k a s'.
Proof. intros H. unfold st_bind. now rewrite H. Qed.

Lemma st_bind_exc {A B} (m : st S E A) (k : A -> st S E B) s e s' :
  m s = (Exc e, s') -> st_bind m k s = (Exc e, s').
Proof. intros H. unfold st_bind. now rewrite H. Qed.

Lemma st_fold_app {A B} (body : B -> A -> st S E B) acc l1 l2 s :
  st_fold body acc (l1 ++ l2) s
  = st_bind (st_fold body acc l1) (fun acc' => st_fold body acc' l2) s.
Proof.
  revert acc s. induction l1 as [|x l1 IH]; intros acc s; [reflexivity|].
  simpl. unfold st_bind.
  destruct (body acc x s) as [[a|e] s']; [|reflexivity].
  rewrite IH. reflexivity.
Qed.

(** A property [P] of the state and accumulator that every iteration of a
    loop body preserves holds at the end of the loop, also when the loop
    stops on an exception. *)
Lemma st_fold_invariant {A B} (P : B -> S -> Prop) (Q : S -> Prop)
      (body : B -> A -> st S E B) :
  (forall acc x s, P acc s ->
     match body acc x s with
     | (Ok acc', s') => P acc' s'
     | (Exc _, s') => Q s'
     end) ->
  (forall acc s, P acc s -> Q s) ->
  forall l acc s, P acc s ->
    match st_fold body acc l s with
    | (Ok acc', s') => P acc' s'
    | (Exc _, s') => Q s'
    end.
Proof.
  intros Hstep HPQ l. induction l as [|x l IH]; intros acc s HP; [exact HP|].
  simpl. unfold st_bind. specialize (Hstep acc x s HP).
  destruct (body acc x s) as [[a|e] s']; [apply IH|]; exact Hstep.
Qed.

(** The loop invariant in the form the day loop of [main] needs: [I done
    acc s] relates the items already processed, the accumulator and the
    state.  When an iteration raises, the loop stops with the invariant
    holding of the processed items, the one that raised included, for
    some accumulator (the one the loop would have had). *)
Lemma st_fold_trace {A B} (I : list A -> B -> S -> Prop)
      (body : B -> A -> st S E B) :
  (forall done acc x s, I done acc s ->
     match body acc x s with
     | (Ok acc', s') => I (done ++ [x]) acc' s'
     | (Exc _, s') => exists acc'', I (done ++ [x]) acc'' s'
     end) ->
  forall l done acc s, I done acc s ->
    match st_fold body acc l s with
    | (Ok acc', s') => I (done ++ l) acc' s'
    | (Exc _, s') => exists l1 l2 acc'', l = l1 ++ l2 /\ I (done ++ l1) acc'' s'
    end.
Proof.
  intros Hstep l. induction l as [|x l IH]; intros done acc s HI.
  - simpl. now rewrite app_nil_r.
  - simpl. unfold st_bind. specialize (Hstep done acc x s HI).
    destruct (body acc x s) as [[a|e] s'].
    + specialize (IH (done ++ [x]) a s' Hstep).
      destruct (st_fold body a l s') as [[a'|e'] s''].
      * now rewrite <- app_assoc in IH.
      * destruct IH as (l1 & l2 & acc'' & -> & HI').
        exists (x :: l1), l2, acc''. rewrite <- app_assoc in HI'. now split.
    + destruct Hstep as [acc'' HI']. exists [x], l, acc''. now split.
Qed.

(** A loop whose every iteration returns normally, appending to the
    accumulator a list with a given image under [f] and whose elements
    satisfy [Q], returns normally with the concatenation of those lists. *)
Lemma st_fold_collect {A C D} (body : list C -> A -> st S E (list C)) (f : C -> D)
      (Q : C -> Prop) (g : A -> list D) (l : list A) :
  (forall acc x s, In x l -> exists l' s', body acc x s = (Ok (acc ++ l'), s') /\
                                           map f l' = g x /\ Forall Q l') ->
  forall acc s, exists L s', st_fold body acc l s = (Ok (acc ++ L), s') /\
                             map f L = flat_map g l /\ Forall Q L.
Proof.
  induction l as [|x l IH]; intros Hb acc s.
  - exists [], s. rewrite app_nil_r. repeat constructor.
  - destruct (Hb acc x s (or_introl eq_refl)) as (l1 & s1 & E1 & M1 & Q1).
    destruct (IH (fun acc y s Hy => Hb acc y s (or_intror Hy)) (acc ++ l1) s1)
      as (L & s2 & E2 & M2 & Q2).
    exists (l1 ++ L), s2. simpl. unfold st_bind. rewrite E1, E2, app_assoc.
    split; [reflexivity|]. rewrite map_app, M1, M2. split; [reflexivity|].
    now apply Forall_app.
Qed.
End Monad.

Declare Scope st_scope.
Delimit Scope st_scope with st.
Notation "x <- m ;; k" := (st_bind m (fun x => k))
  (at level 61, m at next level, right associativity) : st_scope.
Notation "' pat <- m ;; k" := (st_bind m (fun x => match x with pat => k end))
  (at level 61, pat pattern, m at next level, right associativity) : st_scope.
Notation "m ;; k" := (st_bind m (fun _ => k))
  (at level 61, right associativity) : st_scope.

Create Rewrite HintDb st_rw.
#[export] Hint Rewrite @st_bind_ret_l @st_bind_assoc @st_bind_raise : st_rw.

(** ** Tactics *)

Create HintDb narije.

Ltac inv H := inversion H; subst; clear H.

(** Case on the first [if] or [match] on a boolean or an option found in
    the goal, keeping the equation. *)
Ltac case_if :=
  match goal with
  | |- context [if ?b then _ else _] =>
      let E := fresh "E" in destruct b eqn:E
  end.

(** Unfold the monad's plumbing and split on the intermediate results that
    block reduction, naming each equation. *)
Ltac st_unfold := unfold st_bind, st_ret, st_raise, st_catch in *.

(** Turn the boolean tests on [Z] in the hypotheses into propositions,
    splitting conjunctions and disjunctions, so that [lia] can use them. *)
Ltac zbool :=
  repeat match goal with
  | H : (_ && _)%bool = true |- _ => apply andb_prop in H as [? ?]
  | H : (_ || _)%bool = true |- _ => apply orb_prop in H as [?|?]
  | H : (_ <=? _)%Z = true |- _ => apply Z.leb_le in H
  | H : (_ <? _)%Z = true |- _ => apply Z.ltb_lt in H
  | H : (_ =? _)%Z = true |- _ => apply Z.eqb_eq in H
  | H : (_ <=? _)%Z = false |- _ => apply Z.leb_gt in H
  | H : (_ <? _)%Z = false |- _ => apply Z.ltb_ge in H
  | H : (_ =? _)%Z = false |- _ => apply Z.eqb_neq in H
  end.

(** ** Lists *)

(** A property of every element and of the default holds of [nth]. *)
Lemma nth_Forall {A} (P : A -> Prop) (l : list A) (n : nat) (d : A) :
  Forall P l -> P d -> P (nth n l d).
Proof.
  intros Hl Hd. revert n. induction Hl as [|x l Hx _ IH]; intros [|n]; simpl; auto.
Qed.

(** ** Integer ranges checked by computation *)

(** [z_all f lo n] checks [f] on [lo], ..., [lo + n - 1]. *)
Fixpoint z_all (f : Z -> bool) (lo : Z) (n : nat) : bool :=
  match n with
  | O => true
  | S n' => f lo && z_all f (lo + 1) n'
  end.

Lemma z_all_spec f n : forall lo, z_all f lo n = true ->
  forall z, (lo <= z < lo + Z.of_nat n)%Z -> f z = true.
Proof.
  induction n as [|n IH]; intros lo H z Hz; simpl in *; [lia|].
  apply andb_prop in H as [H1 H2].
  destruct (Z.eq_dec z lo) as [->|Hne]; [exact H1|].
  apply (IH (lo + 1)%Z); [exact H2|lia].
Qed.

(** A property checked on one period [lo, lo + p) and invariant under a
    shift by [p] holds from [lo] on. *)
Lemma Z_periodic_ind (P : Z -> Prop) (lo p : Z) :
  (0 < p)%Z ->
  (forall z, (lo <= z < lo + p)%Z -> P z) ->
  (forall z, (lo <= z)%Z -> P z -> P (z + p)%Z) ->
  forall z, (lo <= z)%Z -> P z.
Proof.
  intros Hp Hbase Hstep z Hz.
  assert (Hq : (0 <= (z - lo) / p)%Z) by (apply Z.div_pos; lia).
  remember ((z - lo) / p)%Z as q eqn:Eq.
  assert (Hz' : z = (lo + (z - lo) mod p + q * p)%Z).
  { subst q. pose proof (Z.div_mod (z - lo) p ltac:(lia)). lia. }
  pose proof (Z.mod_pos_bound (z - lo) p Hp).
  rewrite Hz'. clear Hz' Eq Hz.
  revert q Hq. apply natlike_ind.
  - replace (lo + (z - lo) mod p + 0 * p)%Z with (lo + (z - lo) mod p)%Z by lia.
    apply Hbase. lia.
  - intros q Hq IH.
    replace (lo + (z - lo) mod p + Z.succ q * p)%Z
      with (lo + (z - lo) mod p + q * p + p)%Z by lia.
    apply Hstep; [nia|exact IH].
Qed.

(** ** Lists *)

Lemma nth_error_app_length {A} (l : list A) x l' :
  nth_error (l ++ x :: l') (length l) = Some x.
Proof. rewrite nth_error_app2 by lia. now rewrite Nat.sub_diag. Qed.

#[export] Hint Resolve nth_error_app_length : narije.

(** Case on the scrutinee of a [match] of the goal whose scrutinee holds no
    [match] itself (the innermost decision first), keeping the equation. *)
Ltac case_match :=
  match goal with
  | |- context [match ?x with _ => _ end] =>
      lazymatch x with
      | context [match _ with _ => _ end] => fail
      | _ => let E := fresh "E" in destruct x eqn:E
      end
  end.

(** ** Frames: what a computation leaves unchanged *)

(** [frame P m]: every run of [m] ends in a state related to its start by
    [P]; for a preorder [P] frames compose through [bind], [catch] and
    loops, which is how the footprint of each part of the script is
    established once and reused. *)
Section Frame.
Context {S E : Type} (P : S -> S -> Prop) `{PreOrder S P}.

Definition frame {A} (m : st S E A) : Prop := forall s, P s (snd (m s)).

Lemma frame_ret {A} (a : A) : frame (st_ret a).
Proof. intros s. simpl. reflexivity. Qed.

Lemma frame_raise {A} (e : E) : frame (st_raise (A:=A) e).
Proof. intros s. simpl. reflexivity. Qed.

Lemma frame_bind {A B} (m : st S E A) (k : A -> st S E B) :
  frame m -> (forall a, frame (k a)) -> frame (st_bind m k).
Proof.
  intros Hm Hk s. unfold st_bind. specialize (Hm s).
  destruct (m s) as [[a|e] s']; simpl in *; [|exact Hm].
  etransitivity; [exact Hm|apply Hk].
Qed.

Lemma frame_catch {A} (m : st S E A) (h : E -> option (st S E A)) :
  frame m -> (forall e handler, h e = Some handler -> frame handler) ->
  frame (st_catch m h).
Proof.
  intros Hm Hh s. unfold st_catch. specialize (Hm s).
  destruct (m s) as [[a|e] s']; [exact Hm|].
  destruct (h e) as [handler|] eqn:He; [|exact Hm].
  etransitivity; [exact Hm|apply (Hh e handler He)].
Qed.

Lemma frame_fold {A B} (body : B -> A -> st S E B) :
  (forall acc x, frame (body acc x)) -> forall l acc, frame (st_fold body acc l).
Proof.
  intros Hb l. induction l as [|x l IH]; intros acc; simpl.
  - apply frame_ret.
  - apply frame_bind; [apply Hb|intros; apply IH].
Qed.
End Frame.

#[export] Hint Resolve frame_ret frame_raise : narije.

(** Decompose a frame goal along the structure of the computation. *)
Ltac frame_solve :=
  repeat first
    [ match goal with
      | |- frame ?P (st_bind _ _) => apply (frame_bind P); [|intros]
      | |- frame ?P (st_catch _ _) => apply (frame_catch P); [|intros ? ? ?]
      | |- frame ?P (st_ret _) => apply (frame_ret P)
      | |- frame ?P (st_raise _) => apply (frame_raise P)
      | H : (if ?b then Some _ else None) = Some _ |- _ =>
          destruct b; [injection H as <-|discriminate H]
      end
    | progress (cbv beta iota)
    | case_match
    | case_if
    | solve [eauto with narije] ].

(** ** Which exceptions a computation can raise *)

Section Raises.
Context {S E : Type} (P : E -> Prop).

Definition raises_only {A} (m : st S E A) : Prop :=
  forall s e, fst (m s) = Exc e -> P e.

Lemma raises_ret {A} (a : A) : raises_only (st_ret a).
Proof. intros s e H. discriminate H. Qed.

Lemma raises_raise {A} (e : E) : P e -> raises_only (st_raise (A:=A) e).
Proof. intros He s e' H. injection H as <-. exact He. Qed.

Lemma raises_bind {A B} (m : st S E A) (k : A -> st S E B) :
  raises_only m -> (forall a, raises_only (k a)) -> raises_only (st_bind m k).
Proof.
  intros Hm Hk s e. unfold st_bind. specialize (Hm s).
  destruct (m s) as [[a|e'] s']; [apply Hk|].
  simpl. intros H. injection H as <-. now apply Hm.
Qed.

Lemma raises_catch {A} (m : st S E A) (h : E -> option (st S E A)) :
  (forall s e, fst (m s) = Exc e -> h e = None -> P e) ->
  (forall e handler, h e = Some handler -> raises_only handler) ->
  raises_only (st_catch m h).
Proof.
  intros Hm Hh s e. unfold st_catch. specialize (Hm s).
  destruct (m s) as [[a|e'] s']; [discriminate|].
  destruct (h e') as [handler|] eqn:He; [apply (Hh e' handler He)|].
  intros H. injection H as <-. now apply Hm.
Qed.

Lemma raises_catch_all {A} (m : st S E A) (h : E -> option (st S E A)) :
  raises_only m -> (forall e handler, h e = Some handler -> raises_only handler) ->
  raises_only (st_catch m h).
Proof. intros Hm Hh. apply raises_catch; [|exact Hh]. intros s e He _. exact (Hm s e He). Qed.

Lemma raises_fold {A B} (body : B -> A -> st S E B) :
  (forall acc x, raises_only (body acc x)) -> forall l acc, raises_only (st_fold body acc l).
Proof.
  intros Hb l. induction l as [|x l IH]; intros acc; simpl.
  - apply raises_ret.
  - apply raises_bind; [apply Hb|intros; apply IH].
Qed.
End Raises.

(** Decompose a [raises_only] goal along the structure of the computation. *)
Ltac raises_solve :=
  repeat first
    [ match goal with
      | |- raises_only ?P (st_bind _ _) => apply (raises_bind P); [|intros]
      | |- raises_only ?P (st_catch _ _) => apply (raises_catch_all P); [|intros ? ? ?]
      | |- raises_only ?P (st_ret _) => apply (raises_ret P)
      | H : (if ?b then Some _ else None) = Some _ |- _ =>
          destruct b; [injection H as <-|discriminate H]
      | |- raises_only ?P (st_raise _) => apply (raises_raise P)
      end
    | progress (cbv beta iota)
    | case_match
    | case_if
    | solve [reflexivity]
    | solve [eauto with narije] ].

(** ** Two runs in lock step

    [sim R R' m1 m2]: from states related by [R], the computations [m1]
    and [m2] give the same outcome and end in states related by [R'].
    This compares two programs (or one program in two configurations)
    that observe the same parts of the state. *)
Section Sim.
Context {S E : Type}.

Definition sim {A} (R R' : S -> S -> Prop) (m1 m2 : st S E A) : Prop :=
  forall s1 s2, R s1 s2 -> fst (m1 s1) = fst (m2 s2) /\ R' (snd (m1 s1)) (snd (m2 s2)).

Lemma sim_ret {A} R (a : A) : sim R R (st_ret a) (st_ret a).
Proof. intros s1 s2 H. now split. Qed.

Lemma sim_raise {A} R (e : E) : sim R R (st_raise (A:=A) e) (st_raise e).
Proof. intros s1 s2 H. now split. Qed.

Lemma sim_weaken {A} (R R' R'' : S -> S -> Prop) (m1 m2 : st S E A) :
  sim R R' m1 m2 -> (forall s1 s2, R' s1 s2 -> R'' s1 s2) -> sim R R'' m1 m2.
Proof. intros Hm HR s1 s2 H. destruct (Hm s1 s2 H). auto. Qed.

(** Binding: the continuation may end in a weaker relation, which the
    exceptional path must then reach too. *)
Lemma sim_bind {A B} (R R' R'' : S -> S -> Prop) (m1 m2 : st S E A)
      (k1 k2 : A -> st S E B) :
  sim R R' m1 m2 -> (forall a, sim R' R'' (k1 a) (k2 a)) ->
  (forall s1 s2, R' s1 s2 -> R'' s1 s2) -> sim R R'' (st_bind m1 k1) (st_bind m2 k2).
Proof.
  intros Hm Hk HR s1 s2 H. unfold st_bind. destruct (Hm s1 s2 H) as [Hf HR'].
  destruct (m1 s1) as [r1 s1'], (m2 s2) as [r2 s2']. cbn [fst snd] in *. subst r2.
  destruct r1 as [a|e]; [apply Hk, HR'|split; [reflexivity|apply HR, HR']].
Qed.

(** The same, where the continuations need only run in lock step on the
    values the first computation can return. *)
Lemma sim_bind_post {A B} (R R' R'' : S -> S -> Prop) (Q : A -> Prop) (m1 m2 : st S E A)
      (k1 k2 : A -> st S E B) :
  sim R R' m1 m2 -> (forall s a s', m1 s = (Ok a, s') -> Q a) ->
  (forall a, Q a -> sim R' R'' (k1 a) (k2 a)) ->
  (forall s1 s2, R' s1 s2 -> R'' s1 s2) -> sim R R'' (st_bind m1 k1) (st_bind m2 k2).
Proof.
  intros Hm HQ Hk HR s1 s2 H. unfold st_bind. destruct (Hm s1 s2 H) as [Hf HR'].
  specialize (HQ s1). destruct (m1 s1) as [r1 s1'], (m2 s2) as [r2 s2'].
  cbn [fst snd] in *. subst r2.
  destruct r1 as [a|e]; [apply Hk; [exact (HQ a s1' eq_refl)|exact HR']|split; [reflexivity|apply HR, HR']].
Qed.

Lemma sim_if {A} R R' (b : bool) (m1 m2 m1' m2' : st S E A) :
  sim R R' m1 m2 -> sim R R' m1' m2' ->
  sim R R' (if b then m1 else m1') (if b then m2 else m2').
Proof. destruct b; auto. Qed.

(** A loop whose bodies run in lock step, where each iteration may use
    up one unit of a resource [n] (such as lines of input) that the
    relation [R n] guarantees. *)
Lemma st_fold_sim {A B} (R : nat -> S -> S -> Prop) (b1 b2 : B -> A -> st S E B) :
  (forall n s1 s2, R (Datatypes.S n) s1 s2 -> R n s1 s2) ->
  (forall acc x n, sim (R (Datatypes.S n)) (R n) (b1 acc x) (b2 acc x)) ->
  forall l acc n, sim (R (length l + n)%nat) (R n) (st_fold b1 acc l) (st_fold b2 acc l).
Proof.
  intros Hmono Hb l. induction l as [|x l IH]; intros acc n; simpl; [apply sim_ret|].
  apply (sim_bind _ (R (length l + n)%nat)); [apply Hb|intros; apply IH|].
  intros s1 s2. clear IH. induction (length l) as [|k IHk]; simpl; auto.
Qed.
End Sim.

(** In [l1 ++ l2], where every element of [l1] satisfies [P] and every
    element of [l2] satisfies [Q], and no element satisfies both, a
    [P]-element comes before a [Q]-element. *)
Lemma nth_error_app_separated {A} (P Q : A -> Prop) (l1 l2 : list A) i j x y :
  Forall P l1 -> Forall Q l2 -> (forall z, P z -> Q z -> False) ->
  nth_error (l1 ++ l2) i = Some x -> nth_error (l1 ++ l2) j = Some y ->
  Q x -> P y -> (j < i)%nat.
Proof.
  intros H1 H2 Hsep Hx Hy Qx Py.
  assert (Hi : (length l1 <= i)%nat).
  { destruct (Nat.lt_ge_cases i (length l1)) as [Hlt|]; [|assumption].
    rewrite nth_error_app1 in Hx by exact Hlt.
    apply nth_error_In in Hx. exfalso. exact (Hsep x (proj1 (Forall_forall _ _) H1 x Hx) Qx). }
  destruct (Nat.lt_ge_cases j (length l1)) as [Hlt|Hge]; [lia|].
  rewrite nth_error_app2 in Hy by exact Hge. apply nth_error_In in Hy.
  exfalso. exact (Hsep y Py (proj1 (Forall_forall _ _) H2 y Hy)).
Qed.

(** The [Some] results of [f] on the elements of a list, in order. *)
Definition omap {A B} (f : A -> option B) (l : list A) : list B :=
  flat_map (fun x => match f x with Some b => [b] | None => [] end) l.

Lemma in_omap {A B} (f : A -> option B) l x b : In x l -> f x = Some b -> In b (omap f l).
Proof. intros Hx Hf. apply in_flat_map. exists x. rewrite Hf. split; [exact Hx|now left]. Qed.

(** When the [Some] results are distinct, two positions whose elements
    have the same result are the same position. *)
Lemma nth_error_omap_unique {A B} (f : A -> option B) l i j x y b :
  NoDup (omap f l) -> nth_error l i = Some x -> nth_error l j = Some y ->
  f x = Some b -> f y = Some b -> i = j.
Proof.
  revert i j. induction l as [|a l IH]; intros [|i] [|j] Hnd Hi Hj Hx Hy; simpl in *;
    try discriminate; try reflexivity.
  - injection Hi as ->. unfold omap in Hnd. simpl in Hnd. rewrite Hx in Hnd.
    inversion Hnd as [|? ? Hn _]. exfalso. apply Hn, (in_omap f l y); [|exact Hy].
    now apply nth_error_In in Hj.
  - injection Hj as ->. unfold omap in Hnd. simpl in Hnd. rewrite Hy in Hnd.
    inversion Hnd as [|? ? Hn _]. exfalso. apply Hn, (in_omap f l x); [|exact Hx].
    now apply nth_error_In in Hi.
  - f_equal. apply (IH i j); auto. unfold omap in Hnd. simpl in Hnd.
    destruct (f a); [inversion Hnd; assumption|exact Hnd].
Qed.

(** Concatenating, over a list with distinct images under [g], lists that
    are empty or the single image gives distinct elements. *)
Lemma NoDup_flat_map_single {A B} (g : A -> B) (h : A -> list B) l :
  NoDup (map g l) -> (forall x, In x l -> h x = [] \/ h x = [g x]) -> NoDup (flat_map h l).
Proof.
  induction l as [|a l IH]; intros Hnd Hh; simpl; [constructor|].
  inversion Hnd as [|? ? Hn Hnd']; subst.
  assert (Hl : forall b, In b (flat_map h l) -> In b (map g l)).
  { intros b Hb. apply in_flat_map in Hb as (x & Hx & Hb).
    destruct (Hh x (or_intror Hx)) as [E|E]; rewrite E in Hb; [destruct Hb|].
    destruct Hb as [<-|[]]. now apply in_map. }
  assert (IH' : NoDup (flat_map h l)) by (apply IH; [exact Hnd'|intros x Hx; apply Hh; now right]).
  destruct (Hh a (or_introl eq_refl)) as [E|E]; rewrite E; simpl; [exact IH'|].
  constructor; [intros Hb; apply Hn, Hl, Hb|exact IH'].
Qed.

Lemma omap_app {A B} (f : A -> option B) l1 l2 : omap f (l1 ++ l2) = omap f l1 ++ omap f l2.
Proof. apply flat_map_app. Qed.

Lemma omap_flat_map {A B C} (f : B -> option C) (g : A -> list B) l :
  omap f (flat_map g l) = flat_map (fun x => omap f (g x)) l.
Proof. induction l as [|x l IH]; simpl; [reflexivity|]. now rewrite omap_app, IH. Qed.

Lemma omap_none {A B} (f : A -> option B) l : (forall x, In x l -> f x = None) -> omap f l = [].
Proof.
  induction l as [|x l IH]; intros H; simpl; [reflexivity|].
  rewrite (H x (or_introl eq_refl)). apply IH. intros y Hy. apply H. now right.
Qed.

Lemma filter_all {A} (f : A -> bool) l : (forall x, In x l -> f x = true) -> filter f l = l.
Proof.
  induction l as [|x l IH]; intros H; simpl; [reflexivity|].
  rewrite (H x (or_introl eq_refl)), IH; [reflexivity|]. intros y Hy. apply H. now right.
Qed.

Lemma filter_none {A} (f : A -> bool) l : (forall x, In x l -> f x = false) -> filter f l = [].
Proof.
  induction l as [|x l IH]; intros H; simpl; [reflexivity|].
  rewrite (H x (or_introl eq_refl)). apply IH. intros y Hy. apply H. now right.
Qed.

(** Two sorted lists separated by a bound concatenate to a sorted list. *)
Lemma Sorted_app_bound (a b : list Z) (m : Z) :
  Sorted Z.le a -> Sorted Z.le b -> Forall (fun x => x <= m)%Z a -> Forall (fun y => m <= y)%Z b ->
  Sorted Z.le (a ++ b).
Proof.
  intros Ha Hb Hla Hlb. induction Ha as [|x a Ha IH Hx]; [exact Hb|].
  inversion Hla as [|? ? Hxm Hla']; subst. simpl. constructor; [now apply IH|].
  destruct a as [|y a]; simpl.
  - destruct Hb as [|y b]; constructor. inversion Hlb; subst. lia.
  - inversion Hx; subst. now constructor.
Qed.

Lemma length_flat_map_le1 {A B} (f : A -> list B) l :
  (forall x, In x l -> (List.length (f x) <= 1)%nat) -> (List.length (flat_map f l) <= List.length l)%nat.
Proof.
  induction l as [|x l IH]; intros H; simpl; [lia|]. rewrite length_app.
  pose proof (H x (or_introl eq_refl)).
  enough (List.length (flat_map f l) <= List.length l)%nat by lia.
  apply IH. intros y Hy. apply H. now right.
Qed.

(** A pointwise bound [f x + k <= g x] sums to a bound on the lists. *)
Lemma list_sum_map_le {A} (f g : A -> nat) (k : nat) l :
  Forall (fun x => (f x + k <= g x)%nat) l ->
  (list_sum (map f l) + k * List.length l <= list_sum (map g l))%nat.
Proof. induction 1; unfold list_sum in *; cbn [map fold_right List.length] in *; nia. Qed.
