(* ===== verification/Json.v ===== *)
(** * Decoded JSON values and the Python operations the script applies to them

    [response.json()] (reserve.py 13, 25, 36) turns a response body into
    Python objects: [None], [bool], [int], [str], [list] and [dict].  The
    script then subscripts them ([x["status"]], [x[0]]), tests their
    truthiness ([if reserves_list and ...]), compares them with ["OK"],
    iterates and measures them ([enumerate], [len]) and embeds them in
    f-strings.  This file gives each of these its Python 3 meaning,
    errors included, and the exceptions the script can raise. *)

From Stdlib Require Import ZArith List String Ascii Bool Lia.
From S2P Require Import Prelude.
Import ListNotations.
Open Scope string_scope.
#[local] Set Warnings "-register-all".

(** ** Exceptions *)

(** The exceptions the script can raise.  [JSONDecodeError] is
    [requests.exceptions.JSONDecodeError], a subclass of [ValueError];
    [ConnectionError] stands for any [requests] transport failure;
    [SystemExit] is what [exit()] raises.  [OutOfFuel] is not a Python
    exception: it is what the model's bounded [while True] loop gives when
    its fuel runs out, kept apart from every real outcome (and, like
    [SystemExit], from the exceptions asyncio's loop carries on after), so
    that a theorem about a real outcome cannot be met by running out of
    fuel; [Selector] shows it never arises. *)
Inductive exn :=
| KeyError
| TypeError
| IndexError
| ValueError
| EOFError
| SystemExit
| OverflowError
| JSONDecodeError
| ConnectionError
| OutOfFuel.

(** [except ValueError:] catches [ValueError] and its subclasses. *)
Definition is_value_error (e : exn) : bool :=
  match e with
  | ValueError | JSONDecodeError => true
  | _ => false
  end.

(** [SystemExit] derives from [BaseException] and not from [Exception];
    asyncio re-raises such exceptions out of the event loop at once. *)
Definition is_base_only (e : exn) : bool :=
  match e with
  | SystemExit | OutOfFuel => true
  | _ => false
  end.

(** ** Values *)

(** JSON decoded by [json.loads]; numbers are integers (floats do not
    occur in the responses the script reads), and an object keeps its
    key/value pairs in text order, duplicates included. *)
Inductive json :=
| JNull
| JBool (b : bool)
| JInt (z : Z)
| JStr (s : string)
| JArr (l : list json)
| JObj (kvs : list (string * json)).

(** A subscript key: a [str] or an [int]. *)
Inductive pykey :=
| KStr (s : string)
| KInt (z : Z).

Definition pyres := outcome exn.

(** [dict[k]] on the dict [json.loads] builds: the last pair with the key
    wins. *)
Fixpoint dict_lookup (k : string) (kvs : list (string * json)) : option json :=
  match kvs with
  | [] => None
  | (k', v) :: rest =>
      match dict_lookup k rest with
      | Some v' => Some v'
      | None => if String.eqb k k' then Some v else None
      end
  end.

(** The keys of that dict, in first-insertion order, without repetition. *)
Fixpoint dict_keys_acc (seen : list string) (kvs : list (string * json)) : list string :=
  match kvs with
  | [] => []
  | (k, _) :: rest =>
      if existsb (String.eqb k) seen then dict_keys_acc seen rest
      else k :: dict_keys_acc (k :: seen) rest
  end.

Definition dict_keys (kvs : list (string * json)) : list string := dict_keys_acc [] kvs.

(** Python's sequence index: a negative index counts from the end. *)
Definition seq_index {A} (l : list A) (i : Z) : option A :=
  let n := Z.of_nat (List.length l) in
  let j := if (i <? 0)%Z then (i + n)%Z else i in
  if ((0 <=? j) && (j <? n))%Z then nth_error l (Z.to_nat j) else None.

Definition string_chars (s : string) : list json :=
  map (fun c => JStr (String c EmptyString)) (list_ascii_of_string s).

(** [x[k]] *)
Definition getitem (x : json) (k : pykey) : pyres json :=
  match x, k with
  | JObj kvs, KStr s =>
      match dict_lookup s kvs with Some v => Ok v | None => Exc KeyError end
  | JObj _, KInt _ => Exc KeyError
  | JArr l, KInt i =>
      match seq_index l i with Some v => Ok v | None => Exc IndexError end
  | JStr s, KInt i =>
      match seq_index (string_chars s) i with Some v => Ok v | None => Exc IndexError end
  | JArr _, KStr _ | JStr _, KStr _ => Exc TypeError
  | (JNull | JBool _ | JInt _), _ => Exc TypeError
  end.

(** [bool(x)] *)
Definition truthy (x : json) : bool :=
  match x with
  | JNull => false
  | JBool b => b
  | JInt z => negb (z =? 0)%Z
  | JStr s => negb (String.eqb s "")
  | JArr l => negb (match l with [] => true | _ => false end)
  | JObj kvs => negb (match kvs with [] => true | _ => false end)
  end.

(** [x == s] for a string literal [s]: only a [str] equal to it. *)
Definition py_eq_str (x : json) (s : string) : bool :=
  match x with
  | JStr t => String.eqb t s
  | _ => false
  end.

(** [len(x)] *)
Definition py_len (x : json) : pyres Z :=
  match x with
  | JStr s => Ok (Z.of_nat (String.length s))
  | JArr l => Ok (Z.of_nat (List.length l))
  | JObj kvs => Ok (Z.of_nat (List.length (dict_keys kvs)))
  | _ => Exc TypeError
  end.

(** [iter(x)]: a list yields its elements, a dict its keys, a string its
    characters. *)
Definition py_iter (x : json) : pyres (list json) :=
  match x with
  | JArr l => Ok l
  | JObj kvs => Ok (map JStr (dict_keys kvs))
  | JStr s => Ok (string_chars s)
  | _ => Exc TypeError
  end.

(** ** [str()] of an integer *)

(** The character of a decimal digit [0 <= d <= 9]. *)
Definition digit_char (d : Z) : ascii := ascii_of_nat (48 + Z.to_nat d).

(** The decimal digits of [n >= 0], most significant first, with fuel
    (one step per digit; [n + 1] steps always suffice). *)
Fixpoint dec_digits (fuel : nat) (n : Z) : list ascii :=
  match fuel with
  | O => []
  | S fuel' =>
      if (n <? 10)%Z then [digit_char n]
      else dec_digits fuel' (n / 10) ++ [digit_char (n mod 10)]
  end.

(** [str(z)] for an [int]: an optional minus sign and the decimal digits
    without leading zeros.  This is how the menu numbers and the menu size
    of [display_and_choose_food] are printed. *)
Definition py_str_int (z : Z) : string :=
  string_of_list_ascii
    ((if (z <? 0)%Z then ["-"%char] else [])
     ++ dec_digits (S (Z.to_nat (Z.abs z))) (Z.abs z)).

(** ** Formatted strings *)

(** The text of an f-string: literal parts and the [str()] of embedded
    values, kept unrendered. *)
Inductive piece :=
| PLit (s : string)
| PVal (v : json).

Definition fstr := list piece.

(** ** Lemmas *)

(** A subscript raises only the three lookup errors. *)
Lemma getitem_exc x k e :
  getitem x k = Exc e -> e = KeyError \/ e = TypeError \/ e = IndexError.
Proof. destruct x, k; simpl; repeat case_match; intros H; inversion H; auto. Qed.

Lemma getitem_not_base x k e : getitem x k = Exc e -> is_base_only e = false.
Proof. intros H. now destruct (getitem_exc x k e H) as [-> | [-> | -> ] ]. Qed.

#[export] Hint Resolve getitem_not_base : narije.

Lemma py_len_not_base x e : py_len x = Exc e -> is_base_only e = false.
Proof. destruct x; simpl; intros H; inversion H; reflexivity. Qed.

Lemma py_iter_not_base x e : py_iter x = Exc e -> is_base_only e = false.
Proof. destruct x; simpl; intros H; inversion H; reflexivity. Qed.

#[export] Hint Resolve py_len_not_base py_iter_not_base : narije.

(** An integer subscript returns one of the items iteration yields. *)
Lemma seq_index_in {A} (l : list A) i v : seq_index l i = Some v -> In v l.
Proof. unfold seq_index. destruct (_ && _); [apply nth_error_In|discriminate]. Qed.

Lemma getitem_int_in x i v :
  getitem x (KInt i) = Ok v -> exists items, py_iter x = Ok items /\ In v items.
Proof.
  destruct x; simpl; try discriminate; repeat case_match; intros H; inversion H; subst;
    eexists; split; try reflexivity; eapply seq_index_in; eassumption.
Qed.
