(* ===== verification/Runtime.v ===== *)
(** * The Python process the script runs in

    The state the script's statements read and change: standard output,
    standard input, the HTTP requests sent so far (with the clock reading
    at which each was sent), the clock that [time.sleep] advances, and
    asyncio's ready queue of coroutines created by [asyncio.create_task].
    [PyM] is the state-and-exception monad of the prelude on this state,
    and this file gives the primitives the script calls: [print],
    [input], [time.sleep], [requests.get/post/put], [response.json()] and
    [asyncio.create_task]. *)

From Stdlib Require Import ZArith List String Lia RelationClasses Sorting.Sorted.
From S2P Require Import Prelude Json.
Import ListNotations.
Open Scope string_scope.

(** ** HTTP *)

Inductive method := GET | POST | PUT.

(** A request as [requests] sends it: method, URL, headers (their values
    are f-strings, e.g. [f"Bearer {token}"]) and the [json=] body. *)
Record request := mkRequest {
  rq_method : method;
  rq_url : string;
  rq_headers : list (string * fstr);
  rq_json : option json
}.

(** A response: its status code and its body, [None] when the body is not
    JSON (then [response.json()] raises). *)
Record response := mkResponse {
  status_code : Z;
  resp_body : option json
}.

(** The remote service: given the requests sent before (oldest first) and
    a new request, its response, or [None] when the transport fails. *)
Definition server := list request -> request -> option response.

(** ** The process state *)

(** The coroutine objects the script creates: [reserve_food(token, date,
    food)] is the only [async def] it passes to [asyncio.create_task]. *)
Inductive coro :=
| ReserveFood (token : json) (date : string) (food : json).

(** What the script writes on stdout: a [print] line, or the prompt that
    [input] writes before reading. *)
Inductive out_event :=
| OLine (l : fstr)
| OPrompt (p : fstr).

Record world := mkWorld {
  w_out : list out_event;
  w_in : list string;
  w_http : list (Z * request);
  w_clock : Z;
  w_ready : list coro
}.

Definition PyM (A : Type) : Type := st world exn A.

Open Scope st_scope.

(** ** Primitives *)

Definition lift {A} (r : pyres A) : PyM A := fun w => (r, w).

Definition emit (e : out_event) : PyM unit :=
  fun w => (Ok tt, {| w_out := w_out w ++ [e]; w_in := w_in w; w_http := w_http w;
                      w_clock := w_clock w; w_ready := w_ready w |}).

(** [print(...)] *)
Definition print (l : fstr) : PyM unit := emit (OLine l).

(** [input(prompt)]: writes the prompt, then reads one line (without its
    newline); at end of file it raises [EOFError]. *)
Definition input (prompt : fstr) : PyM string :=
  emit (OPrompt prompt) ;;
  fun w =>
    match w_in w with
    | [] => (Exc EOFError, w)
    | line :: rest =>
        (Ok line, {| w_out := w_out w; w_in := rest; w_http := w_http w;
                     w_clock := w_clock w; w_ready := w_ready w |})
    end.

(** [time.sleep(secs)]: blocks the whole thread, the event loop included. *)
Definition sleep (secs : Z) : PyM unit :=
  fun w => (Ok tt, {| w_out := w_out w; w_in := w_in w; w_http := w_http w;
                      w_clock := w_clock w + secs; w_ready := w_ready w |}).

(** [requests.<method>(...)]: the request is sent (and logged) whether or
    not a response comes back. *)
Definition send (srv : server) (r : request) : PyM response :=
  fun w =>
    let w' := {| w_out := w_out w; w_in := w_in w;
                 w_http := w_http w ++ [(w_clock w, r)];
                 w_clock := w_clock w; w_ready := w_ready w |} in
    match srv (map snd (w_http w)) r with
    | Some resp => (Ok resp, w')
    | None => (Exc ConnectionError, w')
    end.

(** [response.json()] *)
Definition resp_json (r : response) : PyM json :=
  lift (match resp_body r with Some j => Ok j | None => Exc JSONDecodeError end).

(** [asyncio.create_task(coro)]: schedules the coroutine's first step at
    the end of the ready queue; nothing of its body runs yet. *)
Definition create_task (c : coro) : PyM unit :=
  fun w => (Ok tt, {| w_out := w_out w; w_in := w_in w; w_http := w_http w;
                      w_clock := w_clock w; w_ready := w_ready w ++ [c] |}).

(** [x[k]] inside the monad. *)
Definition getitemM (x : json) (k : pykey) : PyM json := lift (getitem x k).

(** ** Footprints *)

(** [keeps f]: the component [f] of the state is unchanged. *)
Definition keeps {X} (f : world -> X) (w w' : world) : Prop := f w' = f w.

#[export] Instance keeps_preorder {X} (f : world -> X) : PreOrder (keeps f).
Proof. split; [intros w; reflexivity|intros w1 w2 w3 H1 H2; unfold keeps in *; congruence]. Qed.

(** Each primitive touches one component of the state, and its frame
    facts for the others hold by computation. *)
Ltac prim_frame :=
  let w := fresh "w" in
  intros w; unfold keeps, print, emit, input, lift, getitemM, resp_json, sleep,
    send, create_task, st_bind, st_ret, st_raise in *;
  simpl; repeat case_match; reflexivity.

#[export] Hint Extern 3 (frame (keeps _) (print _)) => prim_frame : narije.
#[export] Hint Extern 3 (frame (keeps _) (input _)) => prim_frame : narije.
#[export] Hint Extern 3 (frame (keeps _) (lift _)) => prim_frame : narije.
#[export] Hint Extern 3 (frame (keeps _) (getitemM _ _)) => prim_frame : narije.
#[export] Hint Extern 3 (frame (keeps _) (resp_json _)) => prim_frame : narije.
#[export] Hint Extern 3 (frame (keeps w_ready) (sleep _)) => prim_frame : narije.
#[export] Hint Extern 3 (frame (keeps w_http) (sleep _)) => prim_frame : narije.
#[export] Hint Extern 3 (frame (keeps w_in) (sleep _)) => prim_frame : narije.
#[export] Hint Extern 3 (frame (keeps w_ready) (send _ _)) => prim_frame : narije.
#[export] Hint Extern 3 (frame (keeps w_clock) (send _ _)) => prim_frame : narije.
#[export] Hint Extern 3 (frame (keeps w_in) (send _ _)) => prim_frame : narije.
#[export] Hint Extern 3 (frame (keeps w_http) (create_task _)) => prim_frame : narije.
#[export] Hint Extern 3 (frame (keeps w_clock) (create_task _)) => prim_frame : narije.
#[export] Hint Extern 3 (frame (keeps w_in) (create_task _)) => prim_frame : narije.

(** The state of a fresh process whose standard input holds [stdin]. *)
Definition init_world (stdin : list string) : world :=
  {| w_out := []; w_in := stdin; w_http := []; w_clock := 0; w_ready := [] |}.

(** The exceptions that do not escape asyncio's loop at once. *)
Definition not_base (e : exn) : Prop := is_base_only e = false.

Ltac prim_raises :=
  let w := fresh "w" in let e := fresh "e" in let H := fresh "H" in
  intros w e; unfold print, emit, input, lift, getitemM, resp_json, sleep,
    send, create_task, st_bind, st_ret, st_raise in *;
  simpl; repeat case_match; simpl; intros H; inversion H; subst;
  unfold not_base; eauto with narije.

#[export] Hint Extern 3 (raises_only not_base (print _)) => prim_raises : narije.
#[export] Hint Extern 3 (raises_only not_base (input _)) => prim_raises : narije.
#[export] Hint Extern 3 (raises_only not_base (lift _)) => prim_raises : narije.
#[export] Hint Extern 3 (raises_only not_base (getitemM _ _)) => prim_raises : narije.
#[export] Hint Extern 3 (raises_only not_base (resp_json _)) => prim_raises : narije.
#[export] Hint Extern 3 (raises_only not_base (sleep _)) => prim_raises : narije.
#[export] Hint Extern 3 (raises_only not_base (send _ _)) => prim_raises : narije.
#[export] Hint Extern 3 (raises_only not_base (create_task _)) => prim_raises : narije.

(** [out_grows w w']: stdout only grows, by appending. *)
Definition out_grows (w w' : world) : Prop := exists l, w_out w' = (w_out w ++ l)%list.

#[export] Instance out_grows_preorder : PreOrder out_grows.
Proof.
  split; [intros w; exists []; now rewrite app_nil_r|].
  intros w1 w2 w3 [l1 E1] [l2 E2]. exists (l1 ++ l2)%list. now rewrite E2, E1, app_assoc.
Qed.

Ltac prim_out :=
  let w := fresh "w" in
  intros w; unfold out_grows, print, emit, input, lift, getitemM, st_bind, st_ret, st_raise;
  simpl; repeat case_match; simpl;
  first [exists []; now rewrite app_nil_r | eexists; reflexivity].

#[export] Hint Extern 3 (frame out_grows (print _)) => prim_out : narije.
#[export] Hint Extern 3 (frame out_grows (input _)) => prim_out : narije.
#[export] Hint Extern 3 (frame out_grows (lift _)) => prim_out : narije.
#[export] Hint Extern 3 (frame out_grows (getitemM _ _)) => prim_out : narije.

(** ** Time and the request log *)

(** [clock_log w w']: between [w] and [w'] the clock did not go back, and
    the requests sent were appended in time order, each stamped between
    the two clocks. *)
Definition clock_log (w w' : world) : Prop :=
  (w_clock w <= w_clock w')%Z /\
  exists l, w_http w' = (w_http w ++ l)%list /\ Sorted Z.le (map fst l) /\
            Forall (fun e => w_clock w <= fst e <= w_clock w')%Z l.

#[export] Instance clock_log_preorder : PreOrder clock_log.
Proof.
  split.
  - intros w. split; [lia|]. exists []. rewrite app_nil_r. repeat constructor.
  - intros w1 w2 w3 (Hc1 & l1 & E1 & S1 & F1) (Hc2 & l2 & E2 & S2 & F2).
    split; [lia|]. exists (l1 ++ l2)%list. rewrite E2, E1, app_assoc. split; [reflexivity|].
    split; [rewrite map_app; apply (Sorted_app_bound _ _ (w_clock w2)); auto|].
    + apply Forall_map. eapply Forall_impl; [|exact F1]. simpl. lia.
    + apply Forall_map. eapply Forall_impl; [|exact F2]. simpl. lia.
    + apply Forall_app. split; eapply Forall_impl; try eassumption; simpl; lia.
Qed.

(** A computation that leaves the log and the clock alone keeps the
    relation. *)
Lemma frame_clock_log_keeps {A} (m : PyM A) :
  frame (keeps w_http) m -> frame (keeps w_clock) m -> frame clock_log m.
Proof.
  intros Hh Hc w. specialize (Hh w). specialize (Hc w). unfold keeps in *.
  split; [lia|]. exists []. rewrite app_nil_r. repeat split; [congruence|constructor|constructor].
Qed.

Lemma frame_clock_log_send srv r : frame clock_log (send srv r).
Proof.
  intros w. unfold send, clock_log. destruct (srv _ r); simpl; (split; [lia|]);
    exists [(w_clock w, r)]; repeat constructor; simpl; lia.
Qed.

Lemma frame_clock_log_sleep secs : (0 <= secs)%Z -> frame clock_log (sleep secs).
Proof.
  intros Hs w. unfold sleep, clock_log. simpl. split; [lia|]. exists [].
  rewrite app_nil_r. repeat constructor.
Qed.

#[export] Hint Resolve frame_clock_log_send : narije.
#[export] Hint Extern 3 (frame clock_log (sleep _)) => apply frame_clock_log_sleep; lia : narije.
#[export] Hint Extern 3 (frame clock_log (print _)) =>
  apply frame_clock_log_keeps; prim_frame : narije.
#[export] Hint Extern 3 (frame clock_log (input _)) =>
  apply frame_clock_log_keeps; prim_frame : narije.
#[export] Hint Extern 3 (frame clock_log (lift _)) =>
  apply frame_clock_log_keeps; prim_frame : narije.
#[export] Hint Extern 3 (frame clock_log (getitemM _ _)) =>
  apply frame_clock_log_keeps; prim_frame : narije.
#[export] Hint Extern 3 (frame clock_log (resp_json _)) =>
  apply frame_clock_log_keeps; prim_frame : narije.
#[export] Hint Extern 3 (frame clock_log (create_task _)) =>
  apply frame_clock_log_keeps; prim_frame : narije.

(** The log is in time order and no entry is later than the clock. *)
Definition log_ok (w : world) : Prop :=
  Sorted Z.le (map fst (w_http w)) /\ Forall (fun e => fst e <= w_clock w)%Z (w_http w).

Lemma log_ok_clock_log w w' : log_ok w -> clock_log w w' -> log_ok w'.
Proof.
  intros (S & F) (Hc & l & E & Sl & Fl). unfold log_ok. rewrite E, map_app. split.
  - apply (Sorted_app_bound _ _ (w_clock w)); auto.
    + apply Forall_map. exact F.
    + apply Forall_map. eapply Forall_impl; [|exact Fl]. simpl. lia.
  - apply Forall_app. split; eapply Forall_impl; try eassumption; simpl; lia.
Qed.

Lemma log_ok_init stdin : log_ok (init_world stdin).
Proof. split; constructor. Qed.

(** ** Runs that agree on what the program observes

    [agree P w1 w2]: the request log, the clock and the ready queue are
    the same, and the two stdin's are related by [P]; stdout may differ.
    The primitives other than [input] read and write only those parts, so
    they run in lock step from agreeing states. *)
Definition agree (P : list string -> list string -> Prop) (w1 w2 : world) : Prop :=
  w_http w1 = w_http w2 /\ w_clock w1 = w_clock w2 /\ w_ready w1 = w_ready w2 /\
  P (w_in w1) (w_in w2).

Section Agree.
Context (P : list string -> list string -> Prop).

Ltac sim_prim :=
  intros w1 w2 (H1 & H2 & H3 & H4);
  unfold emit, print, lift, getitemM, resp_json, sleep, send, create_task; cbn;
  rewrite ?H1, ?H2, ?H3; try case_match; repeat split; cbn; congruence.

Lemma sim_print l : sim (agree P) (agree P) (print l) (print l).
Proof. sim_prim. Qed.
Lemma sim_lift {A} (r : pyres A) : sim (agree P) (agree P) (lift r) (lift r).
Proof. sim_prim. Qed.
Lemma sim_getitemM x k : sim (agree P) (agree P) (getitemM x k) (getitemM x k).
Proof. sim_prim. Qed.
Lemma sim_resp_json r : sim (agree P) (agree P) (resp_json r) (resp_json r).
Proof. sim_prim. Qed.
Lemma sim_sleep secs : sim (agree P) (agree P) (sleep secs) (sleep secs).
Proof. sim_prim. Qed.
Lemma sim_send srv r : sim (agree P) (agree P) (send srv r) (send srv r).
Proof. sim_prim. Qed.
Lemma sim_create_task c : sim (agree P) (agree P) (create_task c) (create_task c).
Proof. sim_prim. Qed.
End Agree.

#[export] Hint Resolve sim_ret sim_raise sim_print sim_lift sim_getitemM sim_resp_json
  sim_sleep sim_send sim_create_task : narije.

(** Decompose a lock-step goal between two copies of the same code. *)
Ltac sim_solve :=
  repeat first
    [ match goal with
      | |- sim ?R ?R' (st_bind _ _) (st_bind _ _) =>
          apply (sim_bind R R R'); [| intros ? | intros ? ? ?; solve [eauto with narije]]
      | |- sim _ _ (if _ then _ else _) (if _ then _ else _) => apply sim_if
      | |- sim _ _ (match ?x with _ => _ end) (match ?x with _ => _ end) => destruct x
      end
    | progress (cbv beta iota zeta)
    | solve [eauto with narije]
    | solve [eapply sim_weaken; [solve [eauto with narije] | intros ? ? ?; solve [eauto with narije]]] ].
