(* ===== verification/PyInt.v ===== *)
(** * Python's [int(s)] on a string

    [display_and_choose_food] (reserve.py 45-47) converts the line the user
    typed with [int(choice)].  CPython ([PyLong_FromUnicodeObject] and
    [PyLong_FromString], base 10) skips leading and trailing whitespace,
    accepts one optional sign, then decimal digits with single underscores
    between digits, and raises [ValueError] on anything else; since
    Python 3.11 it also raises [ValueError] when the number has more than
    [sys.int_info.default_max_str_digits] (4300) digits.  The input is
    modelled as ASCII text. *)

From Stdlib Require Import ZArith List String Ascii Bool Lia.
From S2P Require Import Prelude Json.
Import ListNotations.
Open Scope Z_scope.

(** Whitespace in the sense of [str.isspace] restricted to ASCII: tab, line
    feed, vertical tab, form feed, carriage return, the four separators
    0x1C-0x1F, and space. *)
Definition is_py_space (c : ascii) : bool :=
  let n := Z.of_nat (nat_of_ascii c) in
  ((9 <=? n) && (n <=? 13)) || ((28 <=? n) && (n <=? 32)).

Definition is_digit (c : ascii) : bool :=
  let n := Z.of_nat (nat_of_ascii c) in (48 <=? n) && (n <=? 57).

Definition digit_value (c : ascii) : Z := Z.of_nat (nat_of_ascii c) - 48.

Fixpoint skip_space (l : list ascii) : list ascii :=
  match l with
  | c :: r => if is_py_space c then skip_space r else l
  | [] => []
  end.

Definition parse_sign (l : list ascii) : Z * list ascii :=
  match l with
  | "+"%char :: r => (1, r)
  | "-"%char :: r => (-1, r)
  | _ => (1, l)
  end.

(** The digit scan: [acc] is the value so far, [nd] the number of digits,
    [prev_us] whether the previous character was an underscore (it starts
    [true], which rejects a leading underscore and an empty digit string).
    Returns the value, the digit count and the rest of the input. *)
Fixpoint scan_digits (acc : Z) (nd : nat) (prev_us : bool) (l : list ascii)
  : option (Z * nat * list ascii) :=
  match l with
  | c :: r =>
      if is_digit c then scan_digits (acc * 10 + digit_value c) (S nd) false r
      else if Ascii.eqb c "_"%char then
        if prev_us then None else scan_digits acc nd true r
      else if prev_us then None else Some (acc, nd, l)
  | [] => if prev_us then None else Some (acc, nd, [])
  end.

(** [sys.int_info.default_max_str_digits] *)
Definition max_str_digits : nat := 4300.

(** [int(s)] for a [str] [s]. *)
Definition int_of_str (s : string) : pyres Z :=
  let (sign, l) := parse_sign (skip_space (list_ascii_of_string s)) in
  match scan_digits 0 0 true l with
  | None => Exc ValueError
  | Some (v, nd, rest) =>
      if Nat.ltb max_str_digits nd then Exc ValueError
      else match skip_space rest with
           | [] => Ok (sign * v)
           | _ => Exc ValueError
           end
  end.

(** [int()] fails only with [ValueError]. *)
Lemma int_of_str_exc s e : int_of_str s = Exc e -> e = ValueError.
Proof. unfold int_of_str. repeat case_match; intros H; inversion H; reflexivity. Qed.

Lemma int_of_str_not_base s e : int_of_str s = Exc e -> is_base_only e = false.
Proof. intros H. now rewrite (int_of_str_exc s e H). Qed.

#[export] Hint Resolve int_of_str_not_base : narije.

(** ** Decimal numerals *)

(** The value of a digit string read after the value [acc]. *)
Definition digits_value (acc : Z) (l : list ascii) : Z :=
  fold_left (fun a c => a * 10 + digit_value c) l acc.

Lemma digit_char_props d : 0 <= d <= 9 ->
  digit_value (digit_char d) = d /\ is_digit (digit_char d) = true /\
  is_py_space (digit_char d) = false /\ Ascii.eqb (digit_char d) "_"%char = false.
Proof.
  intros Hd. unfold digit_value, is_digit, is_py_space, digit_char.
  rewrite Ascii.nat_ascii_embedding by lia.
  split; [lia|]. split; [apply andb_true_intro; split; apply Z.leb_le; lia|].
  split.
  - apply orb_false_intro; apply andb_false_intro2; apply Z.leb_gt; lia.
  - destruct (Ascii.eqb_spec (ascii_of_nat (48 + Z.to_nat d)) "_"%char) as [E|]; [|reflexivity].
    apply (f_equal nat_of_ascii) in E. rewrite Ascii.nat_ascii_embedding in E by lia.
    change (nat_of_ascii "_"%char) with 95%nat in E. lia.
Qed.

Lemma scan_digits_digit c r acc nd prev :
  is_digit c = true ->
  scan_digits acc nd prev (c :: r) = scan_digits (acc * 10 + digit_value c) (S nd) false r.
Proof. intros Hc. simpl. now rewrite Hc. Qed.

(** The scan reads a run of digits as its value and stops after it. *)
Lemma scan_digits_run c l rest acc nd prev :
  is_digit c = true -> Forall (fun c => is_digit c = true) l ->
  scan_digits acc nd prev (c :: l ++ rest)
  = scan_digits (digits_value acc (c :: l)) (nd + S (List.length l)) false rest.
Proof.
  revert c acc nd prev. induction l as [|c' l IH]; intros c acc nd prev Hc Hl.
  - rewrite scan_digits_digit by exact Hc. now rewrite Nat.add_1_r.
  - inversion Hl as [|? ? Hc' Hl']; subst.
    rewrite <- app_comm_cons, scan_digits_digit by exact Hc.
    rewrite (IH c' (acc * 10 + digit_value c) (S nd) false Hc' Hl').
    f_equal. cbn [List.length]. lia.
Qed.

Section Digits.
Context (fuel : nat) (n : Z).
Hypothesis Hn : 0 <= n.
Hypothesis Hfuel : (Z.to_nat n < fuel)%nat.

Lemma dec_digits_shape :
  exists c l, dec_digits fuel n = c :: l /\ is_digit c = true /\
    Forall (fun c => is_digit c = true) l /\ is_py_space c = false.
Proof.
  revert n Hn Hfuel. induction fuel as [|f IH]; intros m Hm Hf; [lia|]. simpl.
  destruct (m <? 10) eqn:E.
  - apply Z.ltb_lt in E. destruct (digit_char_props m ltac:(lia)) as (_ & Hd & Hs & _).
    exists (digit_char m), []. repeat split; auto.
  - apply Z.ltb_ge in E.
    destruct (IH (m / 10) ltac:(apply Z.div_pos; lia)
                ltac:(assert (m / 10 < m) by (apply Z.div_lt; lia); lia))
      as (c & l & -> & Hc & Hl & Hs).
    destruct (digit_char_props (m mod 10) ltac:(pose proof (Z.mod_pos_bound m 10); lia))
      as (_ & Hd & _ & _).
    exists c, (l ++ [digit_char (m mod 10)])%list. repeat split; auto.
    apply Forall_app. auto.
Qed.

Lemma dec_digits_value : digits_value 0 (dec_digits fuel n) = n.
Proof.
  revert n Hn Hfuel. induction fuel as [|f IH]; intros m Hm Hf; [lia|]. simpl.
  destruct (m <? 10) eqn:E.
  - apply Z.ltb_lt in E. unfold digits_value. simpl.
    destruct (digit_char_props m ltac:(lia)) as (-> & _). reflexivity.
  - apply Z.ltb_ge in E. unfold digits_value in *. rewrite fold_left_app. simpl.
    rewrite IH by (try apply Z.div_pos; try (assert (m / 10 < m) by (apply Z.div_lt; lia)); lia).
    destruct (digit_char_props (m mod 10) ltac:(pose proof (Z.mod_pos_bound m 10); lia))
      as (-> & _).
    pose proof (Z.div_mod m 10). lia.
Qed.

Lemma dec_digits_length k :
  0 < k -> n < 10 ^ k -> (List.length (dec_digits fuel n) <= Z.to_nat k)%nat.
Proof.
  revert n Hn Hfuel k. induction fuel as [|f IH]; intros m Hm Hf k Hk Hlt; [lia|]. simpl.
  destruct (m <? 10) eqn:E; [simpl; lia|]. apply Z.ltb_ge in E.
  assert (Hk1 : 1 < k).
  { destruct (Z.eq_dec k 1) as [->|]; [simpl in Hlt; lia|lia]. }
  rewrite length_app. simpl.
  assert (H := IH (m / 10) ltac:(apply Z.div_pos; lia)
                 ltac:(assert (m / 10 < m) by (apply Z.div_lt; lia); lia) (k - 1) ltac:(lia)).
  assert (Hlt' : m / 10 < 10 ^ (k - 1)).
  { apply Z.div_lt_upper_bound; [lia|].
    replace (10 * 10 ^ (k - 1)) with (10 ^ k); [exact Hlt|].
    rewrite <- Z.pow_succ_r by lia. f_equal. lia. }
  specialize (H Hlt'). lia.
Qed.
End Digits.

(** The digits of a number below [10 ^ 4300] pass the scan and the
    digit limit, and read back as the number. *)
Lemma scan_dec_digits fuel n :
  0 <= n -> (Z.to_nat n < fuel)%nat -> n < 10 ^ 4300 ->
  exists nd, scan_digits 0 0 true (dec_digits fuel n) = Some (n, nd, [])
             /\ Nat.ltb max_str_digits nd = false.
Proof.
  intros Hn Hf Hb.
  destruct (dec_digits_shape fuel n Hn Hf) as (c & l & Hd & Hc & Hl & _).
  pose proof (dec_digits_value fuel n Hn Hf) as Hv.
  pose proof (dec_digits_length fuel n Hn Hf 4300 ltac:(lia) Hb) as Hlen.
  rewrite Hd in *. rewrite <- (app_nil_r l), scan_digits_run by assumption.
  exists (0 + S (List.length l))%nat. rewrite Hv. split; [reflexivity|].
  apply Nat.ltb_ge. unfold max_str_digits. simpl in Hlen. lia.
Qed.

(** Round trip of the menu numbers: [int(str(k))] is [k] for every
    integer of at most 4300 digits. *)
Lemma int_of_str_py_str_int z :
  Z.abs z < 10 ^ 4300 -> int_of_str (py_str_int z) = Ok z.
Proof.
  intros Hb. unfold int_of_str, py_str_int. rewrite list_ascii_of_string_of_list_ascii.
  pose proof (Z.abs_nonneg z) as Hn.
  destruct (dec_digits_shape (S (Z.to_nat (Z.abs z))) (Z.abs z) Hn ltac:(lia))
    as (c & l & Hd & Hc & _ & Hs).
  destruct (scan_dec_digits (S (Z.to_nat (Z.abs z))) (Z.abs z) Hn ltac:(lia) Hb)
    as (nd & Hscan & Hlim).
  rewrite Hd in *.
  destruct (z <? 0) eqn:Hz; simpl app.
  - cbn [skip_space]. change (is_py_space "-"%char) with false. cbn [parse_sign].
    rewrite Hscan, Hlim. cbn [skip_space]. f_equal. apply Z.ltb_lt in Hz. lia.
  - cbn [skip_space]. rewrite Hs.
    replace (parse_sign (c :: l)) with (1, c :: l)
      by (destruct c as [[] [] [] [] [] [] [] []]; try reflexivity; discriminate Hc).
    rewrite Hscan, Hlim. cbn [skip_space]. f_equal. apply Z.ltb_ge in Hz. lia.
Qed.

