(* ===== verification/Text.v ===== *)
(** * The text the script writes: [str()], [repr()] and f-strings

    Every [print] of reserve.py (17, 34, 36, 41, 43, 52, 54, 65, 84, 86)
    writes an f-string or a string literal, and the embedded values are
    formatted with [format(x, '')], which for the decoded JSON values is
    [str(x)]: a [str] is written as it is, [None], [True] and [False] by
    name, an [int] in decimal, and a [list] or a [dict] as its [repr], in
    which strings are quoted by [unicode_repr] of [Objects/unicodeobject.c].
    This file translates these functions (characters are the code points
    U+0000..U+00FF), renders the output events of [Runtime] as the text
    on stdout, and gives a reader of Python string literals with the proof
    that it reads every [repr] of a string back. *)

From Stdlib Require Import ZArith List String Ascii Bool Lia.
From S2P Require Import Prelude Json Runtime PyInt.
Import ListNotations.
Open Scope list_scope.
Open Scope char_scope.

(** The quotes and the backslash, by their codes. *)
Definition dq : ascii := "034".
Definition sq : ascii := "039".
Definition bs : ascii := "092".

(** [Py_hexdigits]: lower-case hexadecimal. *)
Definition hex_digit (n : nat) : ascii :=
  if (n <? 10)%nat then ascii_of_nat (48 + n) else ascii_of_nat (87 + n).

(** [Py_UNICODE_ISPRINTABLE] on U+0000..U+00FF: not the controls
    (U+0000..U+001F, U+007F..U+009F), not the no-break space U+00A0 (a
    separator) and not the soft hyphen U+00AD (a format character). *)
Definition is_printable (n : nat) : bool :=
  negb ((n <? 32)%nat || ((127 <=? n)%nat && (n <=? 160)%nat) || (n =? 173)%nat).

(** One character inside a [repr] quoted by [q]. *)
Definition repr_char (q c : ascii) : list ascii :=
  let n := nat_of_ascii c in
  if Ascii.eqb c q || Ascii.eqb c bs then [bs; c]
  else if (n =? 9)%nat then [bs; "t"]
  else if (n =? 10)%nat then [bs; "n"]
  else if (n =? 13)%nat then [bs; "r"]
  else if is_printable n then [c]
  else [bs; "x"; hex_digit (n / 16); hex_digit (n mod 16)].

(** The quote [unicode_repr] chooses: the double quote when the string
    holds a single quote and no double quote, the single quote otherwise. *)
Definition repr_quote (l : list ascii) : ascii :=
  if existsb (Ascii.eqb sq) l && negb (existsb (Ascii.eqb dq) l) then dq else sq.

(** [repr(s)] for a [str]. *)
Definition repr_str (s : string) : list ascii :=
  let l := list_ascii_of_string s in
  let q := repr_quote l in
  q :: flat_map (repr_char q) l ++ [q].

(** [sep.join(items)] *)
Definition join (sep : list ascii) (items : list (list ascii)) : list ascii :=
  match items with
  | [] => []
  | x :: r => x ++ flat_map (fun y => sep ++ y) r
  end.

Definition comma_sep : list ascii := [","; " "].

(** The dict [json.loads] builds from the pairs of an object: its keys in
    first-insertion order, each with the value of its last pair. *)
Fixpoint lookup_last {A} (k : string) (kvs : list (string * A)) : option A :=
  match kvs with
  | [] => None
  | (k', v) :: rest =>
      match lookup_last k rest with
      | Some v' => Some v'
      | None => if String.eqb k k' then Some v else None
      end
  end.

Fixpoint keys_acc {A} (seen : list string) (kvs : list (string * A)) : list string :=
  match kvs with
  | [] => []
  | (k, _) :: rest =>
      if existsb (String.eqb k) seen then keys_acc seen rest
      else k :: keys_acc (k :: seen) rest
  end.

Definition dict_items {A} (kvs : list (string * A)) : list (string * A) :=
  omap (fun k => option_map (pair k) (lookup_last k kvs)) (keys_acc [] kvs).

(** The Python value [json.loads] builds from a decoded JSON text: each
    object becomes a dict, its keys in first-insertion order with the
    value of their last pair. *)
Fixpoint py_value (v : json) : json :=
  match v with
  | JArr l => JArr (map py_value l)
  | JObj kvs => JObj (dict_items (map (fun '(k, x) => (k, py_value x)) kvs))
  | _ => v
  end.

(** [repr(x)]: [list.__repr__] and [dict.__repr__] write the [repr] of
    their elements, keys and values; the values of an object are written
    first and the dict is then built on the written texts. *)
Fixpoint py_repr (v : json) : list ascii :=
  match v with
  | JNull => ["N"; "o"; "n"; "e"]
  | JBool true => ["T"; "r"; "u"; "e"]
  | JBool false => ["F"; "a"; "l"; "s"; "e"]
  | JInt z => list_ascii_of_string (py_str_int z)
  | JStr s => repr_str s
  | JArr l => "[" :: join comma_sep (map py_repr l) ++ ["]"]
  | JObj kvs =>
      "{" :: join comma_sep
               (map (fun '(k, t) => repr_str k ++ [":"; " "] ++ t)
                  (dict_items (map (fun '(k, x) => (k, py_repr x)) kvs)))
          ++ ["}"]
  end.

(** [str(x)], which is also [format(x, '')] in an f-string. *)
Definition py_str (v : json) : list ascii :=
  match v with
  | JStr s => list_ascii_of_string s
  | _ => py_repr v
  end.

(** The text of an f-string, and of the output events of [Runtime]: a
    [print] ends its line, the prompt of [input] does not. *)
Definition render (f : fstr) : list ascii :=
  flat_map (fun p => match p with PLit s => list_ascii_of_string s | PVal v => py_str v end) f.

Definition event_text (e : out_event) : list ascii :=
  match e with
  | OLine l => render l ++ ["010"]
  | OPrompt p => render p
  end.

Definition stdout_text (out : list out_event) : list ascii := flat_map event_text out.

(** ** Reading a string literal back

    A reader for the Python string literals [repr] writes: a quote, the
    characters with the escapes of the backslash and of either quote,
    [\t], [\n], [\r] and [\xHH], and the same quote; an unescaped line
    feed ends the line before the literal, which is a syntax error.  It
    is the specification side of [eval(repr(s)) == s]; other escapes are
    not read. *)

(** The value of a hexadecimal digit, either case. *)
Definition hex_value (c : ascii) : option nat :=
  let n := nat_of_ascii c in
  if (48 <=? n)%nat && (n <=? 57)%nat then Some (n - 48)%nat
  else if (97 <=? n)%nat && (n <=? 102)%nat then Some (n - 87)%nat
  else if (65 <=? n)%nat && (n <=? 70)%nat then Some (n - 55)%nat
  else None.

Definition hex2_value (h1 h2 : ascii) : option nat :=
  match hex_value h1, hex_value h2 with
  | Some a, Some b => Some (a * 16 + b)%nat
  | _, _ => None
  end.

Definition cons_fst {A B} (x : A) (o : option (list A * B)) : option (list A * B) :=
  match o with Some (l, r) => Some (x :: l, r) | None => None end.

(** The characters of a literal quoted by [q] after its opening quote,
    and what follows its closing quote. *)
Fixpoint read_lit (q : ascii) (l : list ascii) : option (list ascii * list ascii) :=
  match l with
  | [] => None
  | c :: r =>
      if Ascii.eqb c q then Some ([], r)
      else if Ascii.eqb c bs then
        match r with
        | [] => None
        | e :: r' =>
            if Ascii.eqb e bs || Ascii.eqb e sq || Ascii.eqb e dq then cons_fst e (read_lit q r')
            else if Ascii.eqb e "t" then cons_fst "009" (read_lit q r')
            else if Ascii.eqb e "n" then cons_fst "010" (read_lit q r')
            else if Ascii.eqb e "r" then cons_fst "013" (read_lit q r')
            else if Ascii.eqb e "x" then
              match r' with
              | h1 :: h2 :: r'' =>
                  match hex2_value h1 h2 with
                  | Some n => cons_fst (ascii_of_nat n) (read_lit q r'')
                  | None => None
                  end
              | _ => None
              end
            else None
        end
      else if (nat_of_ascii c =? 10)%nat then None
      else cons_fst c (read_lit q r)
  end.

(** [ast.literal_eval] on a one-string text. *)
Definition literal_eval (l : list ascii) : option string :=
  match l with
  | q :: r =>
      if Ascii.eqb q sq || Ascii.eqb q dq then
        match read_lit q r with
        | Some (s, []) => Some (string_of_list_ascii s)
        | _ => None
        end
      else None
  | [] => None
  end.

(** ** [eval(repr(s)) == s] *)

Lemma read_lit_char q c r :
  q = sq \/ q = dq -> read_lit q (repr_char q c ++ r) = cons_fst c (read_lit q r).
Proof. intros [-> | ->]; destruct c as [[] [] [] [] [] [] [] []]; reflexivity. Qed.

Lemma read_lit_chars q l r :
  q = sq \/ q = dq -> read_lit q (flat_map (repr_char q) l ++ q :: r) = Some (l, r).
Proof.
  intros Hq. induction l as [|c l IH].
  - cbn [flat_map app read_lit]. now rewrite Ascii.eqb_refl.
  - cbn [flat_map]. now rewrite <- app_assoc, read_lit_char, IH.
Qed.

Lemma repr_quote_cases l : repr_quote l = sq \/ repr_quote l = dq.
Proof. unfold repr_quote. destruct (_ && _); auto. Qed.

(** [repr] of a string is a literal that reads back as the string:
    whichever quote [unicode_repr] chooses, the characters it escapes are
    the ones the literal syntax needs escaped. *)
Theorem literal_eval_repr_str s : literal_eval (repr_str s) = Some s.
Proof.
  unfold repr_str, literal_eval. set (q := repr_quote _).
  assert (Hq : q = sq \/ q = dq) by apply repr_quote_cases.
  replace (Ascii.eqb q sq || Ascii.eqb q dq) with true by (destruct Hq as [-> | ->]; reflexivity).
  rewrite read_lit_chars by exact Hq. now rewrite string_of_list_ascii_of_string.
Qed.

(** ** The printed dict is the dict the subscripts see *)

Section DictRepr.
Context {B : Type} (f : json -> B).

Let g (kv : string * json) : string * B := let '(k, x) := kv in (k, f x).

Lemma lookup_last_map k kvs : lookup_last k (map g kvs) = option_map f (dict_lookup k kvs).
Proof.
  induction kvs as [|[k' x] kvs IH]; [reflexivity|]. cbn [map g lookup_last dict_lookup].
  rewrite IH. destruct (dict_lookup k kvs); [reflexivity|]. now destruct (String.eqb k k').
Qed.

Lemma keys_acc_map seen kvs : keys_acc seen (map g kvs) = dict_keys_acc seen kvs.
Proof.
  revert seen. induction kvs as [|[k x] kvs IH]; intros seen; [reflexivity|].
  cbn [map g keys_acc dict_keys_acc]. now rewrite !IH.
Qed.
End DictRepr.

(** Every key of the dict has a value. *)
Lemma dict_keys_lookup seen kvs k :
  In k (dict_keys_acc seen kvs) -> exists v, dict_lookup k kvs = Some v.
Proof.
  revert seen. induction kvs as [|[k' x] kvs IH]; intros seen Hin; [destruct Hin|].
  cbn [dict_keys_acc dict_lookup] in *.
  destruct (dict_lookup k kvs) as [v|] eqn:E; [now exists v|].
  destruct (existsb (String.eqb k') seen).
  - destruct (IH _ Hin) as [v Hv]. congruence.
  - destruct Hin as [<-|Hin].
    + rewrite String.eqb_refl. now exists x.
    + destruct (IH _ Hin) as [v Hv]. congruence.
Qed.

Lemma omap_lookup_all {B} (lk : string -> option B) (d : B) l :
  (forall k, In k l -> exists v, lk k = Some v) ->
  omap (fun k => option_map (pair k) (lk k)) l
  = map (fun k => (k, match lk k with Some v => v | None => d end)) l.
Proof.
  induction l as [|k l IH]; intros H; [reflexivity|].
  destruct (H k (or_introl eq_refl)) as [v Hv]. unfold omap in *. cbn [flat_map map].
  rewrite Hv. cbn [option_map app]. f_equal. apply IH. intros k' Hk'. apply H. now right.
Qed.

