(* ===== verification/Calendar.v ===== *)
(** * Calendar arithmetic of Python's [datetime], as [main] uses it

    [main] (reserve.py 59-69) computes [datetime.datetime.today() +
    datetime.timedelta(days=day)], renders it with
    [strftime("%Y-%m-%dT00:00:00")] and tests [weekday()].  CPython keeps a
    date as a proleptic Gregorian ordinal (day 1 is 0001-01-01) and converts
    with [_ymd2ord] and [_ord2ymd] (Lib/_pydatetime.py, whose arithmetic the
    C module repeats); this file translates those functions, [weekday], the
    range check of [date + timedelta] and the [strftime] format the script
    uses, and proves what [main] relies on: the two conversions are
    inverse bijections on years 1-9999, adding one day gives the next
    calendar date, [weekday] advances by one per day, and the [strftime]
    text determines the day.  The calendar facts are checked by [vm_compute]
    over one 400-year cycle and extended to every year by shift lemmas. *)

From Stdlib Require Import ZArith List String Ascii Bool Lia.
From S2P Require Import Prelude Json PyInt.
Import ListNotations.
Open Scope Z_scope.

Definition MINYEAR : Z := 1.
Definition MAXYEAR : Z := 9999.

Definition DAYS_IN_MONTH : list Z := [-1; 31; 28; 31; 30; 31; 30; 31; 31; 30; 31; 30; 31].
Definition DAYS_BEFORE_MONTH : list Z := [-1; 0; 31; 59; 90; 120; 151; 181; 212; 243; 273; 304; 334].

(** [table[i]] for the two month tables, indexed from 1. *)
Definition zlist_at (l : list Z) (i : Z) : Z := nth (Z.to_nat i) l 0.

Definition is_leap (year : Z) : bool :=
  (year mod 4 =? 0) && (negb (year mod 100 =? 0) || (year mod 400 =? 0)).

Definition days_before_year (year : Z) : Z :=
  let y := year - 1 in y * 365 + y / 4 - y / 100 + y / 400.

Definition days_in_month (year month : Z) : Z :=
  if (month =? 2) && is_leap year then 29 else zlist_at DAYS_IN_MONTH month.

Definition days_before_month (year month : Z) : Z :=
  zlist_at DAYS_BEFORE_MONTH month + (if (month >? 2) && is_leap year then 1 else 0).

(** [_ymd2ord(year, month, day)] *)
Definition ymd2ord (year month day : Z) : Z :=
  days_before_year year + days_before_month year month + day.

Definition DI400Y : Z := 146097.
Definition DI100Y : Z := 36524.
Definition DI4Y : Z := 1461.

(** The part of [_ord2ymd] after the 400-year split: [n400] full 400-year
    cycles and the day [n] (from 0) inside the cycle. *)
Definition ord2ymd_cycle (n400 n : Z) : Z * Z * Z :=
  let year := n400 * 400 + 1 in
  let n100 := n / DI100Y in
  let n := n mod DI100Y in
  let n4 := n / DI4Y in
  let n := n mod DI4Y in
  let n1 := n / 365 in
  let n := n mod 365 in
  let year := year + n100 * 100 + n4 * 4 + n1 in
  if (n1 =? 4) || (n100 =? 4) then (year - 1, 12, 31)
  else
    let leapyear := (n1 =? 3) && (negb (n4 =? 24) || (n100 =? 3)) in
    let month := Z.shiftr (n + 50) 5 in
    let preceding :=
      zlist_at DAYS_BEFORE_MONTH month + (if (month >? 2) && leapyear then 1 else 0) in
    let '(month, preceding) :=
      if preceding >? n then
        let month := month - 1 in
        (month, preceding - (zlist_at DAYS_IN_MONTH month
                             + (if (month =? 2) && leapyear then 1 else 0)))
      else (month, preceding) in
    (year, month, n - preceding + 1).

(** [_ord2ymd(n)] *)
Definition ord2ymd (n : Z) : Z * Z * Z :=
  let n := n - 1 in
  ord2ymd_cycle (n / DI400Y) (n mod DI400Y).

(** [date.max.toordinal()], the ordinal of 9999-12-31. *)
Definition MAXORDINAL : Z := 3652059.

(** [date.weekday()]: Monday is 0 and Sunday is 6. *)
Definition weekday (ord : Z) : Z := (ord + 6) mod 7.

(** [d + timedelta(days=k)]: the result must stay within year 1 to 9999,
    otherwise [OverflowError: date value out of range]. *)
Definition add_days (ord k : Z) : pyres Z :=
  let ord' := ord + k in
  if (1 <=? ord') && (ord' <=? MAXORDINAL) then Ok ord' else Exc OverflowError.

(** ** [strftime("%Y-%m-%dT00:00:00")] *)

(** The last [w] decimal digits of [z], least significant first. *)
Fixpoint digits_rev (w : nat) (z : Z) : list ascii :=
  match w with
  | O => []
  | S w' => digit_char (z mod 10) :: digits_rev w' (z / 10)
  end.

(** [z] in decimal on [w] digits, zero-padded. *)
Definition pad_num (w : nat) (z : Z) : string :=
  string_of_list_ascii (rev (digits_rev w z)).

(** The date part of [strftime("%Y-%m-%dT00:00:00")]: [%Y] on four digits,
    [%m] and [%d] on two; the time part is the literal ["T00:00:00"] of the
    format, whatever the time of day. *)
Definition strftime_date (ord : Z) : string :=
  let '(y, m, d) := ord2ymd ord in
  (pad_num 4 y ++ "-" ++ pad_num 2 m ++ "-" ++ pad_num 2 d ++ "T00:00:00")%string.

(** ** Lemmas *)

Lemma add_days_exc ord k e : add_days ord k = Exc e -> e = OverflowError.
Proof. unfold add_days. case_if; intros H; inversion H; reflexivity. Qed.

Lemma add_days_not_base ord k e : add_days ord k = Exc e -> is_base_only e = false.
Proof. intros H. now rewrite (add_days_exc ord k e H). Qed.

#[export] Hint Resolve add_days_not_base : narije.

(** ** The ordinal conversions *)

(** The 400-year cycles only shift the year. *)
Lemma ord2ymd_cycle_shift q n :
  ord2ymd_cycle q n = let '(y, m, d) := ord2ymd_cycle 0 n in (y + 400 * q, m, d).
Proof.
  unfold ord2ymd_cycle. cbv zeta.
  destruct (_ || _); [f_equal; f_equal; lia|].
  destruct (_ >? _); cbv iota; f_equal; f_equal; lia.
Qed.

Lemma mod_shift400 y q m k : 400 = m * k -> (y + 400 * q) mod k = y mod k.
Proof. intros E. rewrite E. replace (y + m * k * q) with (y + (m * q) * k) by ring. apply Z_mod_plus_full. Qed.

Lemma div_shift400 y q m k : k <> 0 -> 400 = m * k -> (y + 400 * q) / k = y / k + m * q.
Proof. intros Hk E. rewrite E. replace (y + m * k * q) with (y + (m * q) * k) by ring. now apply Z_div_plus_full. Qed.

Lemma is_leap_shift y q : is_leap (y + 400 * q) = is_leap y.
Proof.
  unfold is_leap.
  rewrite (mod_shift400 y q 100 4), (mod_shift400 y q 4 100), (mod_shift400 y q 1 400) by reflexivity.
  reflexivity.
Qed.

Lemma days_before_year_shift y q : days_before_year (y + 400 * q) = days_before_year y + DI400Y * q.
Proof.
  unfold days_before_year, DI400Y. replace (y + 400 * q - 1) with (y - 1 + 400 * q) by ring.
  rewrite (div_shift400 (y - 1) q 100 4), (div_shift400 (y - 1) q 4 100),
    (div_shift400 (y - 1) q 1 400) by lia.
  lia.
Qed.

Lemma ymd2ord_shift y m d q : ymd2ord (y + 400 * q) m d = ymd2ord y m d + DI400Y * q.
Proof.
  unfold ymd2ord, days_before_month. rewrite is_leap_shift, days_before_year_shift. lia.
Qed.

Lemma days_in_month_shift y m q : days_in_month (y + 400 * q) m = days_in_month y m.
Proof. unfold days_in_month. now rewrite is_leap_shift. Qed.

(** What [_ord2ymd] promises for the day [n] of the first cycle: a valid
    date of years 1 to 400, the last year only for the last 366 days, whose
    ordinal is [n + 1]. *)
Definition cycle_ok (n : Z) : bool :=
  let '(y, m, d) := ord2ymd_cycle 0 n in
  (1 <=? y) && (y <=? 400) && ((y <=? 399) || (DI400Y - 366 <=? n)) &&
  (1 <=? m) && (m <=? 12) && (1 <=? d) && (d <=? days_in_month y m) &&
  (ymd2ord y m d =? n + 1).

Lemma cycle_ok_all : z_all cycle_ok 0 (Z.to_nat DI400Y) = true.
Proof. vm_compute. reflexivity. Qed.

Lemma cycle_ok_spec n : 0 <= n < DI400Y -> cycle_ok n = true.
Proof.
  intros Hn. apply (z_all_spec cycle_ok (Z.to_nat DI400Y) 0 cycle_ok_all).
  rewrite Z2Nat.id by (unfold DI400Y; lia). lia.
Qed.

(** [_ord2ymd] yields a valid date, of a year within [MINYEAR, MAXYEAR]
    for the ordinals [date] accepts, whose [_ymd2ord] is the ordinal. *)
Theorem ord2ymd_valid n : 1 <= n ->
  let '(y, m, d) := ord2ymd n in
  ymd2ord y m d = n /\ MINYEAR <= y /\ 1 <= m <= 12 /\ 1 <= d <= days_in_month y m /\
  (n <= MAXORDINAL -> y <= MAXYEAR).
Proof.
  intros Hn. unfold ord2ymd. cbv zeta. rewrite ord2ymd_cycle_shift.
  assert (Hr : 0 <= (n - 1) mod DI400Y < DI400Y) by (apply Z.mod_pos_bound; unfold DI400Y; lia).
  assert (Hq : 0 <= (n - 1) / DI400Y) by (apply Z.div_pos; unfold DI400Y; lia).
  assert (Hnqr := Z.div_mod (n - 1) DI400Y ltac:(unfold DI400Y; lia)).
  pose proof (cycle_ok_spec _ Hr) as Hc. unfold cycle_ok in Hc.
  destruct (ord2ymd_cycle 0 ((n - 1) mod DI400Y)) as [[y m] d].
  rewrite ymd2ord_shift, days_in_month_shift.
  zbool; unfold MINYEAR, MAXYEAR, MAXORDINAL, DI400Y in *; repeat split; lia.
Qed.

Lemma days_in_month_le y m : days_in_month y m <= 31.
Proof.
  unfold days_in_month, zlist_at. destruct (_ && _); [lia|].
  apply (nth_Forall (fun x => x <= 31)); [repeat constructor; discriminate|lia].
Qed.

(** ** Reading the date back *)

Lemma list_ascii_of_string_append s t :
  list_ascii_of_string (s ++ t) = (list_ascii_of_string s ++ list_ascii_of_string t)%list.
Proof. induction s as [|c s IH]; simpl; [reflexivity|now rewrite IH]. Qed.

Lemma digits_rev_length w z : List.length (digits_rev w z) = w.
Proof. revert z. induction w as [|w IH]; intros z; simpl; [reflexivity|now rewrite IH]. Qed.

(** [pad_num w z] spells the last [w] digits of [z]. *)
Lemma pad_num_value w z :
  digits_value 0 (list_ascii_of_string (pad_num w z)) = z mod 10 ^ Z.of_nat w.
Proof.
  unfold pad_num. rewrite list_ascii_of_string_of_list_ascii.
  revert z. induction w as [|w IH]; intros z; [simpl; now rewrite Z.mod_1_r|].
  cbn [digits_rev rev]. unfold digits_value in *. rewrite fold_left_app, IH. cbn [fold_left].
  destruct (digit_char_props (z mod 10) ltac:(pose proof (Z.mod_pos_bound z 10); lia)) as (-> & _).
  rewrite Nat2Z.inj_succ, Z.pow_succ_r, Z.rem_mul_r by (try apply Z.pow_pos_nonneg; lia).
  lia.
Qed.

Lemma pad_num_length w z : List.length (list_ascii_of_string (pad_num w z)) = w.
Proof. unfold pad_num. now rewrite list_ascii_of_string_of_list_ascii, length_rev, digits_rev_length. Qed.

(** Reading a [%Y-%m-%d] date: the numbers spelt by characters 0-3, 5-6
    and 8-9. *)
Definition read_date (s : string) : Z * Z * Z :=
  let l := list_ascii_of_string s in
  (digits_value 0 (firstn 4 l), digits_value 0 (firstn 2 (skipn 5 l)),
   digits_value 0 (firstn 2 (skipn 8 l))).

Lemma read_fields (l4 l2 l2' r : list ascii) :
  List.length l4 = 4%nat -> List.length l2 = 2%nat -> List.length l2' = 2%nat ->
  let l := (l4 ++ "-"%char :: l2 ++ "-"%char :: l2' ++ r)%list in
  firstn 4 l = l4 /\ firstn 2 (skipn 5 l) = l2 /\ firstn 2 (skipn 8 l) = l2'.
Proof.
  intros H4 H2 H2'.
  destruct l4 as [|? [|? [|? [|? [|]]]]]; try discriminate H4.
  destruct l2 as [|? [|? [|]]]; try discriminate H2.
  destruct l2' as [|? [|? [|]]]; try discriminate H2'.
  repeat split.
Qed.

(** [strftime] followed by [read_date] gives the date back, modulo the
    widths of its fields. *)
Lemma read_date_strftime o :
  read_date (strftime_date o)
  = let '(y, m, d) := ord2ymd o in (y mod 10000, m mod 100, d mod 100).
Proof.
  unfold read_date, strftime_date. destruct (ord2ymd o) as [[y m] d].
  rewrite !list_ascii_of_string_append. change (list_ascii_of_string "-") with ["-"%char].
  cbn [app].
  destruct (read_fields _ _ _ (list_ascii_of_string "T00:00:00")
              (pad_num_length 4 y) (pad_num_length 2 m) (pad_num_length 2 d))
    as (-> & -> & ->).
  now rewrite !pad_num_value.
Qed.

(** Two ordinals [date] accepts with the same [strftime] text are the
    same day: the format loses no information within years 1-9999. *)
Theorem strftime_date_inj o1 o2 :
  1 <= o1 <= MAXORDINAL -> 1 <= o2 <= MAXORDINAL ->
  strftime_date o1 = strftime_date o2 -> o1 = o2.
Proof.
  intros H1 H2 E. apply (f_equal read_date) in E. rewrite !read_date_strftime in E.
  pose proof (ord2ymd_valid o1 ltac:(lia)) as V1. pose proof (ord2ymd_valid o2 ltac:(lia)) as V2.
  destruct (ord2ymd o1) as [[y1 m1] d1], (ord2ymd o2) as [[y2 m2] d2].
  destruct V1 as (<- & Hy1 & Hm1 & Hd1 & Hx1), V2 as (<- & Hy2 & Hm2 & Hd2 & Hx2).
  specialize (Hx1 ltac:(lia)). specialize (Hx2 ltac:(lia)).
  pose proof (days_in_month_le y1 m1). pose proof (days_in_month_le y2 m2).
  unfold MINYEAR, MAXYEAR in *. rewrite !Z.mod_small in E by lia.
  injection E as -> -> ->. reflexivity.
Qed.

Lemma add_days_ok o k o' : add_days o k = Ok o' -> o' = o + k /\ 1 <= o' <= MAXORDINAL.
Proof. unfold add_days. case_if; intros H; inversion H; subst. zbool. lia. Qed.

Lemma add_days_in_range o k : 1 <= o + k <= MAXORDINAL -> add_days o k = Ok (o + k).
Proof.
  intros H. unfold add_days.
  destruct (Z.leb_spec 1 (o + k)), (Z.leb_spec (o + k) MAXORDINAL); try lia; reflexivity.
Qed.

(** [weekday] advances by one per day, modulo 7. *)
Lemma weekday_add o k : weekday (o + k) = (weekday o + k) mod 7.
Proof. unfold weekday. rewrite Z.add_mod_idemp_l by lia. f_equal. ring. Qed.

(** ** Names of the weekdays *)

(** [date.strftime("%A")] in the C locale: [weekday()] 0 is Monday. *)
Definition weekday_name (o : Z) : string :=
  nth (Z.to_nat (weekday o))
      ["Monday"; "Tuesday"; "Wednesday"; "Thursday"; "Friday"; "Saturday"; "Sunday"]%string
      ""%string.

Lemma weekday_name_index o :
  (weekday_name o = "Thursday"%string -> weekday o = 3) /\
  (weekday_name o = "Friday"%string -> weekday o = 4).
Proof.
  assert (E : exists k, (k < 7)%nat /\ weekday o = Z.of_nat k).
  { exists (Z.to_nat (weekday o)). pose proof (Z.mod_pos_bound (o + 6) 7 ltac:(lia)).
    unfold weekday. split; lia. }
  destruct E as (k & Hk & Ew). unfold weekday_name. rewrite Ew, Nat2Z.id.
  do 7 (destruct k as [|k]; [simpl; split; intros E; (reflexivity || discriminate E)|]). lia.
Qed.

(** ** From dates to ordinals and back *)

Lemma ord2ymd_shift n q :
  ord2ymd (n + DI400Y * q) = let '(y, m, d) := ord2ymd n in (y + 400 * q, m, d).
Proof.
  unfold ord2ymd. replace (n + DI400Y * q - 1) with (n - 1 + q * DI400Y) by ring.
  rewrite Z_div_plus_full, Z_mod_plus_full by (unfold DI400Y; lia).
  rewrite (ord2ymd_cycle_shift ((n - 1) / DI400Y + q)), (ord2ymd_cycle_shift ((n - 1) / DI400Y)).
  destruct (ord2ymd_cycle 0 _) as [[y m] d]. f_equal. f_equal. ring.
Qed.

(** Every valid date of the year [y] comes back from its ordinal. *)
Definition year_ok (y : Z) : bool :=
  z_all (fun m =>
    z_all (fun d => let '(y', m', d') := ord2ymd (ymd2ord y m d) in
                    (y' =? y) && (m' =? m) && (d' =? d))
          1 (Z.to_nat (days_in_month y m))) 1 12.

Lemma year_ok_cycle : z_all year_ok 1 400 = true.
Proof. vm_compute. reflexivity. Qed.

Lemma year_ok_spec y m d :
  1 <= y <= 400 -> 1 <= m <= 12 -> 1 <= d <= days_in_month y m ->
  ord2ymd (ymd2ord y m d) = (y, m, d).
Proof.
  intros Hy Hm Hd.
  pose proof (z_all_spec year_ok 400 1 year_ok_cycle y ltac:(lia)) as Hc.
  pose proof (z_all_spec _ 12 1 Hc m ltac:(lia)) as Hc'. cbv beta in Hc'.
  pose proof (z_all_spec _ _ 1 Hc' d ltac:(rewrite Z2Nat.id; lia)) as Hc''. cbv beta in Hc''.
  destruct (ord2ymd (ymd2ord y m d)) as [[y' m'] d']. zbool. congruence.
Qed.

(** [_ord2ymd] inverts [_ymd2ord] on every valid date. *)
Theorem ord2ymd_ymd2ord y m d :
  1 <= y -> 1 <= m <= 12 -> 1 <= d <= days_in_month y m ->
  ord2ymd (ymd2ord y m d) = (y, m, d).
Proof.
  intros Hy Hm Hd.
  set (q := (y - 1) / 400). set (y0 := (y - 1) mod 400 + 1).
  assert (Ey : y = y0 + 400 * q) by (subst q y0; pose proof (Z.div_mod (y - 1) 400); lia).
  assert (Hy0 : 1 <= y0 <= 400) by (subst y0; pose proof (Z.mod_pos_bound (y - 1) 400); lia).
  clearbody q y0. subst y. rewrite days_in_month_shift in Hd.
  rewrite ymd2ord_shift, ord2ymd_shift, year_ok_spec by assumption. reflexivity.
Qed.

(** ** The next day *)

(** The calendar date after [(y, m, d)]. *)
Definition next_date (y m d : Z) : Z * Z * Z :=
  if d <? days_in_month y m then (y, m, d + 1)
  else if m <? 12 then (y, m + 1, 1)
  else (y + 1, 1, 1).

Lemma month_cases m : 1 <= m <= 12 ->
  m = 1 \/ m = 2 \/ m = 3 \/ m = 4 \/ m = 5 \/ m = 6 \/ m = 7 \/ m = 8 \/ m = 9 \/ m = 10 \/ m = 11 \/ m = 12.
Proof. lia. Qed.

(** The month table: a month starts when the one before it ends, and has
    at least 28 days. *)
Lemma days_before_month_succ y m :
  1 <= m <= 11 -> days_before_month y (m + 1) = days_before_month y m + days_in_month y m.
Proof.
  intros Hm. destruct (month_cases m ltac:(lia)) as [E|E]; [|repeat destruct E as [E|E]];
    subst; try lia; unfold days_before_month, days_in_month; destruct (is_leap y); reflexivity.
Qed.

Lemma days_in_month_ge y m : 1 <= m <= 12 -> 28 <= days_in_month y m.
Proof.
  intros Hm. destruct (month_cases m Hm) as [E|E]; [|repeat destruct E as [E|E]];
    subst; unfold days_in_month; destruct (is_leap y); cbv; discriminate.
Qed.

(** A year has 365 days, 366 if it is a leap year, checked on one cycle
    and carried to every year by the shift lemmas. *)
Definition year_length_ok (y : Z) : bool :=
  days_before_year (y + 1)
  =? days_before_year y + days_before_month y 12 + days_in_month y 12.

Lemma year_length_ok_cycle : z_all year_length_ok 1 400 = true.
Proof. vm_compute. reflexivity. Qed.

Lemma days_before_year_succ y :
  1 <= y -> days_before_year (y + 1) = days_before_year y + days_before_month y 12 + days_in_month y 12.
Proof.
  intros Hy.
  set (q := (y - 1) / 400). set (y0 := (y - 1) mod 400 + 1).
  assert (Ey : y = y0 + 400 * q) by (subst q y0; pose proof (Z.div_mod (y - 1) 400); lia).
  assert (Hy0 : 1 <= y0 <= 400) by (subst y0; pose proof (Z.mod_pos_bound (y - 1) 400); lia).
  clearbody q y0. subst y.
  pose proof (z_all_spec year_length_ok 400 1 year_length_ok_cycle y0 ltac:(lia)) as Hc.
  unfold year_length_ok in Hc. zbool.
  replace (y0 + 400 * q + 1) with (y0 + 1 + 400 * q) by ring.
  unfold days_before_month, days_in_month in *. rewrite !days_before_year_shift, !is_leap_shift.
  lia.
Qed.

Lemma ymd2ord_next y m d :
  1 <= y -> 1 <= m <= 12 -> 1 <= d <= days_in_month y m ->
  let '(y', m', d') := next_date y m d in
  ymd2ord y' m' d' = ymd2ord y m d + 1 /\ 1 <= y' /\ 1 <= m' <= 12 /\ 1 <= d' <= days_in_month y' m'.
Proof.
  intros Hy Hm Hd. unfold next_date, ymd2ord.
  destruct (Z.ltb_spec d (days_in_month y m)); [repeat split; lia|].
  destruct (Z.ltb_spec m 12).
  - pose proof (days_before_month_succ y m ltac:(lia)).
    pose proof (days_in_month_ge y (m + 1) ltac:(lia)). repeat split; lia.
  - assert (m = 12) by lia. subst m.
    pose proof (days_before_year_succ y Hy). pose proof (days_in_month_ge (y + 1) 1 ltac:(lia)).
    replace (days_before_month (y + 1) 1) with 0 by (unfold days_before_month; now destruct (is_leap (y + 1))).
    repeat split; lia.
Qed.

(** [date + timedelta(days=1)] is the next calendar date: the window of
    [main] walks the calendar one date at a time, through month and year
    ends and February 29. *)
Theorem add_days_one_next o :
  1 <= o < MAXORDINAL ->
  add_days o 1 = Ok (o + 1) /\
  ord2ymd (o + 1) = (let '(y, m, d) := ord2ymd o in next_date y m d).
Proof.
  intros Ho. split; [apply add_days_in_range; lia|].
  pose proof (ord2ymd_valid o ltac:(lia)) as V. destruct (ord2ymd o) as [[y m] d].
  destruct V as (<- & Hy & Hm & Hd & _). unfold MINYEAR in Hy.
  pose proof (ymd2ord_next y m d Hy Hm Hd) as N. destruct (next_date y m d) as [[y' m'] d'].
  destruct N as (<- & Hy' & Hm' & Hd'). now apply ord2ymd_ymd2ord.
Qed.

(** ** The range of [date] *)

Lemma month_bounds y m : 1 <= m <= 12 ->
  0 <= days_before_month y m /\
  days_before_month y m + days_in_month y m <= days_before_month y 12 + days_in_month y 12.
Proof.
  intros Hm. destruct (month_cases m Hm) as [E|E]; [|repeat destruct E as [E|E]];
    subst; unfold days_before_month, days_in_month; destruct (is_leap y); split; cbv; discriminate.
Qed.

Lemma days_before_year_mono y y' : 1 <= y <= y' -> days_before_year y <= days_before_year y'.
Proof.
  intros Hy. assert (E : y' = y + Z.of_nat (Z.to_nat (y' - y))) by lia. rewrite E. clear E.
  induction (Z.to_nat (y' - y)) as [|k IH]; [cbn [Z.of_nat]; rewrite Z.add_0_r; lia|].
  rewrite Nat2Z.inj_succ, <- Z.add_1_r, Z.add_assoc, days_before_year_succ by lia.
  pose proof (days_in_month_ge (y + Z.of_nat k) 12 ltac:(lia)).
  pose proof (month_bounds (y + Z.of_nat k) 12 ltac:(lia)). lia.
Qed.

(** [_ord2ymd] and [_ymd2ord] are inverse bijections between the ordinals
    [1 .. MAXORDINAL] and the valid dates of the years [MINYEAR ..
    MAXYEAR]. *)
Theorem calendar_bijection :
  (forall o, 1 <= o <= MAXORDINAL ->
     let '(y, m, d) := ord2ymd o in
     MINYEAR <= y <= MAXYEAR /\ 1 <= m <= 12 /\ 1 <= d <= days_in_month y m /\ ymd2ord y m d = o) /\
  (forall y m d, MINYEAR <= y <= MAXYEAR -> 1 <= m <= 12 -> 1 <= d <= days_in_month y m ->
     1 <= ymd2ord y m d <= MAXORDINAL /\ ord2ymd (ymd2ord y m d) = (y, m, d)).
Proof.
  split.
  - intros o Ho. pose proof (ord2ymd_valid o ltac:(lia)) as V. destruct (ord2ymd o) as [[y m] d].
    destruct V as (E & Hy & Hm & Hd & Hx). specialize (Hx ltac:(lia)). repeat split; lia.
  - intros y m d Hy Hm Hd. unfold MINYEAR, MAXYEAR in Hy. split; [|apply ord2ymd_ymd2ord; lia].
    pose proof (days_before_year_mono 1 y ltac:(lia)).
    pose proof (days_before_year_mono (y + 1) 10000 ltac:(lia)).
    pose proof (days_before_year_succ y ltac:(lia)). pose proof (month_bounds y m Hm).
    change (days_before_year 1) with 0 in *. change (days_before_year 10000) with MAXORDINAL in *.
    unfold ymd2ord. lia.
Qed.

(** 2026-12-31 is followed by 2027-01-01. *)
Lemma add_days_one_next_witness :
  ord2ymd 739981 = (2026, 12, 31) /\ add_days 739981 1 = Ok 739982 /\
  ord2ymd 739982 = (let '(y, m, d) := ord2ymd 739981 in next_date y m d).
Proof.
  split; [vm_compute; reflexivity|].
  apply add_days_one_next. unfold MAXORDINAL. lia.
Defined.

(** ** The closed form of the day count *)

(** The length of a year. *)
Definition year_length (y : Z) : Z := if is_leap y then 366 else 365.

(** The reference definition: the days of the years [1 .. n], added one
    year at a time. *)
Fixpoint days_of_years (n : nat) : Z :=
  match n with
  | O => 0
  | S k => days_of_years k + year_length (Z.of_nat (S k))
  end.

Lemma year_length_months y : days_before_month y 12 + days_in_month y 12 = year_length y.
Proof. unfold days_before_month, days_in_month, year_length. destruct (is_leap y); reflexivity. Qed.

(** CPython's closed form [_days_before_year(y) = (y-1)*365 +
    (y-1)//4 - (y-1)//100 + (y-1)//400] is the number of days of the
    years before [y], counted year by year with the leap-year rule. *)
Theorem days_before_year_equiv y : 1 <= y -> days_before_year y = days_of_years (Z.to_nat (y - 1)).
Proof.
  intros Hy. replace y with (Z.of_nat (Z.to_nat (y - 1)) + 1) at 1 by lia.
  induction (Z.to_nat (y - 1)) as [|n IH]; [reflexivity|].
  rewrite Nat2Z.inj_succ, <- Z.add_1_r, days_before_year_succ, <- Z.add_assoc, year_length_months, IH
    by lia.
  cbn [days_of_years]. now rewrite Nat2Z.inj_succ, <- Z.add_1_r.
Qed.

Lemma days_before_year_equiv_witness : days_before_year 2026 = days_of_years 2025.
Proof. apply (days_before_year_equiv 2026). lia. Defined.

