(* ===== verification/EventLoop.v ===== *)
(** * The asyncio event loop as [main] drives it

    [asyncio.create_task] (reserve.py 82) only appends the coroutine's
    first step to the loop's ready queue; the coroutines start once [main]
    gives control back, at [await asyncio.gather( *reserves)] (87), or
    when [main] ends with an exception (its done-callback is queued after
    the tasks, so they still run).  A coroutine with no [await] in its body
    runs to its end in one step.  The interface [CoroRunner] is what the
    loop needs from the code that runs a coroutine: a step function that
    leaves the ready queue alone.  [loop_step] is the loop as a transition
    relation, [run_loop] as a function, [asyncio_run] is [asyncio.run(main)]. *)

From Stdlib Require Import ZArith List Lia Relations RelationClasses.
From Stdlib Require String.
From S2P Require Import Prelude Json Runtime.
Import ListNotations.
Open Scope st_scope.

(** What the loop needs from the tasks it runs. *)
Class CoroRunner := {
  run_task : coro -> PyM unit;
  run_task_ready : forall c w, w_ready (snd (run_task c w)) = w_ready w
}.

Definition set_ready (q : list coro) (w : world) : world :=
  {| w_out := w_out w; w_in := w_in w; w_http := w_http w;
     w_clock := w_clock w; w_ready := q |}.

(** The loop: still running with the results of the tasks finished so
    far, in order, or stopped by a [BaseException] that is not an
    [Exception] (such as [SystemExit]), which asyncio re-raises at once. *)
Inductive lstate :=
| Running (w : world) (results : list (pyres unit))
| Crashed (e : exn) (w : world).

Section Loop.
Context `{CoroRunner}.

Inductive loop_step : lstate -> lstate -> Prop :=
| step_task w results c q r w' :
    w_ready w = c :: q ->
    run_task c (set_ready q w) = (r, w') ->
    (forall e, r = Exc e -> is_base_only e = false) ->
    loop_step (Running w results) (Running w' (results ++ [r]))
| step_crash w results c q e w' :
    w_ready w = c :: q ->
    run_task c (set_ready q w) = (Exc e, w') ->
    is_base_only e = true ->
    loop_step (Running w results) (Crashed e w').

Fixpoint run_loop (fuel : nat) (s : lstate) : lstate :=
  match fuel, s with
  | S fuel', Running w results =>
      match w_ready w with
      | [] => s
      | c :: q =>
          match run_task c (set_ready q w) with
          | (Exc e, w') =>
              if is_base_only e then Crashed e w'
              else run_loop fuel' (Running w' (results ++ [Exc e]))
          | (Ok u, w') => run_loop fuel' (Running w' (results ++ [Ok u]))
          end
      end
  | _, _ => s
  end.

(** Run every queued task: one step per task. *)
Definition drain (w : world) : lstate :=
  run_loop (List.length (w_ready w)) (Running w []).

(** [await asyncio.gather(...)] without [return_exceptions]: the first
    exception among the tasks, in the order they finish. *)
Fixpoint gather_result (rs : list (pyres unit)) : pyres unit :=
  match rs with
  | [] => Ok tt
  | Exc e :: _ => Exc e
  | Ok _ :: rs' => gather_result rs'
  end.

(** [asyncio.run(main())] for a [main] that runs [prefix] and then awaits
    the gather of every task it created. *)
Definition asyncio_run {A} (prefix : PyM A) (w0 : world) : pyres unit * world :=
  match prefix w0 with
  | (Exc e, w1) =>
      if is_base_only e then (Exc e, w1)
      else match drain w1 with
           | Running w2 _ => (Exc e, w2)
           | Crashed e' w2 => (Exc e', w2)
           end
  | (Ok _, w1) =>
      match drain w1 with
      | Running w2 results => (gather_result results, w2)
      | Crashed e' w2 => (Exc e', w2)
      end
  end.

(** ** The function and the relation agree *)

Definition irred (s : lstate) : Prop := forall s', ~ loop_step s s'.

Lemma loop_step_deterministic s s1 s2 : loop_step s s1 -> loop_step s s2 -> s1 = s2.
Proof.
  intros H1 H2.
  destruct H1 as [w rs c q r w' Eq Er Hnb|w rs c q e w' Eq Er Hb];
    inversion H2 as [w2 rs2 c2 q2 r2 w2' Eq2 Er2 Hnb2|w2 rs2 c2 q2 e2 w2' Eq2 Er2 Hb2]; subst;
    rewrite Eq in Eq2; injection Eq2 as <- <-; rewrite Er in Er2; injection Er2 as Er2 Ew;
    subst; try reflexivity.
  - rewrite (Hnb _ eq_refl) in Hb2. discriminate.
  - rewrite (Hnb2 _ eq_refl) in Hb. discriminate.
Qed.

(** [run_loop] follows the relation. *)
Lemma run_loop_star n s : clos_refl_trans_1n _ loop_step s (run_loop n s).
Proof.
  revert s. induction n as [|n IH]; intros [w results|e w]; simpl; try apply rt1n_refl.
  destruct (w_ready w) as [|c q] eqn:Eq; [apply rt1n_refl|].
  destruct (run_task c (set_ready q w)) as [[u|e] w'] eqn:Er.
  - eapply Relation_Operators.rt1n_trans; [|apply IH]. eapply step_task; eauto. discriminate.
  - destruct (is_base_only e) eqn:Eb.
    + eapply Relation_Operators.rt1n_trans; [eapply step_crash; eauto|apply rt1n_refl].
    + eapply Relation_Operators.rt1n_trans; [|apply IH]. eapply step_task; eauto. congruence.
Qed.

(** Each step of [run_loop] removes one task from the queue, so as many
    steps as queued tasks reach a state with no successor. *)
Lemma run_loop_irred n s :
  match s with Running w _ => (List.length (w_ready w) <= n)%nat | Crashed _ _ => True end ->
  irred (run_loop n s).
Proof.
  revert s. induction n as [|n IH]; intros [w results|e w] Hn; simpl.
  - destruct (w_ready w) eqn:Eq; [|simpl in Hn; lia].
    intros s' Hs. inversion Hs; congruence.
  - intros s' Hs. inversion Hs.
  - destruct (w_ready w) as [|c q] eqn:Eq.
    + intros s' Hs. inversion Hs; congruence.
    + pose proof (run_task_ready c (set_ready q w)) as Hr.
      destruct (run_task c (set_ready q w)) as [[u|e] w'] eqn:Er; simpl in Hr, Hn.
      * apply IH. rewrite Hr. simpl. lia.
      * destruct (is_base_only e); [intros s' Hs; inversion Hs|].
        apply IH. rewrite Hr. simpl. lia.
  - intros s' Hs. inversion Hs.
Qed.

(** [drain] is the one end of the loop relation from the state where
    [main] has given control back: the relation reaches it, it has no
    successor, and every other end the relation can reach is equal to
    it. *)
Theorem drain_refines_loop w :
  clos_refl_trans_1n _ loop_step (Running w []) (drain w) /\ irred (drain w) /\
  (forall s', clos_refl_trans_1n _ loop_step (Running w []) s' -> irred s' -> s' = drain w).
Proof.
  assert (Hstar := run_loop_star (List.length (w_ready w)) (Running w [])).
  assert (Hirr := run_loop_irred (List.length (w_ready w)) (Running w []) (le_n _)).
  unfold drain. split; [exact Hstar|]. split; [exact Hirr|].
  intros s' Hs' Hirr'.
  assert (Hgen : forall s a b, clos_refl_trans_1n _ loop_step s a -> irred a ->
            clos_refl_trans_1n _ loop_step s b -> irred b -> a = b).
  { intros s0 x y Hx. revert y.
    induction Hx as [s0|s0 s1 x Hst Hx IH]; intros y Hix Hy Hiy.
    - destruct Hy as [|s2 y Hst' _]; [reflexivity|exfalso; exact (Hix _ Hst')].
    - destruct Hy as [|s2 y Hst' Hy]; [exfalso; exact (Hiy _ Hst)|].
      rewrite <- (loop_step_deterministic _ _ _ Hst Hst') in Hy. now apply IH. }
  exact (Hgen _ _ _ Hs' Hirr' Hstar Hirr).
Qed.

(** ** Running the queue *)

(** When no task raises an exception that escapes the loop, [drain]
    runs every queued task once, in queue order, and empties the queue;
    an invariant [Inv ran results w] of the tasks already run, their
    results and the state, kept by each task, holds at the end. *)
Section Drain.
Context (no_escape : forall c w e, fst (run_task c w) = Exc e -> is_base_only e = false)
        (Inv : list coro -> list (pyres unit) -> world -> Prop)
        (Inv_step : forall ran results c q w, Inv ran results w -> w_ready w = c :: q ->
           Inv (ran ++ [c]) (results ++ [fst (run_task c (set_ready q w))])
               (snd (run_task c (set_ready q w)))).

Lemma run_loop_spec q : forall ran results w, w_ready w = q -> Inv ran results w ->
  exists w' results', run_loop (List.length q) (Running w results) = Running w' results'
    /\ Inv (ran ++ q) results' w' /\ w_ready w' = [].
Proof.
  induction q as [|c q IH]; intros ran results w Hq HI.
  - exists w, results. rewrite app_nil_r. destruct w; simpl in *; now subst.
  - simpl. rewrite Hq.
    pose proof (run_task_ready c (set_ready q w)) as Hr.
    pose proof (no_escape c (set_ready q w)) as Hne.
    pose proof (Inv_step ran results c q w HI Hq) as HI'.
    destruct (run_task c (set_ready q w)) as [[u|e] w1]; simpl in *.
    + destruct (IH (ran ++ [c]) (results ++ [Ok u]) w1 Hr HI') as (w' & rs & E & HI'' & Hemp).
      exists w', rs. rewrite <- app_assoc in HI''. auto.
    + rewrite (Hne e eq_refl).
      destruct (IH (ran ++ [c]) (results ++ [Exc e]) w1 Hr HI') as (w' & rs & E & HI'' & Hemp).
      exists w', rs. rewrite <- app_assoc in HI''. auto.
Qed.

Lemma drain_spec w : Inv [] [] w ->
  exists w' results, drain w = Running w' results /\ Inv (w_ready w) results w'
                     /\ w_ready w' = [].
Proof. intros HI. now apply (run_loop_spec (w_ready w) [] [] w). Qed.
End Drain.

(** ** Relations every task keeps *)

Definition lstate_world (s : lstate) : world :=
  match s with Running w _ | Crashed _ w => w end.

(** A preorder on states that every task keeps, and that moving the
    ready queue keeps, holds between the start and the end of the loop,
    and of [asyncio.run] when it holds of [main]. *)
Section LoopFrame.
Context (P : world -> world -> Prop) `{PreOrder world P}
        (Hrun : forall c, frame P (run_task c)) (Hset : forall q w, P w (set_ready q w)).

Lemma run_loop_frame fuel : forall s, P (lstate_world s) (lstate_world (run_loop fuel s)).
Proof.
  induction fuel as [|fuel IH]; intros [w results|e w]; simpl; try reflexivity.
  destruct (w_ready w) as [|c q]; [reflexivity|].
  pose proof (Hrun c (set_ready q w)) as Hc.
  destruct (run_task c (set_ready q w)) as [[u|e] w'] eqn:E; simpl in Hc.
  - etransitivity; [apply (Hset q)|]. etransitivity; [exact Hc|]. apply (IH (Running w' _)).
  - etransitivity; [apply (Hset q)|]. etransitivity; [exact Hc|].
    destruct (is_base_only e); [reflexivity|]. apply (IH (Running w' _)).
Qed.

Lemma asyncio_run_frame {A} (prefix : PyM A) : frame P prefix -> frame P (asyncio_run prefix).
Proof.
  intros Hp w. unfold asyncio_run. specialize (Hp w).
  assert (Hd : forall w1, P w1 (lstate_world (drain w1)))
    by (intros w1; exact (run_loop_frame _ (Running w1 []))).
  destruct (prefix w) as [[a|e] w1]; simpl in Hp.
  - specialize (Hd w1). destruct (drain w1); simpl in *; etransitivity; eassumption.
  - destruct (is_base_only e); [exact Hp|].
    specialize (Hd w1). destruct (drain w1); simpl in *; etransitivity; eassumption.
Qed.
End LoopFrame.

(** ** Two loops in lock step

    When every task runs in lock step from states related by [agree Q]
    (the same request log, clock and queue), two agreeing loops take the
    same steps, collect the same results and end in agreeing states; so
    does [asyncio.run] of two prefixes that run in lock step. *)
Section LoopSim.
Context (Q : list String.string -> list String.string -> Prop)
        (Hrun : forall c, sim (agree Q) (agree Q) (run_task c) (run_task c)).

Definition lagree (s1 s2 : lstate) : Prop :=
  match s1, s2 with
  | Running w1 r1, Running w2 r2 => r1 = r2 /\ agree Q w1 w2
  | Crashed e1 w1, Crashed e2 w2 => e1 = e2 /\ agree Q w1 w2
  | _, _ => False
  end.

Lemma agree_set_ready q w1 w2 : agree Q w1 w2 -> agree Q (set_ready q w1) (set_ready q w2).
Proof. unfold agree. cbn. tauto. Qed.

Lemma run_loop_sim fuel : forall s1 s2, lagree s1 s2 -> lagree (run_loop fuel s1) (run_loop fuel s2).
Proof.
  induction fuel as [|fuel IH]; intros [w1 r1|e1 w1] [w2 r2|e2 w2] Hs; cbn in Hs; try tauto;
    simpl; try exact Hs.
  destruct Hs as [<- Hw]. assert (Hq := proj1 (proj2 (proj2 Hw))).
  rewrite <- Hq. destruct (w_ready w1) as [|c q]; [cbn; tauto|].
  destruct (Hrun c _ _ (agree_set_ready q _ _ Hw)) as [Hf Ha].
  destruct (run_task c (set_ready q w1)) as [[u|e] w1'], (run_task c (set_ready q w2)) as [r w2'];
    cbn in Hf, Ha; subst r.
  - apply IH. cbn. auto.
  - destruct (is_base_only e); [cbn; auto|]. apply IH. cbn. auto.
Qed.

Lemma drain_sim w1 w2 : agree Q w1 w2 -> lagree (drain w1) (drain w2).
Proof.
  intros Hw. unfold drain. rewrite <- (proj1 (proj2 (proj2 Hw))). apply run_loop_sim. cbn. auto.
Qed.

Lemma asyncio_run_sim {A} (R : world -> world -> Prop) (m1 m2 : PyM A) :
  sim R (agree Q) m1 m2 -> sim R (agree Q) (asyncio_run m1) (asyncio_run m2).
Proof.
  intros Hm w1 w2 HR. unfold asyncio_run. destruct (Hm w1 w2 HR) as [Hf Ha].
  destruct (m1 w1) as [r w1'], (m2 w2) as [r2 w2']. cbn in Hf, Ha. subst r2.
  pose proof (drain_sim w1' w2' Ha) as Hd.
  destruct r as [x|e]; [|destruct (is_base_only e); [now split|]];
    destruct (drain w1'), (drain w2'); cbn in Hd; try tauto;
    destruct Hd as [<- Hd]; now split.
Qed.
End LoopSim.
End Loop.

(** The exit status of the process: 0 after a normal end and after
    [exit()] ([SystemExit] with no code), 1 after an uncaught exception. *)
Definition exit_status (r : pyres unit) : Z :=
  match r with
  | Ok _ => 0
  | Exc SystemExit => 0
  | Exc _ => 1
  end.
