(* ===== verification/Http.v ===== *)
(** * The three calls to the reservation service

    [get_bearer_token] (reserve.py 8-18), [get_reserves] (21-25) and the
    coroutine [reserve_food] (28-37), each as a [PyM] computation over a
    [server].  The requests are built exactly as the script builds them:
    method, URL, headers and JSON body. *)

From Stdlib Require Import ZArith List String Lia.
From S2P Require Import Prelude Json Runtime EventLoop.
Import ListNotations.
Open Scope string_scope.
Open Scope st_scope.

Section Http.
Context (srv : server).

(** ** Authenticator *)

(** The [data] dict of [get_bearer_token]. *)
Definition login_data (username password : string) : json :=
  JObj [("mobile", JStr username); ("password", JStr password); ("panel", JStr "user")].

Definition login_request (username password : string) : request :=
  {| rq_method := POST;
     rq_url := "https://api.narijeh.com/v1/Login";
     rq_headers := [("content-type", [PLit "application/json"])];
     rq_json := Some (login_data username password) |}.

(** [get_bearer_token(username, password)]: the body is decoded before
    the status is looked at; on 200 the ["token"] field, otherwise the
    ["message"] field is printed and [exit()] raises [SystemExit]. *)
Definition get_bearer_token (username password : string) : PyM json :=
  response <- send srv (login_request username password) ;;
  response_data <- resp_json response ;;
  if (status_code response =? 200)%Z then getitemM response_data (KStr "token")
  else
    msg <- getitemM response_data (KStr "message") ;;
    print [PLit "Failed to get token:"; PLit " "; PVal msg] ;;
    st_raise SystemExit.

(** ** Availability fetcher *)

Definition auth_header (token : json) : string * fstr :=
  ("authorization", [PLit "Bearer "; PVal token]).

Definition get_reserves_request (token : json) (date : string) : request :=
  {| rq_method := GET;
     rq_url := "https://api.narijeh.com/user/reserves?fromDate=" ++ date
               ++ "&toDate=" ++ date;
     rq_headers := [auth_header token];
     rq_json := None |}.

(** [get_reserves(token, date)]: the decoded body, whatever the status. *)
Definition get_reserves (token : json) (date : string) : PyM json :=
  response <- send srv (get_reserves_request token date) ;;
  resp_json response.

(** ** Reservation submitter *)

(** The [data] list of [reserve_food]: one day, one food, quantity 1,
    food type 0. *)
Definition reserve_body (date : string) (food_id : json) : json :=
  JArr [JObj [("datetime", JStr date);
              ("reserves", JArr [JObj [("foodId", food_id); ("qty", JInt 1);
                                        ("foodType", JInt 0)]])]].

Definition put_reserves_request (token : json) (body : json) : request :=
  {| rq_method := PUT;
     rq_url := "https://api.narijeh.com/user/reserves";
     rq_headers := [auth_header token; ("content-type", [PLit "application/json"])];
     rq_json := Some body |}.

(** The body of [async def reserve_food(token, date, food)].  It has no
    [await]: once started it runs to its end (or its exception) without
    giving control back to the event loop.  [food["foodId"]] is read
    before the request is sent; [food["food"]], [response.json()] and
    ["message"] after it, and an exception there skips the sleep. *)
Definition reserve_food (token : json) (date : string) (food : json) : PyM unit :=
  food_id <- getitemM food (KStr "foodId") ;;
  response <- send srv (put_reserves_request token (reserve_body date food_id)) ;;
  (if (status_code response =? 200)%Z then
     name <- getitemM food (KStr "food") ;;
     print [PLit "Successfully reserved "; PVal name; PLit " for "; PLit date; PLit "."]
   else
     body <- resp_json response ;;
     msg <- getitemM body (KStr "message") ;;
     print [PLit "Failed to reserve food: "; PVal msg; PLit ", date: "; PLit date]) ;;
  sleep 10.

(** Running a coroutine object created by [main]. *)
Definition run_coro (c : coro) : PyM unit :=
  match c with
  | ReserveFood token date food => reserve_food token date food
  end.
End Http.

(** ** Footprint of the submitter *)

Lemma reserve_food_keeps_ready srv token date food :
  frame (keeps w_ready) (reserve_food srv token date food).
Proof. unfold reserve_food. frame_solve. Qed.

(** ** Time and the request log *)

Lemma get_bearer_token_clock_log srv username password :
  frame clock_log (get_bearer_token srv username password).
Proof. unfold get_bearer_token. frame_solve. Qed.

Lemma get_reserves_clock_log srv token date : frame clock_log (get_reserves srv token date).
Proof. unfold get_reserves. frame_solve. Qed.

Lemma reserve_food_clock_log srv token date food :
  frame clock_log (reserve_food srv token date food).
Proof. unfold reserve_food. frame_solve. Qed.

#[export] Hint Resolve get_bearer_token_clock_log get_reserves_clock_log : narije.

Lemma set_ready_clock_log q w : clock_log w (set_ready q w).
Proof. split; [reflexivity|]. exists []. rewrite app_nil_r. repeat constructor. Qed.

#[export] Instance reserve_food_runner (srv : server) : CoroRunner := {|
  run_task := run_coro srv;
  run_task_ready := fun c w =>
    match c with
    | ReserveFood token date food => reserve_food_keeps_ready srv token date food w
    end
|}.

(** The login sends exactly its request and leaves the clock and the ready
    queue alone, on every path. *)
Lemma get_bearer_token_effect srv username password w :
  let r := get_bearer_token srv username password w in
  map snd (w_http (snd r)) = (map snd (w_http w) ++ [login_request username password])%list /\
  w_clock (snd r) = w_clock w /\ w_ready (snd r) = w_ready w.
Proof.
  unfold get_bearer_token, send, resp_json, getitemM, lift, print, emit,
    st_bind, st_ret, st_raise.
  repeat (simpl; case_match); simpl; rewrite ?map_app; auto.
Qed.

(** The requests a [reserve_food] task sends: the PUT for its date, unless
    [food["foodId"]] raises first. *)
Definition coro_requests (c : coro) : list request :=
  match c with
  | ReserveFood token date food =>
      match getitem food (KStr "foodId") with
      | Ok food_id => [put_reserves_request token (reserve_body date food_id)]
      | Exc _ => []
      end
  end.

Definition is_ok {A} (r : pyres A) : bool :=
  match r with Ok _ => true | Exc _ => false end.

(** The footprint of a task, on every path: it sends [coro_requests c] at
    the clock reading it starts at, sleeps 10 seconds exactly when it ends
    normally, leaves the ready queue alone, and never raises an exception
    that escapes the event loop. *)
Lemma run_coro_effect srv c w :
  let r := run_coro srv c w in
  w_http (snd r) = (w_http w ++ map (pair (w_clock w)) (coro_requests c))%list /\
  w_clock (snd r) = (w_clock w + if is_ok (fst r) then 10 else 0)%Z /\
  w_ready (snd r) = w_ready w /\
  (forall e, fst r = Exc e -> is_base_only e = false).
Proof.
  destruct c as [token date food].
  unfold run_coro, reserve_food, coro_requests, send, resp_json, getitemM, lift, print,
    emit, sleep, st_bind, st_ret, st_raise.
  repeat (simpl; case_match); simpl;
    repeat split; rewrite ?app_nil_r, ?Z.add_0_r; auto;
    intros ? He; inversion He; subst; eauto with narije.
Qed.

Lemma in_coro_requests token date food req :
  In req (coro_requests (ReserveFood token date food)) ->
  exists food_id, req = put_reserves_request token (reserve_body date food_id).
Proof. simpl. case_match; [intros [<-|[]]; eauto|intros []]. Qed.

(** The date a request reserves for: the ["datetime"] of the first entry
    of the body of a PUT; [None] for the login and the fetches. *)
Definition put_date (r : request) : option string :=
  match rq_method r, rq_json r with
  | PUT, Some (JArr (JObj ((k, JStr d) :: _) :: _)) =>
      if String.eqb k "datetime" then Some d else None
  | _, _ => None
  end.

Definition coro_date (c : coro) : string := match c with ReserveFood _ date _ => date end.

(** A task sends at most one PUT, for its own date. *)
Lemma coro_put_dates c :
  omap put_date (coro_requests c) = [] \/ omap put_date (coro_requests c) = [coro_date c].
Proof. destruct c as [token date food]. simpl. case_match; simpl; auto. Qed.

Section LoginCases.
Context (srv : server) (username password : string) (w : world) (resp : response) (body : json)
  (Hsrv : srv (map snd (w_http w)) (login_request username password) = Some resp)
  (Hbody : resp_body resp = Some body).

Lemma get_bearer_token_accepted token :
  status_code resp = 200%Z -> getitem body (KStr "token") = Ok token ->
  fst (get_bearer_token srv username password w) = Ok token.
Proof.
  intros Hc Ht. unfold get_bearer_token, send, resp_json, getitemM, lift, st_bind.
  rewrite Hsrv. simpl. rewrite Hbody, Hc. simpl. now rewrite Ht.
Qed.

Lemma get_bearer_token_rejected msg :
  status_code resp <> 200%Z -> getitem body (KStr "message") = Ok msg ->
  get_bearer_token srv username password w
  = (Exc SystemExit,
     {| w_out := w_out w ++ [OLine [PLit "Failed to get token:"; PLit " "; PVal msg]];
        w_in := w_in w; w_http := w_http w ++ [(w_clock w, login_request username password)];
        w_clock := w_clock w; w_ready := w_ready w |}).
Proof.
  intros Hc Hm. unfold get_bearer_token, send, resp_json, getitemM, lift, print, emit,
    st_bind, st_ret, st_raise.
  rewrite Hsrv. simpl. rewrite Hbody. apply Z.eqb_neq in Hc. rewrite Hc. simpl.
  now rewrite Hm.
Qed.
End LoginCases.

(** ** Lock step

    The login, the fetch and the submitter read nothing but the request
    log and the clock, so they run in lock step from agreeing states. *)
Section HttpSim.
Context (P : list string -> list string -> Prop) (srv : server).

Lemma get_bearer_token_sim username password :
  sim (agree P) (agree P) (get_bearer_token srv username password)
      (get_bearer_token srv username password).
Proof. unfold get_bearer_token. sim_solve. Qed.

Lemma get_reserves_sim token date :
  sim (agree P) (agree P) (get_reserves srv token date) (get_reserves srv token date).
Proof. unfold get_reserves. sim_solve. Qed.

Lemma run_coro_sim c : sim (agree P) (agree P) (run_coro srv c) (run_coro srv c).
Proof. destruct c. unfold run_coro, reserve_food. sim_solve. Qed.
End HttpSim.
