(* ===== verification/Wire.v ===== *)
(** * What [requests] puts on the wire

    [requests.post(url, headers=headers, json=data)] (reserve.py 12),
    [requests.get(url, headers=headers)] (24) and [requests.put(url,
    headers=headers, json=data)] (32) go through
    [PreparedRequest.prepare]: the headers are checked and stored in a
    case-insensitive dict, the [json=] argument is serialised with
    [json.dumps] and encoded as UTF-8, [Content-Length] is added, and
    [Content-Type: application/json] only when the caller gave no content
    type; [http.client] checks every header value again before sending.
    This file translates [json.dumps] with the defaults [requests] uses
    ([ensure_ascii=True], separators [", "] and [": "], the C encoder's
    escaping), the preparation ([prepare]) and the transmission check
    ([transmit]); it gives a JSON text reader [json_loads] written from
    the JSON grammar, proves that it reads back every value the encoder
    writes, and computes what the script's three requests become on the
    wire. *)

From Stdlib Require Import ZArith List String Ascii Bool Lia.
From S2P Require Import Prelude Json Runtime PyInt Text Http.
Import ListNotations.
Open Scope list_scope.
Open Scope char_scope.

(** ** Induction on nested JSON values *)

Definition json_ind' (P : json -> Prop)
  (fnull : P JNull) (fbool : forall b, P (JBool b)) (fint : forall z, P (JInt z))
  (fstr : forall s, P (JStr s)) (farr : forall l, Forall P l -> P (JArr l))
  (fobj : forall kvs, Forall (fun kv => P (snd kv)) kvs -> P (JObj kvs)) : forall v, P v :=
  fix F (v : json) : P v :=
    match v as v0 return P v0 with
    | JNull => fnull
    | JBool b => fbool b
    | JInt z => fint z
    | JStr s => fstr s
    | JArr l => farr l ((fix G (l : list json) : Forall P l :=
                           match l with
                           | [] => Forall_nil _
                           | x :: r => Forall_cons x (F x) (G r)
                           end) l)
    | JObj kvs => fobj kvs ((fix G (l : list (string * json)) : Forall (fun kv => P (snd kv)) l :=
                               match l with
                               | [] => Forall_nil _
                               | kv :: r => Forall_cons kv (F (snd kv)) (G r)
                               end) kvs)
    end.

(** ** [json.dumps] *)

(** The four hexadecimal digits of a [\uXXXX] escape. *)
Definition hex4 (n : nat) : list ascii :=
  [hex_digit (n / 4096 mod 16); hex_digit (n / 256 mod 16); hex_digit (n / 16 mod 16);
   hex_digit (n mod 16)].

(** [ascii_escape_unichar] of [Modules/_json.c]: the printable ASCII
    characters other than the quote and the backslash are copied, the
    usual control characters get their two-character escape, every other
    character a [\uXXXX] escape. *)
Definition escape_char (c : ascii) : list ascii :=
  let n := nat_of_ascii c in
  if Ascii.eqb c dq then [bs; dq]
  else if Ascii.eqb c bs then [bs; bs]
  else if (32 <=? n)%nat && (n <=? 126)%nat then [c]
  else if (n =? 8)%nat then [bs; "b"]
  else if (n =? 12)%nat then [bs; "f"]
  else if (n =? 10)%nat then [bs; "n"]
  else if (n =? 13)%nat then [bs; "r"]
  else if (n =? 9)%nat then [bs; "t"]
  else bs :: "u" :: hex4 n.

(** [encode_basestring_ascii]: the quoted, escaped string. *)
Definition quote_str (s : string) : list ascii :=
  dq :: flat_map escape_char (list_ascii_of_string s) ++ [dq].

Definition item_sep : list ascii := [","; " "].
Definition key_sep : list ascii := [":"; " "].

(** [json.dumps(v)] with the default arguments [requests] uses. *)
Fixpoint encode_value (v : json) : list ascii :=
  match v with
  | JNull => ["n"; "u"; "l"; "l"]
  | JBool true => ["t"; "r"; "u"; "e"]
  | JBool false => ["f"; "a"; "l"; "s"; "e"]
  | JInt z => list_ascii_of_string (py_str_int z)
  | JStr s => quote_str s
  | JArr l => "[" :: join item_sep (map encode_value l) ++ ["]"]
  | JObj kvs =>
      "{" :: join item_sep (map (fun '(k, x) => quote_str k ++ key_sep ++ encode_value x) kvs)
          ++ ["}"]
  end%char.

(** ** Reading JSON text back

    A reader for the JSON grammar (RFC 8259) restricted to the values of
    [json]: no fractions or exponents, and [\uXXXX] escapes below 256.
    It is the specification side of the round trip, not a model of a
    library function. *)

Definition is_ws (c : ascii) : bool :=
  Ascii.eqb c " " || Ascii.eqb c "009" || Ascii.eqb c "010" || Ascii.eqb c "013".

Fixpoint skip_ws (l : list ascii) : list ascii :=
  match l with
  | c :: r => if is_ws c then skip_ws r else l
  | [] => []
  end.

Definition hex4_value (h1 h2 h3 h4 : ascii) : option nat :=
  match hex_value h1, hex_value h2, hex_value h3, hex_value h4 with
  | Some a, Some b, Some c, Some d => Some (((a * 16 + b) * 16 + c) * 16 + d)%nat
  | _, _, _, _ => None
  end.

(** The character a two-character escape stands for. *)
Definition unescape (e : ascii) : option ascii :=
  if Ascii.eqb e dq then Some dq
  else if Ascii.eqb e bs then Some bs
  else if Ascii.eqb e "/" then Some "/"
  else if Ascii.eqb e "b" then Some "008"
  else if Ascii.eqb e "f" then Some "012"
  else if Ascii.eqb e "n" then Some "010"
  else if Ascii.eqb e "r" then Some "013"
  else if Ascii.eqb e "t" then Some "009"
  else None.

(** The characters of a string after its opening quote, and what follows
    its closing quote. *)
Fixpoint read_str (l : list ascii) : option (list ascii * list ascii) :=
  match l with
  | [] => None
  | c :: r =>
      if Ascii.eqb c dq then Some ([], r)
      else if Ascii.eqb c bs then
        match r with
        | [] => None
        | e :: r' =>
            match unescape e with
            | Some ch => cons_fst ch (read_str r')
            | None =>
                if Ascii.eqb e "u" then
                  match r' with
                  | h1 :: h2 :: h3 :: h4 :: r'' =>
                      match hex4_value h1 h2 h3 h4 with
                      | Some n => if (n <? 256)%nat then cons_fst (ascii_of_nat n) (read_str r'')
                                  else None
                      | None => None
                      end
                  | _ => None
                  end
                else None
            end
        end
      else if (nat_of_ascii c <? 32)%nat then None
      else cons_fst c (read_str r)
  end.

Fixpoint take_digits (l : list ascii) : list ascii * list ascii :=
  match l with
  | c :: r => if is_digit c then let '(ds, rest) := take_digits r in (c :: ds, rest) else ([], l)
  | [] => ([], [])
  end.

(** No fraction or exponent follows the digits. *)
Definition number_end (l : list ascii) : bool :=
  match l with
  | c :: _ => negb (Ascii.eqb c "." || Ascii.eqb c "e" || Ascii.eqb c "E")
  | [] => true
  end.

Definition leading_zero (ds : list ascii) : bool :=
  match ds with
  | c :: _ :: _ => Ascii.eqb c "0"
  | _ => false
  end.

Definition parse_uint (l : list ascii) : option (Z * list ascii) :=
  let '(ds, rest) := take_digits l in
  match ds with
  | [] => None
  | _ => if leading_zero ds || negb (number_end rest) then None
         else Some (digits_value 0 ds, rest)
  end.

Definition parse_int (l : list ascii) : option (json * list ascii) :=
  match l with
  | c :: r =>
      if Ascii.eqb c "-" then
        match parse_uint r with Some (n, rest) => Some (JInt (- n), rest) | None => None end
      else match parse_uint l with Some (n, rest) => Some (JInt n, rest) | None => None end
  | [] => None
  end.

Fixpoint parse_value (fuel : nat) (l : list ascii) : option (json * list ascii) :=
  match fuel with
  | O => None
  | S f =>
      match skip_ws l with
      | [] => None
      | c :: r =>
          if Ascii.eqb c "n" then
            match r with "u" :: "l" :: "l" :: r' => Some (JNull, r') | _ => None end
          else if Ascii.eqb c "t" then
            match r with "r" :: "u" :: "e" :: r' => Some (JBool true, r') | _ => None end
          else if Ascii.eqb c "f" then
            match r with "a" :: "l" :: "s" :: "e" :: r' => Some (JBool false, r') | _ => None end
          else if Ascii.eqb c dq then
            match read_str r with
            | Some (s, r') => Some (JStr (string_of_list_ascii s), r')
            | None => None
            end
          else if Ascii.eqb c "[" then
            match skip_ws r with
            | c' :: r' => if Ascii.eqb c' "]" then Some (JArr [], r')
                          else parse_items f (c' :: r') []
            | [] => None
            end
          else if Ascii.eqb c "{" then
            match skip_ws r with
            | c' :: r' => if Ascii.eqb c' "}" then Some (JObj [], r')
                          else parse_members f (c' :: r') []
            | [] => None
            end
          else parse_int (c :: r)
      end
  end
with parse_items (fuel : nat) (l : list ascii) (acc : list json) : option (json * list ascii) :=
  match fuel with
  | O => None
  | S f =>
      match parse_value f l with
      | Some (v, r) =>
          match skip_ws r with
          | c :: r' =>
              if Ascii.eqb c "," then parse_items f r' (acc ++ [v])
              else if Ascii.eqb c "]" then Some (JArr (acc ++ [v]), r')
              else None
          | [] => None
          end
      | None => None
      end
  end
with parse_members (fuel : nat) (l : list ascii) (acc : list (string * json))
  : option (json * list ascii) :=
  match fuel with
  | O => None
  | S f =>
      match skip_ws l with
      | c :: r =>
          if Ascii.eqb c dq then
            match read_str r with
            | Some (k, r1) =>
                match skip_ws r1 with
                | c1 :: r2 =>
                    if Ascii.eqb c1 ":" then
                      match parse_value f r2 with
                      | Some (v, r3) =>
                          let acc' := acc ++ [(string_of_list_ascii k, v)] in
                          match skip_ws r3 with
                          | c3 :: r4 =>
                              if Ascii.eqb c3 "," then parse_members f r4 acc'
                              else if Ascii.eqb c3 "}" then Some (JObj acc', r4)
                              else None
                          | [] => None
                          end
                      | None => None
                      end
                    else None
                | [] => None
                end
            | None => None
            end
          else None
      | [] => None
      end
  end.

(** [json.loads] on a text of the script's values: one value, then only
    whitespace. *)
Definition json_loads (l : list ascii) : option json :=
  match parse_value (S (List.length l)) l with
  | Some (v, r) => match skip_ws r with [] => Some v | _ => None end
  | None => None
  end.

Close Scope char_scope.
Open Scope Z_scope.

(** ** The round trip *)

(** The size of a value bounds the reader's fuel. *)
Fixpoint json_size (v : json) : nat :=
  match v with
  | JArr l => S (List.length l + list_sum (map json_size l))
  | JObj kvs => S (List.length kvs + list_sum (map (fun kv => json_size (snd kv)) kvs))
  | _ => 1
  end.

(** What may follow a number: not a digit, not a fraction or exponent. *)
Definition rest_ok (r : list ascii) : bool :=
  number_end r && match r with c :: _ => negb (is_digit c) | [] => true end.

(** *** Strings *)

(** Reading an escaped character gives the character back. *)
Lemma read_str_escape c r : read_str (escape_char c ++ r) = cons_fst c (read_str r).
Proof. destruct c as [[] [] [] [] [] [] [] []]; reflexivity. Qed.

Lemma read_str_escaped l r :
  read_str (flat_map escape_char l ++ dq :: r) = Some (l, r).
Proof.
  induction l as [|c l IH]; [reflexivity|].
  cbn [flat_map]. now rewrite <- app_assoc, read_str_escape, IH.
Qed.

Lemma read_str_quote s r :
  read_str (flat_map escape_char (list_ascii_of_string s) ++ dq :: r)
  = Some (list_ascii_of_string s, r).
Proof. apply read_str_escaped. Qed.

(** *** Numbers *)

Lemma digit_not x c : is_digit c = true -> is_digit x = false -> Ascii.eqb c x = false.
Proof. intros Hc Hx. destruct (Ascii.eqb_spec c x); congruence. Qed.

Lemma digit_not_ws c : is_digit c = true -> is_ws c = false.
Proof. intros Hc. unfold is_ws. now rewrite !(digit_not _ _ Hc) by reflexivity. Qed.

Lemma take_digits_run l r :
  Forall (fun c => is_digit c = true) l -> rest_ok r = true -> take_digits (l ++ r) = (l, r).
Proof.
  intros Hl Hr. induction Hl as [|c l Hc _ IH].
  - destruct r as [|c r]; [reflexivity|]. apply andb_true_iff in Hr as [_ Hr].
    simpl. now destruct (is_digit c).
  - simpl. now rewrite Hc, IH.
Qed.

Lemma digit_char_nonzero d : 1 <= d <= 9 -> Ascii.eqb (digit_char d) "0"%char = false.
Proof.
  intros Hd. unfold digit_char. destruct (Ascii.eqb_spec (ascii_of_nat (48 + Z.to_nat d)) "0"%char);
    [|reflexivity].
  apply (f_equal nat_of_ascii) in e. rewrite Ascii.nat_ascii_embedding in e by lia.
  change (nat_of_ascii "0"%char) with 48%nat in e. lia.
Qed.

(** The numeral of a positive number does not start with [0]. *)
Lemma dec_digits_lead fuel n :
  1 <= n -> (Z.to_nat n < fuel)%nat ->
  exists c l, dec_digits fuel n = c :: l /\ Ascii.eqb c "0"%char = false.
Proof.
  revert n. induction fuel as [|f IH]; intros m Hm Hf; [lia|]. simpl.
  destruct (m <? 10) eqn:E.
  - apply Z.ltb_lt in E. exists (digit_char m), []. split; [reflexivity|].
    apply digit_char_nonzero. lia.
  - apply Z.ltb_ge in E.
    destruct (IH (m / 10)) as (c & l & -> & Hc).
    + apply Z.div_le_lower_bound; lia.
    + assert (m / 10 < m) by (apply Z.div_lt; lia). lia.
    + now exists c, (l ++ [digit_char (m mod 10)]).
Qed.

Lemma parse_uint_dec_digits fuel n r :
  0 <= n -> (Z.to_nat n < fuel)%nat -> rest_ok r = true ->
  parse_uint (dec_digits fuel n ++ r) = Some (n, r).
Proof.
  intros Hn Hf Hr. unfold parse_uint.
  destruct (dec_digits_shape fuel n Hn Hf) as (c & l & Hd & Hc & Hl & _).
  pose proof (dec_digits_value fuel n Hn Hf) as Hv.
  rewrite take_digits_run by (try rewrite Hd; auto). rewrite Hd in *.
  assert (Hz : leading_zero (c :: l) = false).
  { destruct l as [|c' l]; [reflexivity|]. unfold leading_zero.
    destruct (Z.eq_dec n 0) as [->|Hn0].
    - destruct fuel; [lia|]. simpl in Hd. discriminate.
    - destruct (dec_digits_lead fuel n ltac:(lia) Hf) as (c0 & l0 & Hd' & H0).
      rewrite Hd in Hd'. injection Hd' as E _. now subst. }
  apply andb_true_iff in Hr as [Hr _]. now rewrite Hz, Hr, Hv.
Qed.

(** *** The reader on the encoder's text *)

Lemma parse_value_space f l : parse_value f (" "%char :: l) = parse_value f l.
Proof. destruct f; reflexivity. Qed.

Lemma parse_items_space f l acc : parse_items f (" "%char :: l) acc = parse_items f l acc.
Proof. destruct f; [reflexivity|]. cbn [parse_items]. now rewrite parse_value_space. Qed.

Lemma parse_members_space f l acc :
  parse_members f (" "%char :: l) acc = parse_members f l acc.
Proof. destruct f; reflexivity. Qed.

Lemma skip_ws_nonws c t : is_ws c = false -> skip_ws (c :: t) = c :: t.
Proof. intros H. simpl. now rewrite H. Qed.

Lemma quote_str_app s t :
  quote_str s ++ t = dq :: flat_map escape_char (list_ascii_of_string s) ++ dq :: t.
Proof. unfold quote_str. now rewrite <- app_comm_cons, <- app_assoc. Qed.

Lemma encode_value_int z :
  encode_value (JInt z)
  = (if z <? 0 then ["-"%char] else []) ++ dec_digits (S (Z.to_nat (Z.abs z))) (Z.abs z).
Proof. simpl. unfold py_str_int. now rewrite list_ascii_of_string_of_list_ascii. Qed.

(** The encoder's text starts with a character that is not whitespace
    and does not close a list or an object. *)
Lemma encode_value_head v :
  exists c t, encode_value v = c :: t /\ is_ws c = false /\
    Ascii.eqb c "]"%char = false /\ Ascii.eqb c "}"%char = false.
Proof.
  destruct v as [|[]|z| | |];
    try (eexists _, _; split; [reflexivity|]; repeat split; reflexivity).
  rewrite encode_value_int. destruct (z <? 0).
  - eexists _, _; split; [reflexivity|]; repeat split; reflexivity.
  - destruct (dec_digits_shape (S (Z.to_nat (Z.abs z))) (Z.abs z) ltac:(lia) ltac:(lia))
      as (c & l & -> & Hc & _).
    exists c, l. split; [reflexivity|].
    split; [now apply digit_not_ws|]. now rewrite !(digit_not _ _ Hc) by reflexivity.
Qed.

Lemma parse_value_int f z r :
  rest_ok r = true -> parse_value (S f) (encode_value (JInt z) ++ r) = Some (JInt z, r).
Proof.
  intros Hr. rewrite encode_value_int. pose proof (Z.abs_nonneg z) as Ha.
  pose proof (parse_uint_dec_digits (S (Z.to_nat (Z.abs z))) (Z.abs z) r Ha ltac:(lia) Hr)
    as Hu.
  destruct (z <? 0) eqn:E.
  - apply Z.ltb_lt in E. remember (dec_digits _ _) as D. simpl.
    rewrite Hu. do 3 f_equal. lia.
  - apply Z.ltb_ge in E.
    destruct (dec_digits_shape (S (Z.to_nat (Z.abs z))) (Z.abs z) Ha ltac:(lia))
      as (c & l & Hd & Hc & _).
    rewrite Hd in *. cbn [app parse_value skip_ws]. rewrite (digit_not_ws c Hc).
    rewrite !(digit_not _ _ Hc) by reflexivity. simpl.
    rewrite (digit_not _ _ Hc) by reflexivity. cbn [app] in Hu. rewrite Hu. do 3 f_equal. lia.
Qed.

Lemma parse_value_str f s r : parse_value (S f) (encode_value (JStr s) ++ r) = Some (JStr s, r).
Proof.
  cbn [encode_value]. rewrite quote_str_app. simpl.
  now rewrite read_str_quote, string_of_list_ascii_of_string.
Qed.

Lemma key_sep_app t : key_sep ++ t = ":"%char :: " "%char :: t.
Proof. reflexivity. Qed.

Lemma item_sep_app t : item_sep ++ t = ","%char :: " "%char :: t.
Proof. reflexivity. Qed.

(** The round trip for the elements, assumed by the nested induction. *)
Definition reads_back (v : json) : Prop :=
  forall f r, (json_size v <= f)%nat -> rest_ok r = true ->
    parse_value f (encode_value v ++ r) = Some (v, r).

Lemma parse_items_dumps l : forall x f acc r,
  Forall reads_back (x :: l) ->
  (List.length (x :: l) + list_sum (map json_size (x :: l)) <= f)%nat ->
  parse_items f (encode_value x ++ flat_map (fun y => item_sep ++ y) (map encode_value l)
                  ++ "]"%char :: r) acc
  = Some (JArr (acc ++ x :: l), r).
Proof.
  induction l as [|y l IH]; intros x f acc r HP Hf; inversion HP as [|? ? Hx HP']; subst;
    destruct f as [|f]; cbn [List.length list_sum fold_right map] in Hf; try lia; cbn [parse_items].
  - cbn [flat_map map app]. rewrite Hx by (auto; lia). reflexivity.
  - cbn [flat_map map]. rewrite <- !app_assoc, item_sep_app.
    rewrite Hx by (auto; lia). cbn -[item_sep].
    rewrite parse_items_space, IH by (auto; cbn [List.length list_sum fold_right map]; lia).
    now rewrite <- app_assoc.
Qed.

(** One member of an object, as [json.dumps] writes it. *)
Definition dump_member (kv : string * json) : list ascii :=
  quote_str (fst kv) ++ key_sep ++ encode_value (snd kv).

Lemma encode_value_obj kvs :
  encode_value (JObj kvs) = "{"%char :: join item_sep (map dump_member kvs) ++ ["}"%char].
Proof. cbn [encode_value]. do 3 f_equal. apply map_ext. now intros [k x]. Qed.

Lemma parse_members_dumps kvs : forall kv f acc r,
  Forall (fun kv => reads_back (snd kv)) (kv :: kvs) ->
  (List.length (kv :: kvs) + list_sum (map (fun kv => json_size (snd kv)) (kv :: kvs)) <= f)%nat ->
  parse_members f (dump_member kv ++ flat_map (fun y => item_sep ++ y) (map dump_member kvs)
                    ++ "}"%char :: r) acc
  = Some (JObj (acc ++ kv :: kvs), r).
Proof.
  induction kvs as [|kv' kvs IH]; intros [k x] f acc r HP Hf; inversion HP as [|? ? Hx HP']; subst;
    destruct f as [|f]; cbn [List.length list_sum fold_right map snd] in Hf, Hx; try lia;
    cbn [flat_map map]; unfold dump_member at 1; cbn [fst snd]; rewrite <- !app_assoc;
    rewrite quote_str_app; cbn [parse_members]; rewrite skip_ws_nonws, Ascii.eqb_refl
      by reflexivity; rewrite read_str_quote, key_sep_app; cbn -[item_sep dump_member];
    rewrite parse_value_space, string_of_list_ascii_of_string.
  - rewrite Hx by (auto; lia). reflexivity.
  - rewrite item_sep_app, Hx by (auto; lia). cbn -[item_sep dump_member].
    rewrite parse_members_space, IH by (auto; cbn [List.length list_sum fold_right map]; lia).
    now rewrite <- app_assoc.
Qed.

Lemma parse_value_arr f t :
  parse_value (S f) ("["%char :: t)
  = match skip_ws t with
    | c' :: r' => if Ascii.eqb c' "]" then Some (JArr [], r') else parse_items f (c' :: r') []
    | [] => None
    end.
Proof. reflexivity. Qed.

Lemma parse_value_obj f t :
  parse_value (S f) ("{"%char :: t)
  = match skip_ws t with
    | c' :: r' => if Ascii.eqb c' "}" then Some (JObj [], r') else parse_members f (c' :: r') []
    | [] => None
    end.
Proof. reflexivity. Qed.

(** The reader returns every value the encoder writes, and stops right
    after its text. *)
Lemma parse_value_dumps v : reads_back v.
Proof.
  induction v as [| b | z | s | l IH | kvs IH] using json_ind'; intros f r Hf Hr;
    destruct f as [|f]; cbn [json_size] in Hf; try lia.
  - reflexivity.
  - destruct b; reflexivity.
  - now apply parse_value_int.
  - apply parse_value_str.
  - destruct l as [|x l]; [reflexivity|].
    destruct (encode_value_head x) as (c & t & Hd & Hw & Hb & _).
    cbn [encode_value map join app]. rewrite <- !app_assoc. cbn [app].
    rewrite parse_value_arr, Hd, <- app_comm_cons, skip_ws_nonws, Hb by exact Hw. cbv iota.
    rewrite app_comm_cons, <- Hd. apply parse_items_dumps; [exact IH | lia].
  - destruct kvs as [|kv kvs]; [reflexivity|].
    rewrite encode_value_obj. cbn [map join app]. rewrite <- !app_assoc. cbn [app].
    assert (Hd : dump_member kv = dq :: tl (dump_member kv)) by reflexivity.
    rewrite parse_value_obj, Hd, <- app_comm_cons, skip_ws_nonws by reflexivity.
    replace (Ascii.eqb dq "}") with false by reflexivity. cbv iota.
    rewrite app_comm_cons, <- Hd. apply parse_members_dumps; [exact IH | lia].
Qed.

(** *** The reader's fuel *)

Lemma length_join sep items :
  (list_sum (map (@List.length ascii) items) + List.length sep * (List.length items - 1)
   <= List.length (join sep items))%nat.
Proof.
  destruct items as [|x r]; [simpl; lia|]. unfold list_sum.
  cbn [join map fold_right List.length]. rewrite length_app.
  enough (Hr : (fold_right Nat.add 0 (map (@List.length ascii) r) + List.length sep * List.length r
                <= List.length (flat_map (fun y => sep ++ y) r))%nat) by nia.
  induction r as [|y r IH]; cbn [flat_map map fold_right List.length]; [lia|].
  rewrite !length_app. nia.
Qed.

Lemma quote_str_length s : (2 <= List.length (quote_str s))%nat.
Proof. unfold quote_str. cbn [List.length]. rewrite length_app. simpl. lia. Qed.

(** The text of a value is at least as long as its size, so the length
    of the text is enough fuel. *)
Lemma json_size_le v : (json_size v <= List.length (encode_value v))%nat.
Proof.
  induction v as [| b | z | s | l IH | kvs IH] using json_ind'.
  - simpl; lia.
  - destruct b; simpl; lia.
  - rewrite encode_value_int, length_app.
    destruct (dec_digits_shape (S (Z.to_nat (Z.abs z))) (Z.abs z) ltac:(lia) ltac:(lia))
      as (c & l & -> & _). simpl. lia.
  - pose proof (quote_str_length s). simpl. lia.
  - destruct l as [|x l]; [simpl; lia|].
    pose proof (length_join item_sep (map encode_value (x :: l))) as Hj.
    assert (Hs : (list_sum (map json_size (x :: l)) + 0 * List.length (x :: l)
                  <= list_sum (map (fun v => List.length (encode_value v)) (x :: l)))%nat).
    { apply list_sum_map_le. refine (Forall_impl _ _ IH). intros v H. lia. }
    rewrite map_map, length_map in Hj. cbn [json_size encode_value List.length] in *.
    rewrite length_app. cbn [List.length item_sep] in *. lia.
  - destruct kvs as [|kv kvs]; [simpl; lia|].
    pose proof (length_join item_sep (map dump_member (kv :: kvs))) as Hj.
    assert (Hm : Forall (fun kv => (json_size (snd kv) + 4 <= List.length (dump_member kv))%nat)
                   (kv :: kvs)).
    { refine (Forall_impl _ _ IH). intros [k x] Hx. unfold dump_member.
      pose proof (quote_str_length k). rewrite !length_app. simpl in *. lia. }
    pose proof (list_sum_map_le _ _ 4 (kv :: kvs) Hm) as Hs.
    rewrite map_map, length_map in Hj. rewrite encode_value_obj.
    cbn [json_size List.length] in *. rewrite length_app. cbn [List.length item_sep] in *. lia.
Qed.

(** The reader's fuel [S (length l)] is enough, and [json_loads] stops at
    the end of the encoder's text. *)
Lemma encode_roundtrip v : json_loads (encode_value v) = Some v.
Proof.
  unfold json_loads. rewrite <- (app_nil_r (encode_value v)) at 2.
  rewrite parse_value_dumps; [reflexivity| |reflexivity].
  pose proof (json_size_le v). lia.
Qed.

(** *** Only printable ASCII *)

Definition printable_ascii (c : ascii) : bool :=
  let n := nat_of_ascii c in (32 <=? n)%nat && (n <=? 126)%nat.

Lemma escape_char_printable c : forallb printable_ascii (escape_char c) = true.
Proof. destruct c as [[] [] [] [] [] [] [] []]; reflexivity. Qed.

Lemma forallb_join f sep items :
  forallb f sep = true -> Forall (fun x => forallb f x = true) items ->
  forallb f (join sep items) = true.
Proof.
  intros Hs Hi. destruct Hi as [|x r Hx Hr]; [reflexivity|]. cbn [join].
  rewrite forallb_app, Hx. induction Hr as [|y r Hy _ IH]; [reflexivity|].
  cbn [flat_map]. now rewrite !forallb_app, Hs, Hy.
Qed.

Lemma quote_str_printable s : forallb printable_ascii (quote_str s) = true.
Proof.
  unfold quote_str. cbn [forallb]. rewrite forallb_app. simpl.
  induction (list_ascii_of_string s) as [|c l IH]; [reflexivity|].
  cbn [flat_map]. now rewrite forallb_app, escape_char_printable.
Qed.

Lemma digits_printable z : forallb printable_ascii (encode_value (JInt z)) = true.
Proof.
  rewrite encode_value_int, forallb_app.
  destruct (dec_digits_shape (S (Z.to_nat (Z.abs z))) (Z.abs z) ltac:(lia) ltac:(lia))
    as (c & l & -> & Hc & Hl & _).
  apply andb_true_intro. split; [now destruct (z <? 0)|].
  apply forallb_forall. intros x Hx.
  assert (Hd : is_digit x = true)
    by (destruct Hx as [<-|Hx]; [exact Hc|]; now apply (Forall_forall _ l) with x in Hl).
  unfold is_digit in Hd. unfold printable_ascii.
  apply andb_true_iff in Hd as [H1 H2]. apply Z.leb_le in H1, H2.
  apply andb_true_intro; split; apply Nat.leb_le; lia.
Qed.
(** [json.dumps] with [ensure_ascii=True] writes only printable ASCII
    characters. *)
Lemma encode_value_printable v : forallb printable_ascii (encode_value v) = true.
Proof.
  induction v as [| b | z | s | l IH | kvs IH] using json_ind'.
  - reflexivity.
  - now destruct b.
  - apply digits_printable.
  - apply quote_str_printable.
  - cbn [encode_value forallb]. rewrite forallb_app, forallb_join; [reflexivity|reflexivity|].
    now apply Forall_map.
  - rewrite encode_value_obj. cbn [forallb]. rewrite forallb_app, forallb_join; [reflexivity|reflexivity|].
    apply Forall_map. refine (Forall_impl _ _ IH). intros [k x] Hx. unfold dump_member.
    now rewrite !forallb_app, quote_str_printable, Hx.
Qed.

(** [json.dumps(x)], [x] the value [json.loads] built: the encoder writes
    the dicts of [py_value], so a key repeated in the service's text is
    written once, with its last value. *)
Definition json_dumps (v : json) : list ascii := encode_value (py_value v).

Lemma json_dumps_head v :
  exists c t, json_dumps v = c :: t /\ is_ws c = false /\
    Ascii.eqb c "]"%char = false /\ Ascii.eqb c "}"%char = false.
Proof. apply encode_value_head. Qed.

(** The service decodes the body into the Python value the script sent. *)
Lemma json_roundtrip v : json_loads (json_dumps v) = Some (py_value v).
Proof. apply encode_roundtrip. Qed.

Lemma json_dumps_printable v : forallb printable_ascii (json_dumps v) = true.
Proof. apply encode_value_printable. Qed.

(** ** [PreparedRequest.prepare]

    [requests] builds the message from the caller's request in
    [PreparedRequest.prepare]: [prepare_headers] checks each header with
    [check_header_validity] and stores it in a [CaseInsensitiveDict];
    [prepare_body] encodes the [json=] argument with [json.dumps],
    [prepare_content_length] adds [Content-Length], and [Content-Type:
    application/json] is added when the caller gave no content type.
    [http.client] then checks every header again in [putheader].  The
    session's default headers ([User-Agent], [Accept], ...) and the URL
    normalisation are not modelled. *)

(** [str.isspace] on U+0000..U+00FF, which is what [\s] matches in a
    [str] pattern. *)
Definition is_unicode_space (c : ascii) : bool :=
  let n := nat_of_ascii c in
  ((9 <=? n)%nat && (n <=? 13)%nat) || ((28 <=? n)%nat && (n <=? 32)%nat)
  || (n =? 133)%nat || (n =? 160)%nat.

Definition is_crlf (c : ascii) : bool := Ascii.eqb c "013"%char || Ascii.eqb c "010"%char.

(** [[^...]*$] after the first character: no excluded character, except
    that [$] also matches before a final line feed. *)
Fixpoint tail_ok (bad : ascii -> bool) (r : list ascii) : bool :=
  match r with
  | [] => true
  | [c] => negb (bad c) || Ascii.eqb c "010"%char
  | c :: r' => negb (bad c) && tail_ok bad r'
  end.

(** [_VALID_HEADER_NAME_RE_STR = ^[^:\s][^:\r\n]*$] *)
Definition header_name_ok (k : list ascii) : bool :=
  match k with
  | c :: r => negb (Ascii.eqb c ":"%char || is_unicode_space c)
              && tail_ok (fun c => Ascii.eqb c ":"%char || is_crlf c) r
  | [] => false
  end.

(** [_VALID_HEADER_VALUE_RE_STR = ^\S[^\r\n]*$|^$]; the second
    alternative also matches a lone line feed. *)
Definition header_value_ok (v : list ascii) : bool :=
  match v with
  | [] => true
  | [c] => negb (is_unicode_space c) || Ascii.eqb c "010"%char
  | c :: r => negb (is_unicode_space c) && tail_ok is_crlf r
  end.

(** [str.lower] on U+0000..U+00FF. *)
Definition lower_char (c : ascii) : ascii :=
  let n := nat_of_ascii c in
  if ((65 <=? n)%nat && (n <=? 90)%nat) || ((192 <=? n)%nat && (n <=? 222)%nat && negb (n =? 215)%nat)
  then ascii_of_nat (n + 32) else c.

Definition same_key (k k' : list ascii) : bool :=
  if list_eq_dec ascii_dec (map lower_char k) (map lower_char k') then true else false.

Definition headers := list (list ascii * list ascii).

(** [CaseInsensitiveDict.__setitem__]: a key equal up to case replaces
    the entry in place, with the new spelling; a new key goes last. *)
Fixpoint ci_set (k v : list ascii) (hs : headers) : headers :=
  match hs with
  | [] => [(k, v)]
  | (k', v') :: r => if same_key k' k then (k, v) :: r else (k', v') :: ci_set k v r
  end.

Fixpoint ci_get (k : list ascii) (hs : headers) : option (list ascii) :=
  match hs with
  | [] => None
  | (k', v') :: r => if same_key k' k then Some v' else ci_get k r
  end.

(** [prepare_headers]: [None] is [InvalidHeader]. *)
Fixpoint prepare_headers (acc : headers) (hs : list (string * fstr)) : option headers :=
  match hs with
  | [] => Some acc
  | (k, f) :: r =>
      let kl := list_ascii_of_string k in
      let v := render f in
      if header_name_ok kl && header_value_ok v then prepare_headers (ci_set kl v acc) r
      else None
  end.

Definition content_length_key : list ascii := list_ascii_of_string "Content-Length".
Definition content_type_key : list ascii := list_ascii_of_string "Content-Type".
Definition application_json : list ascii := list_ascii_of_string "application/json".

(** [prepare_content_length(body)] *)
Definition prepare_content_length (m : method) (body : option (list ascii)) (hs : headers)
  : headers :=
  match body with
  | Some b =>
      match List.length b with
      | O => hs
      | n => ci_set content_length_key (list_ascii_of_string (py_str_int (Z.of_nat n))) hs
      end
  | None =>
      match m, ci_get content_length_key hs with
      | GET, _ => hs
      | _, Some _ => hs
      | _, None => ci_set content_length_key ["0"%char] hs
      end
  end.

(** What goes on the wire: method, URL, headers and body. *)
Record wire_request := mkWire {
  wr_method : method;
  wr_url : string;
  wr_headers : headers;
  wr_body : option (list ascii)
}.

(** The headers [prepare_body] adds: [Content-Length], then
    [Content-Type] when there is a [json=] body and the caller gave no
    content type. *)
Definition body_headers (m : method) (body : option (list ascii)) (hs : headers) : headers :=
  let hs1 := prepare_content_length m body hs in
  match body, ci_get (list_ascii_of_string "content-type") hs1 with
  | Some _, None => ci_set content_type_key application_json hs1
  | _, _ => hs1
  end.

(** [PreparedRequest.prepare] for [requests.<method>(url, headers=...,
    json=...)]: [None] is [InvalidHeader]. *)
Definition prepare (r : request) : option wire_request :=
  match prepare_headers [] (rq_headers r) with
  | None => None
  | Some hs =>
      let body := option_map json_dumps (rq_json r) in
      Some {| wr_method := rq_method r; wr_url := rq_url r;
              wr_headers := body_headers (rq_method r) body hs; wr_body := body |}
  end.

(** [http.client._is_illegal_header_value]: a line feed not followed by
    a space or a tab, or a carriage return not followed by a space, a tab
    or a line feed. *)
Fixpoint http_illegal_value (v : list ascii) : bool :=
  match v with
  | [] => false
  | c :: r =>
      let next_in ok := match r with d :: _ => existsb (Ascii.eqb d) ok | [] => false end in
      (if Ascii.eqb c "010"%char then negb (next_in [" "; "009"])%char
       else if Ascii.eqb c "013"%char then negb (next_in [" "; "009"; "010"])%char
       else false)
      || http_illegal_value r
  end.

(** [HTTPConnection.putheader] raises [ValueError] on an illegal value. *)
Definition http_headers_ok (hs : headers) : bool :=
  forallb (fun kv => negb (http_illegal_value (snd kv))) hs.

(** The request reaches the wire: [requests] prepares it and
    [http.client] accepts its headers. *)
Definition transmit (r : request) : option wire_request :=
  match prepare r with
  | Some wr => if http_headers_ok (wr_headers wr) then Some wr else None
  | None => None
  end.

(** ** What the script's requests put on the wire *)

(** No carriage return and no line feed. *)
Definition clean (l : list ascii) : bool := forallb (fun c => negb (is_crlf c)) l.

Definition bearer : list ascii := list_ascii_of_string "Bearer ".

Lemma tail_ok_good bad c r : bad c = false -> tail_ok bad (c :: r) = tail_ok bad r.
Proof. intros Hc. destruct r; simpl; rewrite Hc; reflexivity. Qed.

Lemma http_illegal_good c r :
  is_crlf c = false -> http_illegal_value (c :: r) = http_illegal_value r.
Proof.
  intros Hc. unfold is_crlf in Hc. apply orb_false_elim in Hc as [Hr Hn].
  simpl. now rewrite Hn, Hr.
Qed.

(** The two checks together accept exactly the values without a line
    break: [requests] lets a final line feed through and [http.client]
    refuses it. *)
Lemma wire_value_clean t : tail_ok is_crlf t && negb (http_illegal_value t) = clean t.
Proof.
  induction t as [|c [|d r] IH]; [reflexivity| |].
  - unfold clean, is_crlf. simpl.
    destruct (Ascii.eqb c "013") eqn:E1, (Ascii.eqb c "010") eqn:E2; reflexivity.
  - destruct (is_crlf c) eqn:Hc.
    + unfold clean. cbn [forallb tail_ok]. rewrite Hc. reflexivity.
    + rewrite tail_ok_good, http_illegal_good by assumption.
      unfold clean in *. cbn [forallb] in *. now rewrite Hc, IH.
Qed.

Lemma render_bearer token : render [PLit "Bearer "; PVal token] = bearer ++ py_str token.
Proof. unfold render. cbn [flat_map]. now rewrite app_nil_r. Qed.

Lemma header_value_bearer t : header_value_ok (bearer ++ t) = tail_ok is_crlf t.
Proof. cbn [bearer list_ascii_of_string app header_value_ok]. now rewrite !tail_ok_good. Qed.

Lemma http_illegal_bearer t : http_illegal_value (bearer ++ t) = http_illegal_value t.
Proof. cbn [bearer list_ascii_of_string app]. now rewrite !http_illegal_good. Qed.

Lemma prepare_headers_app acc hs1 hs2 :
  prepare_headers acc (hs1 ++ hs2)
  = match prepare_headers acc hs1 with Some acc' => prepare_headers acc' hs2 | None => None end.
Proof.
  revert acc. induction hs1 as [|[k f] hs1 IH]; intros acc; [reflexivity|].
  cbn [app prepare_headers]. destruct (_ && _); [apply IH|reflexivity].
Qed.

Lemma prepare_headers_auth token :
  prepare_headers [] [auth_header token]
  = if tail_ok is_crlf (py_str token)
    then Some [(list_ascii_of_string "authorization", bearer ++ py_str token)] else None.
Proof.
  unfold auth_header. cbn [prepare_headers]. rewrite render_bearer, header_value_bearer.
  now destruct (tail_ok is_crlf (py_str token)).
Qed.

(** [requests.get] in [get_reserves]: the request reaches the wire,
    with its URL and the one [authorization] header [Bearer <str(token)>]
    and no body, exactly when [str(token)] holds no carriage return and
    no line feed; otherwise [requests] raises [InvalidHeader] or
    [http.client] raises [ValueError] (a final line feed). *)
Lemma transmit_get_reserves token date :
  transmit (get_reserves_request token date)
  = if clean (py_str token) then
      Some {| wr_method := GET; wr_url := rq_url (get_reserves_request token date);
              wr_headers := [(list_ascii_of_string "authorization", bearer ++ py_str token)];
              wr_body := None |}
    else None.
Proof.
  unfold transmit, prepare.
  change (rq_headers (get_reserves_request token date)) with [auth_header token].
  rewrite prepare_headers_auth. destruct (tail_ok is_crlf (py_str token)) eqn:Ht.
  - cbn -[py_str bearer http_illegal_value]. unfold http_headers_ok. cbn [forallb snd].
    rewrite http_illegal_bearer, andb_true_r, <- wire_value_clean, Ht.
    now destruct (http_illegal_value (py_str token)).
  - rewrite <- wire_value_clean, Ht. reflexivity.
Qed.

Lemma clean_digits z : (0 <= z)%Z -> clean (list_ascii_of_string (py_str_int z)) = true.
Proof.
  intros Hz. unfold py_str_int. rewrite list_ascii_of_string_of_list_ascii.
  replace (z <? 0)%Z with false by (symmetry; apply Z.ltb_ge; lia). cbn [app].
  destruct (dec_digits_shape (S (Z.to_nat (Z.abs z))) (Z.abs z) ltac:(lia) ltac:(lia))
    as (c & l & -> & Hc & Hl & _).
  unfold clean. apply forallb_forall. intros x Hx.
  assert (Hd : is_digit x = true) by (destruct Hx as [<-|Hx]; [exact Hc|]; now apply (Forall_forall _ l) with x in Hl).
  unfold is_crlf. now rewrite !(digit_not _ _ Hd) by reflexivity.
Qed.

Lemma http_illegal_clean l : clean l = true -> http_illegal_value l = false.
Proof. rewrite <- wire_value_clean. intros H. apply andb_true_iff in H as [_ H]. now destruct (http_illegal_value l). Qed.

(** The [Content-Length] value of a body. *)
Definition length_text (b : list ascii) : list ascii :=
  list_ascii_of_string (py_str_int (Z.of_nat (List.length b))).

Lemma json_dumps_length_pos v : exists n, List.length (json_dumps v) = S n.
Proof. destruct (json_dumps_head v) as (c & t & -> & _). now exists (List.length t). Qed.

Lemma prepare_headers_put token body :
  prepare_headers [] (rq_headers (put_reserves_request token body))
  = if tail_ok is_crlf (py_str token)
    then Some [(list_ascii_of_string "authorization", bearer ++ py_str token);
               (list_ascii_of_string "content-type", application_json)]
    else None.
Proof.
  change (rq_headers (put_reserves_request token body))
    with ([auth_header token] ++ [("content-type", [PLit "application/json"])]).
  rewrite prepare_headers_app, prepare_headers_auth.
  now destruct (tail_ok is_crlf (py_str token)).
Qed.

Lemma http_headers_ok_cons k v hs :
  http_headers_ok ((k, v) :: hs) = negb (http_illegal_value v) && http_headers_ok hs.
Proof. reflexivity. Qed.

Lemma body_headers_put v c t :
  body_headers PUT (Some (c :: t))
    [(list_ascii_of_string "authorization", v); (list_ascii_of_string "content-type", application_json)]
  = [(list_ascii_of_string "authorization", v); (list_ascii_of_string "content-type", application_json);
     (content_length_key, length_text (c :: t))].
Proof. reflexivity. Qed.

(** [requests.put] in [reserve_food]: the request reaches the wire,
    with the caller's two headers, the [Content-Length] of the body, no
    second content type, and the body [json.dumps(data)], exactly when
    [str(token)] holds no line break. *)
Lemma transmit_put_reserves token body :
  transmit (put_reserves_request token body)
  = if clean (py_str token) then
      Some {| wr_method := PUT; wr_url := rq_url (put_reserves_request token body);
              wr_headers := [(list_ascii_of_string "authorization", bearer ++ py_str token);
                             (list_ascii_of_string "content-type", application_json);
                             (content_length_key, length_text (json_dumps body))];
              wr_body := Some (json_dumps body) |}
    else None.
Proof.
  unfold transmit, prepare. rewrite prepare_headers_put, <- wire_value_clean.
  destruct (tail_ok is_crlf (py_str token)) eqn:Ht; [|reflexivity].
  cbn [rq_json rq_method put_reserves_request option_map wr_headers].
  destruct (json_dumps_head body) as (c & t & Hd & _).
  rewrite Hd, body_headers_put, !http_headers_ok_cons, http_illegal_bearer.
  rewrite (http_illegal_clean (length_text _)) by (apply clean_digits; lia).
  now destruct (http_illegal_value (py_str token)).
Qed.

Lemma body_headers_post c t :
  body_headers POST (Some (c :: t)) [(list_ascii_of_string "content-type", application_json)]
  = [(list_ascii_of_string "content-type", application_json);
     (content_length_key, length_text (c :: t))].
Proof. reflexivity. Qed.

(** [requests.post] in [get_bearer_token]: for every user name and
    password the request reaches the wire with its [content-type] header,
    the [Content-Length] of the body and the body [json.dumps(data)];
    the credentials cannot break the headers, and the body escapes them. *)
Lemma transmit_login u p :
  transmit (login_request u p)
  = Some {| wr_method := POST; wr_url := rq_url (login_request u p);
            wr_headers := [(list_ascii_of_string "content-type", application_json);
                           (content_length_key, length_text (json_dumps (login_data u p)))];
            wr_body := Some (json_dumps (login_data u p)) |}.
Proof.
  unfold transmit, prepare.
  change (prepare_headers [] (rq_headers (login_request u p)))
    with (Some [(list_ascii_of_string "content-type", application_json)]).
  cbn [option_map rq_json rq_method login_request wr_headers].
  destruct (json_dumps_head (login_data u p)) as (c & t & Hd & _).
  rewrite Hd, body_headers_post, !http_headers_ok_cons.
  rewrite (http_illegal_clean (length_text _)) by (apply clean_digits; lia). reflexivity.
Qed.
