(* ===== verification/Selector.v ===== *)
(** * The interactive selector [display_and_choose_food] (reserve.py 40-54)

    The menu is printed once; then the [while True] loop prompts, reads a
    line with [input], converts it with [int()], and either returns the
    chosen element, or prints one of the two error messages and prompts
    again.  Each iteration reads one line, so the loop is run with fuel one
    more than the number of lines left on stdin: it then ends by returning
    a food or by [EOFError] from [input], never by running out of fuel
    ([choose_loop_fuel] below). *)

From Stdlib Require Import ZArith String Ascii List Bool Lia.
From S2P Require Import Prelude Json Runtime PyInt Text.
Import ListNotations.
Open Scope string_scope.
Open Scope st_scope.
Open Scope list_scope.

(** [print(f"{i}. {food['food']}")] for each [i, food] of
    [enumerate(reserves_list, start=1)]. *)
Fixpoint print_menu (i : Z) (foods : list json) : PyM unit :=
  match foods with
  | [] => st_ret tt
  | food :: rest =>
      name <- getitemM food (KStr "food") ;;
      print [PVal (JInt i); PLit ". "; PVal name] ;;
      print_menu (i + 1)%Z rest
  end.

Definition choose_prompt (n : Z) : fstr :=
  [PLit "Choose an option (1-"; PVal (JInt n); PLit "): "].

Definition invalid_choice_line : fstr :=
  [PLit "Invalid choice. Please choose a number within the range."].
Definition invalid_input_line : fstr :=
  [PLit "Invalid input. Please enter a number."].

(** One iteration of the [while True] loop: [Some food] when it returns,
    [None] when it loops again.  The [try] covers [int(choice)], the range
    test and the subscript; only [ValueError] (and its subclasses) is
    caught. *)
Definition choose_once (reserves_list : json) : PyM (option json) :=
  n <- lift (py_len reserves_list) ;;
  choice <- input (choose_prompt n) ;;
  st_catch
    (c <- lift (int_of_str choice) ;;
     ok <- (if (1 <=? c)%Z then
              n' <- lift (py_len reserves_list) ;;
              st_ret (c <=? n')%Z
            else st_ret false) ;;
     if ok then
       food <- getitemM reserves_list (KInt (c - 1)) ;;
       st_ret (Some food)
     else
       print invalid_choice_line ;;
       st_ret None)
    (fun e => if is_value_error e
              then Some (print invalid_input_line ;; st_ret None)
              else None).

(** The loop, with fuel. *)
Fixpoint choose_loop (fuel : nat) (reserves_list : json) : PyM json :=
  match fuel with
  | O => st_raise OutOfFuel
  | S fuel' =>
      r <- choose_once reserves_list ;;
      match r with
      | Some food => st_ret food
      | None => choose_loop fuel' reserves_list
      end
  end.

(** [display_and_choose_food(reserves_list)] *)
Definition display_and_choose_food (reserves_list : json) : PyM json :=
  print [PLit "Available foods:"] ;;
  foods <- lift (py_iter reserves_list) ;;
  print_menu 1 foods ;;
  fun w => choose_loop (S (List.length (w_in w))) reserves_list w.

(** ** Footprint *)

(** The selector writes stdout and reads stdin; it sends no request, does
    not sleep and creates no task. *)
Section SelectorFrame.
Context {X : Type} (f : world -> X)
  (Hprint : forall l, frame (keeps f) (print l))
  (Hinput : forall p, frame (keeps f) (input p)).

#[local] Hint Resolve Hprint Hinput : narije.

Lemma print_menu_frame i foods : frame (keeps f) (print_menu i foods).
Proof. revert i. induction foods; intros i; simpl; frame_solve. Qed.

Lemma choose_once_frame l : frame (keeps f) (choose_once l).
Proof. unfold choose_once. frame_solve. Qed.

Lemma choose_loop_frame fuel l : frame (keeps f) (choose_loop fuel l).
Proof.
  induction fuel as [|fuel IH]; simpl; frame_solve.
  apply choose_once_frame.
Qed.

Lemma display_and_choose_food_frame l : frame (keeps f) (display_and_choose_food l).
Proof.
  unfold display_and_choose_food. frame_solve.
  - apply print_menu_frame.
  - intros w. apply choose_loop_frame.
Qed.
End SelectorFrame.

(** The components of the state the selector leaves alone. *)
Definition net_obs (w : world) : list (Z * request) * Z * list coro :=
  (w_http w, w_clock w, w_ready w).

Lemma display_and_choose_food_net l w :
  net_obs (snd (display_and_choose_food l w)) = net_obs w.
Proof. apply (display_and_choose_food_frame net_obs); intros; prim_frame. Qed.

(** The selector sends nothing and does not sleep, so it keeps the
    relation between the clock and the request log. *)
Lemma display_and_choose_food_clock_log l : frame clock_log (display_and_choose_food l).
Proof.
  apply frame_clock_log_keeps; apply display_and_choose_food_frame; intros; prim_frame.
Qed.

#[export] Hint Resolve display_and_choose_food_clock_log : narije.

(** ** Behaviour of the loop *)

(** A line the loop accepts for a menu of [n] items: it parses with
    [int()] to an integer within [1..n]. *)
Definition valid_choice (n : Z) (line : string) : option Z :=
  match int_of_str line with
  | Ok c => if (1 <=? c)%Z && (c <=? n)%Z then Some c else None
  | Exc _ => None
  end.

Section Loop.
Context (foods : list json).

Let n := Z.of_nat (List.length foods).

Lemma choose_once_eof w :
  w_in w = [] -> exists w', choose_once (JArr foods) w = (Exc EOFError, w') /\ w_in w' = [].
Proof.
  intros Hin. unfold choose_once, input, emit, lift, st_bind. simpl. rewrite Hin. eauto.
Qed.

(** A line that is not a valid choice costs one iteration and one line. *)
Lemma choose_once_invalid w line rest :
  w_in w = line :: rest -> valid_choice n line = None ->
  exists w', choose_once (JArr foods) w = (Ok None, w') /\ w_in w' = rest.
Proof.
  intros Hin Hv. unfold valid_choice in Hv.
  unfold choose_once, input, emit, lift, print, st_catch, st_bind, st_ret. simpl.
  rewrite Hin. simpl. destruct (int_of_str line) as [c|e] eqn:Hc.
  - fold n. destruct (1 <=? c)%Z eqn:H1; simpl; [|eauto].
    destruct (c <=? n)%Z eqn:H2; simpl in Hv; [discriminate Hv|eauto].
  - rewrite (int_of_str_exc _ _ Hc). simpl. eauto.
Qed.

(** A valid line ends the loop with the item it numbers. *)
Lemma choose_once_valid w line rest k :
  w_in w = line :: rest -> valid_choice n line = Some k ->
  exists w' food, nth_error foods (Z.to_nat (k - 1)) = Some food /\
    choose_once (JArr foods) w = (Ok (Some food), w') /\ w_in w' = rest.
Proof.
  intros Hin Hv. unfold valid_choice in Hv.
  destruct (int_of_str line) as [c|e] eqn:Hc; [|discriminate Hv].
  destruct (1 <=? c)%Z eqn:H1; [|discriminate Hv].
  destruct (c <=? n)%Z eqn:H2; [|discriminate Hv]. injection Hv as <-.
  apply Z.leb_le in H1. apply Z.leb_le in H2.
  destruct (nth_error foods (Z.to_nat (c - 1))) as [food|] eqn:Hf;
    [|apply nth_error_None in Hf; unfold n in H2; lia].
  unfold choose_once, input, emit, lift, getitemM, st_catch, st_bind, st_ret. simpl.
  rewrite Hin. simpl. rewrite Hc. fold n.
  apply Z.leb_le in H1. apply Z.leb_le in H2. rewrite H1. simpl. rewrite H2.
  unfold getitem, seq_index. fold n.
  replace (c - 1 <? 0)%Z with false by (symmetry; apply Z.ltb_ge; lia).
  replace ((0 <=? c - 1) && (c - 1 <? n))%Z with true
    by (symmetry; apply andb_true_intro; split; [apply Z.leb_le|apply Z.ltb_lt]; lia).
  rewrite Hf. eauto.
Qed.

(** Invalid lines are skipped one iteration each. *)
Lemma choose_loop_skip fuel bad rest w :
  w_in w = bad ++ rest -> Forall (fun line => valid_choice n line = None) bad ->
  (List.length bad < fuel)%nat ->
  exists w', w_in w' = rest /\
    choose_loop fuel (JArr foods) w = choose_loop (fuel - List.length bad) (JArr foods) w'.
Proof.
  revert fuel w. induction bad as [|line bad IH]; intros fuel w Hin Hbad Hf.
  - exists w. rewrite Nat.sub_0_r. now split.
  - inversion Hbad as [|? ? Hv Hbad']; subst.
    destruct fuel as [|fuel]; [simpl in Hf; lia|].
    destruct (choose_once_invalid w line (bad ++ rest) Hin Hv) as (w1 & Hw1 & Hin1).
    destruct (IH fuel w1 Hin1 Hbad' ltac:(simpl in Hf; lia)) as (w2 & Hin2 & E).
    exists w2. split; [exact Hin2|]. simpl. unfold st_bind. rewrite Hw1. exact E.
Qed.
End Loop.

(** Each iteration that does not end the loop reads one line. *)
Lemma choose_once_consumes l w r w' :
  choose_once l w = (Ok r, w') -> exists line, w_in w = line :: w_in w'.
Proof.
  unfold choose_once, input, emit, lift, print, getitemM, st_catch, st_bind, st_ret, st_raise.
  simpl. repeat (case_match; simpl); intros H; inversion H; subst; simpl; eauto.
Qed.

(** Termination: the loop ends (returns or raises) within one iteration
    per line of input plus one, so any fuel above the number of lines
    left gives the same result. *)
Lemma choose_loop_fuel l fuel1 : forall fuel2 w,
  (List.length (w_in w) < fuel1)%nat -> (List.length (w_in w) < fuel2)%nat ->
  choose_loop fuel1 l w = choose_loop fuel2 l w.
Proof.
  induction fuel1 as [|fuel1 IH]; intros [|fuel2] w H1 H2; try lia.
  simpl. unfold st_bind.
  destruct (choose_once l w) as [[[food|]|e] w'] eqn:E; try reflexivity.
  destruct (choose_once_consumes l w _ _ E) as (line & Hin).
  rewrite Hin in H1, H2. simpl in H1, H2. apply IH; lia.
Qed.

(** The selector raises nothing that escapes the event loop; in
    particular its fuel never runs out, since every iteration that does
    not end the loop reads a line. *)
Lemma choose_once_not_base l : raises_only not_base (choose_once l).
Proof. unfold choose_once. raises_solve. Qed.

Lemma choose_loop_not_base l fuel w e :
  (List.length (w_in w) < fuel)%nat -> fst (choose_loop fuel l w) = Exc e -> not_base e.
Proof.
  revert w. induction fuel as [|fuel IH]; intros w Hf; [lia|]. simpl. unfold st_bind.
  pose proof (choose_once_not_base l w) as Hc.
  destruct (choose_once l w) as [[[food|]|e'] w'] eqn:E; simpl;
    [discriminate| |intros H; injection H as <-; exact (Hc e' eq_refl)].
  destruct (choose_once_consumes l w _ _ E) as (line & Hin).
  rewrite Hin in Hf. simpl in Hf. apply IH. lia.
Qed.

Lemma display_and_choose_food_not_base l : raises_only not_base (display_and_choose_food l).
Proof.
  assert (Hmenu : forall i foods, raises_only not_base (print_menu i foods)).
  { intros i foods. revert i. induction foods; intros i; simpl; raises_solve. }
  unfold display_and_choose_food. raises_solve. intros w e. apply choose_loop_not_base. lia.
Qed.

#[export] Hint Resolve display_and_choose_food_not_base : narije.

Lemma print_menu_ok i foods w :
  Forall (fun food => exists name, getitem food (KStr "food") = Ok name) foods ->
  exists w', print_menu i foods w = (Ok tt, w') /\ w_in w' = w_in w.
Proof.
  revert i w. induction foods as [|food foods IH]; intros i w Hf; [now exists w|].
  inversion Hf as [|? ? (name & Hn) Hf']; subst.
  simpl. unfold getitemM, lift, print, emit, st_bind at 1. rewrite Hn. simpl.
  unfold st_bind. cbv beta iota.
  match goal with
  | |- context [print_menu (i + 1)%Z foods ?w1] =>
      destruct (IH (i + 1)%Z w1 Hf') as (w' & E & Hin)
  end.
  exists w'. rewrite E. split; [reflexivity|exact Hin].
Qed.

(** The menu is printed, then the loop runs on the input as it was. *)
Lemma display_and_choose_food_loop foods w :
  Forall (fun food => exists name, getitem food (KStr "food") = Ok name) foods ->
  exists w1, w_in w1 = w_in w /\
    display_and_choose_food (JArr foods) w
    = choose_loop (S (List.length (w_in w))) (JArr foods) w1.
Proof.
  intros Hf. unfold display_and_choose_food, print, emit, lift, st_bind at 1 2. simpl.
  destruct (print_menu_ok 1 foods
              {| w_out := w_out w ++ [OLine [PLit "Available foods:"]]; w_in := w_in w;
                 w_http := w_http w; w_clock := w_clock w; w_ready := w_ready w |} Hf)
    as (w1 & E & Hin).
  exists w1. unfold st_bind. rewrite E. simpl in Hin. now rewrite Hin.
Qed.

(** C18. With a menu of foods that all have a name, and an input whose
    first valid line (an integer [k] in [1..n] by Python's [int()]) comes
    after any number of invalid ones, the selector returns food number [k]
    and leaves the lines after that one unread. *)
Theorem display_and_choose_food_picks foods bad good rest k w :
  Forall (fun food => exists name, getitem food (KStr "food") = Ok name) foods ->
  w_in w = bad ++ good :: rest ->
  Forall (fun line => valid_choice (Z.of_nat (List.length foods)) line = None) bad ->
  valid_choice (Z.of_nat (List.length foods)) good = Some k ->
  exists food w', nth_error foods (Z.to_nat (k - 1)) = Some food /\
    display_and_choose_food (JArr foods) w = (Ok food, w') /\ w_in w' = rest.
Proof.
  intros Hf Hin Hbad Hgood.
  destruct (display_and_choose_food_loop foods w Hf) as (w1 & Hin1 & ->).
  rewrite Hin.
  destruct (choose_loop_skip foods (S (List.length (bad ++ good :: rest))) bad (good :: rest)
              w1 (eq_trans Hin1 Hin) Hbad ltac:(rewrite length_app; cbn [List.length]; lia))
    as (w2 & Hin2 & ->).
  replace (S (List.length (bad ++ good :: rest)) - List.length bad)%nat
    with (S (S (List.length rest))) by (rewrite length_app; cbn [List.length]; lia).
  destruct (choose_once_valid foods w2 good rest k Hin2 Hgood) as (w3 & food & Hk & E & Hin3).
  exists food, w3. simpl. unfold st_bind. rewrite E. now repeat split.
Qed.

(** C19. When no line of the input is a valid choice, the selector reads
    all of it and then fails with [EOFError] from [input()]; it never
    loops without reading. *)
Theorem display_and_choose_food_eof foods w :
  Forall (fun food => exists name, getitem food (KStr "food") = Ok name) foods ->
  Forall (fun line => valid_choice (Z.of_nat (List.length foods)) line = None) (w_in w) ->
  exists w', display_and_choose_food (JArr foods) w = (Exc EOFError, w') /\ w_in w' = [].
Proof.
  intros Hf Hbad.
  destruct (display_and_choose_food_loop foods w Hf) as (w1 & Hin1 & ->).
  destruct (choose_loop_skip foods (S (List.length (w_in w))) (w_in w) [] w1
              ltac:(now rewrite app_nil_r) Hbad ltac:(lia)) as (w2 & Hin2 & ->).
  replace (S (List.length (w_in w)) - List.length (w_in w))%nat with 1%nat by lia.
  destruct (choose_once_eof foods w2 Hin2) as (w3 & E & Hin3).
  exists w3. simpl. unfold st_bind. now rewrite E.
Qed.

(** C20. Termination of the [while True] loop: whatever the list and
    the input, the selector returns or raises a real exception within
    one iteration per line of input plus one, because every iteration
    that does not end the loop reads a line; the bounded loop of the
    model never runs out of its fuel. *)
Theorem display_and_choose_food_terminates l w : fst (display_and_choose_food l w) <> Exc OutOfFuel.
Proof. intros H. discriminate (display_and_choose_food_not_base l w OutOfFuel H). Qed.

(** ** What the selector returns *)

(** The selector returns one of the items of the list it was given. *)
Lemma choose_once_in l w food w' :
  choose_once l w = (Ok (Some food), w') -> exists items, py_iter l = Ok items /\ In food items.
Proof.
  unfold choose_once, input, emit, lift, print, getitemM, st_catch, st_bind, st_ret, st_raise.
  simpl. repeat (case_match; simpl); intros H; inversion H; subst;
    eapply getitem_int_in; eassumption.
Qed.

Lemma choose_loop_in fuel l w food w' :
  choose_loop fuel l w = (Ok food, w') -> exists items, py_iter l = Ok items /\ In food items.
Proof.
  revert w. induction fuel as [|fuel IH]; intros w; simpl; [discriminate|].
  unfold st_bind. destruct (choose_once l w) as [[[f|]|e] w1] eqn:E; [|apply IH|discriminate].
  intros H. injection H as <- _. eapply choose_once_in; exact E.
Qed.

Lemma display_and_choose_food_in l w food w' :
  display_and_choose_food l w = (Ok food, w') -> exists items, py_iter l = Ok items /\ In food items.
Proof.
  unfold display_and_choose_food, print, emit, lift, st_bind. simpl.
  destruct (py_iter l) as [items|e] eqn:Ei; simpl; [|discriminate].
  destruct (print_menu 1 items _) as [[[]|e] w1]; [|discriminate].
  intros H. rewrite <- Ei. exact (choose_loop_in (S (List.length (w_in w1))) l w1 food w' H).
Qed.

(** The answer ["1"] picks the first food of a non-empty menu, reading
    one line and touching nothing but stdin and stdout. *)
Lemma valid_choice_one n : (1 <= n)%Z -> valid_choice n "1" = Some 1%Z.
Proof.
  intros Hn. unfold valid_choice. replace (int_of_str "1") with (Ok 1%Z : pyres Z) by reflexivity.
  cbn -[Z.leb]. now rewrite (proj2 (Z.leb_le 1 n) Hn).
Qed.

Lemma display_and_choose_food_first food foods w rest :
  Forall (fun food => exists name, getitem food (KStr "food") = Ok name) (food :: foods) ->
  w_in w = "1" :: rest ->
  exists w', display_and_choose_food (JArr (food :: foods)) w = (Ok food, w') /\
    w_in w' = rest /\ net_obs w' = net_obs w.
Proof.
  intros Hf Hin. pose proof (display_and_choose_food_net (JArr (food :: foods)) w) as Hn.
  destruct (display_and_choose_food_loop _ w Hf) as (w1 & Hin1 & E).
  destruct (choose_once_valid (food :: foods) w1 "1" rest 1 (eq_trans Hin1 Hin)
              (valid_choice_one (Z.of_nat (List.length (food :: foods)))
                 ltac:(cbn [List.length]; lia))) as (w2 & f & Hk & E2 & Hin2).
  injection Hk as <-. rewrite E in Hn |- *. rewrite Hin in Hn |- *.
  cbn [choose_loop] in Hn |- *. unfold st_bind in Hn |- *. rewrite E2 in Hn |- *. now exists w2.
Qed.

(** ** The menu, as the user reads it *)

(** The lines [print_menu i] writes for foods named [names]. *)
Fixpoint menu_events (i : Z) (names : list json) : list out_event :=
  match names with
  | [] => []
  | name :: rest => OLine [PVal (JInt i); PLit ". "; PVal name] :: menu_events (i + 1)%Z rest
  end.

Lemma print_menu_out i foods names w :
  Forall2 (fun food name => getitem food (KStr "food") = Ok name) foods names ->
  exists w', print_menu i foods w = (Ok tt, w') /\ w_in w' = w_in w /\
             w_out w' = w_out w ++ menu_events i names.
Proof.
  intros H. revert i w. induction H as [|food name foods names Hn _ IH]; intros i w.
  - exists w. now rewrite app_nil_r.
  - simpl. unfold getitemM, lift, print, emit, st_bind at 1. rewrite Hn. simpl.
    unfold st_bind. cbv beta iota.
    match goal with
    | |- context [print_menu (i + 1)%Z foods ?w1] =>
        destruct (IH (i + 1)%Z w1) as (w' & E & Hin & Hout)
    end.
    exists w'. rewrite E. simpl in Hin, Hout. rewrite Hout, <- app_assoc. now repeat split.
Qed.

Lemma nth_menu_events i names j name :
  nth_error names j = Some name ->
  In (OLine [PVal (JInt (i + Z.of_nat j)); PLit ". "; PVal name]) (menu_events i names).
Proof.
  revert i j. induction names as [|n names IH]; intros i [|j] Hj; try discriminate Hj.
  - injection Hj as <-. left. now rewrite Z.add_0_r.
  - right. replace (i + Z.of_nat (S j))%Z with (i + 1 + Z.of_nat j)%Z by lia. now apply IH.
Qed.

Lemma choose_once_out l : frame out_grows (choose_once l).
Proof. unfold choose_once. frame_solve. Qed.

(** The line [str(k)] is a valid choice of a menu of at least [k] items. *)
Lemma valid_choice_number n k :
  (1 <= k <= n)%Z -> (k < 10 ^ 4300)%Z ->
  valid_choice n (string_of_list_ascii (py_str (JInt k))) = Some k.
Proof.
  intros Hk Hb. unfold valid_choice. cbn [py_str py_repr].
  rewrite string_of_list_ascii_of_string, int_of_str_py_str_int
    by (rewrite Z.abs_eq by lia; exact Hb).
  clear Hb. replace ((1 <=? k) && (k <=? n))%Z with true by (symmetry; apply andb_true_intro; split; apply Z.leb_le; lia).
  reflexivity.
Qed.

(** The menu is printed, then the loop runs on the input as it was. *)
Lemma display_menu foods names w :
  Forall2 (fun food name => getitem food (KStr "food") = Ok name) foods names ->
  exists w1, w_in w1 = w_in w /\
    w_out w1 = w_out w ++ OLine [PLit "Available foods:"] :: menu_events 1 names /\
    display_and_choose_food (JArr foods) w
    = choose_loop (S (List.length (w_in w))) (JArr foods) w1.
Proof.
  intros Hf. unfold display_and_choose_food, print, emit, lift, st_bind at 1 2. simpl.
  destruct (print_menu_out 1 foods names
              {| w_out := w_out w ++ [OLine [PLit "Available foods:"]]; w_in := w_in w;
                 w_http := w_http w; w_clock := w_clock w; w_ready := w_ready w |} Hf)
    as (w1 & E & Hin & Hout).
  exists w1. unfold st_bind. rewrite E. simpl in Hin, Hout.
  rewrite Hout, <- app_assoc. now rewrite Hin.
Qed.

(** C26. The menu numbers are the choices: the menu shows food [k] on the
    line [str(k). name], and typing back the number [str(k)] the menu
    shows selects food [k] (for menus of fewer than [10^4300] items, the
    limit of [int()]). *)
Theorem menu_number_selects foods names k food name rest w :
  Forall2 (fun food name => getitem food (KStr "food") = Ok name) foods names ->
  nth_error foods (Z.to_nat (k - 1)) = Some food ->
  nth_error names (Z.to_nat (k - 1)) = Some name ->
  (1 <= k < 10 ^ 4300)%Z ->
  w_in w = string_of_list_ascii (py_str (JInt k)) :: rest ->
  exists w' line, display_and_choose_food (JArr foods) w = (Ok food, w') /\ w_in w' = rest /\
    In line (w_out w') /\
    event_text line = py_str (JInt k) ++ list_ascii_of_string ". " ++ py_str name ++ ["010"%char].
Proof.
  intros Hf Hfood Hname Hk Hin. remember (10 ^ 4300)%Z as bound.
  destruct (display_menu foods names w Hf) as (w1 & Hin1 & Hout1 & ->).
  assert (Hn : (k <= Z.of_nat (List.length foods))%Z).
  { assert (Hl : nth_error foods (Z.to_nat (k - 1)) <> None) by congruence.
    apply nth_error_Some in Hl. lia. }
  destruct (choose_once_valid foods w1 _ rest k (eq_trans Hin1 Hin)
              (valid_choice_number (Z.of_nat (List.length foods)) k ltac:(lia)
                 ltac:(subst bound; apply Hk)))
    as (w2 & food' & Hk' & E & Hin2).
  rewrite Hfood in Hk'. injection Hk' as <-.
  destruct (choose_once_out (JArr foods) w1) as [l Hl]. rewrite E in Hl. cbn [snd] in Hl.
  exists w2, (OLine [PVal (JInt k); PLit ". "; PVal name]).
  simpl. unfold st_bind. rewrite E. split; [reflexivity|]. split; [exact Hin2|]. split.
  - rewrite Hl, Hout1. apply in_or_app. left. apply in_or_app. right. right.
    replace k with (1 + Z.of_nat (Z.to_nat (k - 1)))%Z at 1 by lia.
    now apply nth_menu_events.
  - unfold event_text, render. cbn [flat_map]. now rewrite app_nil_r, <- !app_assoc.
Qed.

(** ** Concrete runs *)

Definition two_foods : list json :=
  [JObj [("foodId", JInt 7); ("food", JStr "kabab")];
   JObj [("foodId", JInt 8); ("food", JStr "ash")]].

Lemma display_and_choose_food_picks_witness :
  exists food w', nth_error two_foods (Z.to_nat (2 - 1)) = Some food /\
    display_and_choose_food (JArr two_foods) (init_world ["x"; "5"; "2"; "tail"])
    = (Ok food, w') /\ w_in w' = ["tail"].
Proof.
  apply (display_and_choose_food_picks two_foods ["x"; "5"] "2" ["tail"] 2).
  - repeat constructor; eexists; reflexivity.
  - reflexivity.
  - repeat constructor.
  - reflexivity.
Defined.

Lemma display_and_choose_food_eof_witness :
  exists w', display_and_choose_food (JArr two_foods) (init_world ["0"; "abc"; " 3 "])
             = (Exc EOFError, w') /\ w_in w' = [].
Proof.
  apply display_and_choose_food_eof.
  - repeat constructor; eexists; reflexivity.
  - repeat constructor.
Defined.

Lemma menu_number_selects_witness :
  exists w' line,
    display_and_choose_food (JArr two_foods) (init_world ["2"; "tail"]) = (Ok (nth 1 two_foods JNull), w')
    /\ w_in w' = ["tail"] /\ In line (w_out w') /\
    event_text line = py_str (JInt 2) ++ list_ascii_of_string ". " ++ py_str (JStr "ash") ++ ["010"%char].
Proof.
  apply (menu_number_selects two_foods [JStr "kabab"; JStr "ash"] 2).
  - repeat constructor.
  - reflexivity.
  - reflexivity.
  - split; [lia|apply Z.ltb_lt; vm_compute; reflexivity].
  - reflexivity.
Defined.
