(* ===== verification/Reserve.v ===== *)
(** * [main] and [asyncio.run(main(...))] (reserve.py 57-102)

    [main] logs in, walks the days [today + 0 .. today + 35], skips the
    days its two weekday tests reject, fetches the foods of every other
    day, picks one (lazily or interactively), and queues one
    [reserve_food] task per picked day; then it awaits the gather of the
    tasks.  [main_day] is one iteration of the [for] loop, [main_prefix]
    is [main] up to its [await], and [program] is the whole process run by
    [asyncio.run] (the command line of lines 91-101 gives the four
    arguments of [main]). *)

From Stdlib Require Import ZArith String List Bool Lia Sorting.Sorted.
From S2P Require Import Prelude Json Runtime Calendar EventLoop Http PyInt Selector.
Import ListNotations.
Open Scope string_scope.
Open Scope st_scope.
Open Scope list_scope.

(** The command line: [--username], [--password], [--include-thursdays],
    [--lazy-mode]. *)
Record args := mkArgs {
  username : string;
  password : string;
  include_thursdays : bool;
  lazy_mode : bool
}.

Section Main.
Context (srv : server) (a : args) (today : Z).

(** Lines 74-86: what [main] does with the decoded answer of the fetch
    for the date [current_date_str]. *)
Definition handle_reserves (token : json) (reserves : list coro)
           (current_date_str : string) (reserves_response : json) : PyM (list coro) :=
  status <- getitemM reserves_response (KStr "status") ;;
  if py_eq_str status "OK" then
    reserves_list <- getitemM reserves_response (KStr "data") ;;
    has_food <- (if truthy reserves_list then
                   first <- getitemM reserves_list (KInt 0) ;;
                   foods <- getitemM first (KStr "reserves") ;;
                   st_ret (truthy foods)
                 else st_ret false) ;;
    if has_food then
      first <- getitemM reserves_list (KInt 0) ;;
      foods <- getitemM first (KStr "reserves") ;;
      chosen_food <- (if lazy_mode a then getitemM foods (KInt 0)
                      else display_and_choose_food foods) ;;
      let task := ReserveFood token current_date_str chosen_food in
      create_task task ;;
      st_ret (reserves ++ [task])%list
    else
      print [PLit "No reserves available for "; PLit current_date_str; PLit "."] ;;
      st_ret reserves
  else
    msg <- getitemM reserves_response (KStr "message") ;;
    print [PLit "Failed to get reserves: "; PVal msg; PLit ", date: ";
           PLit current_date_str] ;;
    st_ret reserves.

(** One iteration of [for day in range(36)], threading [reserves]. *)
Definition main_day (token : json) (reserves : list coro) (day : nat)
  : PyM (list coro) :=
  current_date <- lift (add_days today (Z.of_nat day)) ;;
  let current_date_str := strftime_date current_date in
  if (weekday current_date =? 4)%Z && negb (include_thursdays a) then
    print [PLit "Skipping Thursday: "; PLit current_date_str] ;;
    st_ret reserves
  else if (weekday current_date =? 5)%Z then st_ret reserves
  else
    reserves_response <- get_reserves srv token current_date_str ;;
    handle_reserves token reserves current_date_str reserves_response.

(** [main] up to [await asyncio.gather( *reserves)]: the tasks it
    created, in order. *)
Definition main_prefix : PyM (list coro) :=
  token <- get_bearer_token srv (username a) (password a) ;;
  st_fold (main_day token) [] (seq 0 36).

(** [asyncio.run(main(...))]: the outcome of the process and its final
    state. *)
Definition program (w0 : world) : pyres unit * world :=
  @asyncio_run (reserve_food_runner srv) _ main_prefix w0.
End Main.

(** ** The day filter, as a predicate on ordinals *)

(** A day passes both weekday tests of [main]. *)
Definition eligible (include : bool) (o : Z) : bool :=
  negb ((weekday o =? 4)%Z && negb include) && negb (weekday o =? 5)%Z.

Lemma eligible_spec include o :
  eligible include o = true ->
  weekday o <> 5 /\ (include = false -> weekday o <> 4).
Proof.
  unfold eligible. intros H. apply andb_prop in H as [H4 H5].
  apply negb_true_iff in H4, H5. apply Z.eqb_neq in H5. split; [exact H5|].
  intros -> E4. rewrite E4 in H4. discriminate H4.
Qed.

Lemma eligible_true include o :
  eligible include o = true ->
  ((weekday o =? 4)%Z && negb include) = false /\ (weekday o =? 5)%Z = false.
Proof.
  unfold eligible. intros H. apply andb_prop in H as [H4 H5].
  now apply negb_true_iff in H4, H5.
Qed.

(** The day filter looks at the weekday only. *)
Lemma eligible_weekday include o o' : weekday o = weekday o' -> eligible include o = eligible include o'.
Proof. unfold eligible. now intros ->. Qed.

(** Over a window of days, the number of days that pass the filter
    depends on the weekday of the first one only. *)
Lemma eligible_count_shift include t t' l :
  weekday t = weekday t' ->
  List.length (filter (eligible include) (map (fun d => t + Z.of_nat d)%Z l))
  = List.length (filter (eligible include) (map (fun d => t' + Z.of_nat d)%Z l)).
Proof.
  intros Hw. induction l as [|d l IH]; simpl; [reflexivity|].
  rewrite (eligible_weekday include (t + Z.of_nat d) (t' + Z.of_nat d))
    by now rewrite !weekday_add, Hw.
  destruct (eligible include _); simpl; now rewrite IH.
Qed.

Definition is_get (r : request) : bool := match rq_method r with GET => true | _ => false end.

Definition is_put (r : request) : bool := match rq_method r with PUT => true | _ => false end.

(** A request about one date: its fetch, or a reservation for it. *)
Definition dated_request (token : json) (date : string) (r : request) : Prop :=
  r = get_reserves_request token date
  \/ exists food_id, r = put_reserves_request token (reserve_body date food_id).

(** Run a [main_day] computation symbolically: split on the innermost
    undecided test, and replace a selector run by its footprint. *)
Ltac run_day :=
  repeat (simpl in *; first
    [ match goal with
      | |- context [match display_and_choose_food ?l ?w with _ => _ end] =>
          let Hf := fresh "Hf" in
          pose proof (display_and_choose_food_net l w) as Hf;
          destruct (display_and_choose_food l w) eqn:?; simpl in Hf;
          let H1 := fresh in let H2 := fresh in let H3 := fresh in
          injection Hf as H1 H2 H3
      end
    | case_match ]); simpl in *.

(** Close the goals [run_day] leaves: rewrite the footprints, pick the
    list of created tasks, and check each component. *)
Ltac close_day :=
  repeat match goal with
  | H : w_http ?x = _ |- context [w_http ?x] => rewrite H
  | H : w_clock ?x = _ |- context [w_clock ?x] => rewrite H
  | H : w_ready ?x = _ |- context [w_ready ?x] => rewrite H
  end;
  simpl; repeat split;
  try match goal with
  | |- exists l, _ ++ [?c] = _ ++ l /\ _ => exists [c]
  | |- exists l, _ => exists []
  end;
  repeat split;
  try (rewrite ?map_app, ?app_nil_r; reflexivity);
  try (intros ? Hrs; inversion Hrs; subst; rewrite ?app_nil_r; reflexivity);
  try (intros ? Hrs; discriminate Hrs);
  repeat constructor;
  try (do 2 eexists; split; [reflexivity|split; [|reflexivity]];
       repeat match goal with H : _ = _ |- _ => rewrite H end; reflexivity).

Section DayLoop.
Context (srv : server) (a : args) (today : Z).

(** The fetch [main_day] sends for day [day]: one, for an eligible day
    that does not overflow the calendar, none otherwise. *)
Definition day_gets (token : json) (day : nat) : list request :=
  match add_days today (Z.of_nat day) with
  | Ok o => if eligible (include_thursdays a) o
            then [get_reserves_request token (strftime_date o)] else []
  | Exc _ => []
  end.

(** A task [main_day] may create for day [day]. *)
Definition day_task (token : json) (day : nat) (c : coro) : Prop :=
  exists o food, add_days today (Z.of_nat day) = Ok o
                 /\ eligible (include_thursdays a) o = true
                 /\ c = ReserveFood token (strftime_date o) food.

Lemma in_day_gets token d req :
  In req (day_gets token d) ->
  exists o, add_days today (Z.of_nat d) = Ok o /\ eligible (include_thursdays a) o = true
            /\ req = get_reserves_request token (strftime_date o).
Proof.
  unfold day_gets. destruct (add_days today (Z.of_nat d)) as [o|e]; [|intros []].
  case_if; intros Hin; [|destruct Hin]. destruct Hin as [<-|[]]. eauto.
Qed.

(** The footprint of one iteration, on every path: the requests it
    sends, the clock it leaves alone, and the (at most one) task it
    queues, which is also what it appends to [reserves] when it returns. *)
Lemma main_day_effect token reserves day w :
  let r := main_day srv a today token reserves day w in
  map snd (w_http (snd r)) = map snd (w_http w) ++ day_gets token day /\
  w_clock (snd r) = w_clock w /\
  (exists l, w_ready (snd r) = w_ready w ++ l /\ Forall (day_task token day) l /\
     (List.length l <= 1)%nat /\ (forall rs, fst r = Ok rs -> rs = reserves ++ l)).
Proof.
  unfold main_day, handle_reserves, day_gets, day_task, eligible, get_reserves, getitemM, lift, print,
    emit, create_task, send, resp_json, st_bind, st_ret, st_raise.
  run_day; close_day.
Qed.

(** The state of the day loop after the days [done]: relative to the
    request log [h0], clock [c0] and ready queue [q0] at its start, the
    fetches of those days were sent, the clock did not move, and the
    tasks queued (which are [reserves]) are at most one per day, each
    for an eligible date of its day. *)
Definition tasks_for (token : json) (done : list nat) (reserves : list coro) : Prop :=
  exists ls, reserves = concat ls /\
    Forall2 (fun d l => Forall (day_task token d) l /\ (List.length l <= 1)%nat) done ls.

Lemma tasks_for_in token done reserves c :
  tasks_for token done reserves -> In c reserves -> exists d, In d done /\ day_task token d c.
Proof.
  intros (ls & -> & H2) Hin. apply in_concat in Hin as (l & Hl & Hc).
  induction H2 as [|d l' done' ls' [Hf _] _ IH]; [destruct Hl|].
  destruct Hl as [<-|Hl].
  - exists d. split; [now left|]. now apply (proj1 (Forall_forall _ _) Hf).
  - destruct (IH Hl) as (d' & Hd' & Ht). exists d'. split; [now right|exact Ht].
Qed.

Definition day_inv (token : json) (h0 : list request) (c0 : Z) (q0 : list coro)
           (done : list nat) (reserves : list coro) (w : world) : Prop :=
  map snd (w_http w) = h0 ++ flat_map (day_gets token) done /\
  w_clock w = c0 /\
  w_ready w = q0 ++ reserves /\
  tasks_for token done reserves.

Lemma main_day_inv token h0 c0 q0 done reserves day w :
  day_inv token h0 c0 q0 done reserves w ->
  match main_day srv a today token reserves day w with
  | (Ok reserves', w') => day_inv token h0 c0 q0 (done ++ [day]) reserves' w'
  | (Exc _, w') => exists reserves', day_inv token h0 c0 q0 (done ++ [day]) reserves' w'
  end.
Proof.
  intros (Hh & Hc & Hq & ls & -> & Hls).
  pose proof (main_day_effect token (concat ls) day w) as (Eh & Ec & l & Eq & Hl & Hlen & Er).
  assert (Hinv : day_inv token h0 c0 q0 (done ++ [day]) (concat ls ++ l)
                   (snd (main_day srv a today token (concat ls) day w))).
  { split; [rewrite Eh, Hh, flat_map_app; simpl; now rewrite app_nil_r, app_assoc|].
    split; [congruence|]. split; [rewrite Eq, Hq; symmetry; apply app_assoc|].
    exists (ls ++ [l]). split; [rewrite concat_app; simpl; now rewrite app_nil_r|].
    apply Forall2_app; auto. }
  destruct (main_day srv a today token (concat ls) day w) as [[rs|e] w'].
  - simpl in Er. now rewrite (Er rs eq_refl).
  - now exists (concat ls ++ l).
Qed.

(** After the login, [main] raises nothing that escapes the loop. *)
Lemma main_day_not_base token reserves day :
  raises_only not_base (main_day srv a today token reserves day).
Proof. unfold main_day, handle_reserves, get_reserves. raises_solve. Qed.

(** [main] up to its [await]: after the login request, the fetches of
    the days it got through (all 36 when it returns), and the tasks
    for those days; if the login fails, nothing else. *)
Lemma main_prefix_trace w0 :
  let r := main_prefix srv a today w0 in
  let h0 := map snd (w_http w0) ++ [login_request (username a) (password a)] in
  (exists e, fst (get_bearer_token srv (username a) (password a) w0) = Exc e
             /\ fst r = Exc e /\ map snd (w_http (snd r)) = h0
             /\ w_clock (snd r) = w_clock w0 /\ w_ready (snd r) = w_ready w0)
  \/ (exists token done rest reserves,
       fst (get_bearer_token srv (username a) (password a) w0) = Ok token
       /\ seq 0 36 = done ++ rest
       /\ day_inv token h0 (w_clock w0) (w_ready w0) done reserves (snd r)
       /\ (forall rs, fst r = Ok rs -> rest = [] /\ rs = reserves)
       /\ (forall e, fst r = Exc e -> is_base_only e = false)).
Proof.
  cbv zeta. unfold main_prefix, st_bind.
  pose proof (get_bearer_token_effect srv (username a) (password a) w0) as (Eh & Ec & Eq).
  destruct (get_bearer_token srv (username a) (password a) w0) as [[token|e] w1];
    cbn [fst snd] in *; [right|left; exists e; repeat split; auto].
  set (h0 := map snd (w_http w0) ++ [login_request (username a) (password a)]).
  assert (H0 : day_inv token h0 (w_clock w0) (w_ready w0) [] [] w1).
  { repeat split; cbn; rewrite ?app_nil_r; auto. now exists []. }
  pose proof (st_fold_trace (day_inv token h0 (w_clock w0) (w_ready w0))
              (main_day srv a today token)
              (fun done acc x s H => main_day_inv token _ _ _ done acc x s H)
              (seq 0 36) [] [] w1 H0) as Hf.
  pose proof (raises_fold not_base (main_day srv a today token)
                (main_day_not_base token) (seq 0 36) [] w1) as Hnb.
  destruct (st_fold (main_day srv a today token) [] (seq 0 36) w1) as [[rs|e] w2].
  - exists token, (seq 0 36), [], rs. rewrite app_nil_r.
    split; [reflexivity|]. split; [reflexivity|]. split; [exact Hf|]. split; [|intros ? Hr; discriminate Hr].
    intros ? Hr. cbn in Hr. injection Hr as <-. auto.
  - destruct Hf as (l1 & l2 & acc & Hl & HI).
    exists token, l1, l2, acc. split; [reflexivity|]. split; [exact Hl|]. split; [exact HI|].
    split; [intros ? Hr; discriminate Hr|]. exact Hnb.
Qed.
End DayLoop.

(** ** One day, case by case *)

(** In lazy mode, an answer with a food queues a reservation of the
    first food. *)
Lemma handle_reserves_lazy a token reserves date body entry rest_data food rest_foods w :
  lazy_mode a = true ->
  getitem body (KStr "status") = Ok (JStr "OK") ->
  getitem body (KStr "data") = Ok (JArr (entry :: rest_data)) ->
  getitem entry (KStr "reserves") = Ok (JArr (food :: rest_foods)) ->
  let r := handle_reserves a token reserves date body w in
  fst r = Ok (reserves ++ [ReserveFood token date food]) /\
  w_ready (snd r) = w_ready w ++ [ReserveFood token date food].
Proof.
  intros Hlazy Hst Hdata Hres. cbv zeta.
  unfold handle_reserves, getitemM, lift, create_task, st_bind, st_ret.
  rewrite Hst. cbn. rewrite Hdata. cbn. rewrite Hres, Hlazy. cbn. now split.
Qed.

(** A day the weekday tests reject is passed over without a request. *)
Lemma main_day_not_eligible srv a today token reserves day w o :
  add_days today (Z.of_nat day) = Ok o -> eligible (include_thursdays a) o = false ->
  fst (main_day srv a today token reserves day w) = Ok reserves.
Proof.
  intros Hday He. unfold eligible in He. unfold main_day, lift, print, emit, st_bind, st_ret.
  rewrite Hday. cbn beta iota.
  destruct ((weekday o =? 4)%Z && negb (include_thursdays a)); [reflexivity|].
  destruct (weekday o =? 5)%Z; [reflexivity|discriminate He].
Qed.


(** The day [day] is the eligible date [o], and the fetch for it is
    answered with the decoded body [body]. *)
Section DayCases.
Context (srv : server) (a : args) (today : Z) (token : json) (reserves : list coro)
        (day : nat) (w : world) (o : Z) (resp : response) (body : json).
Hypothesis Hday : add_days today (Z.of_nat day) = Ok o.
Hypothesis Helig : eligible (include_thursdays a) o = true.
Hypothesis Hsrv : srv (map snd (w_http w)) (get_reserves_request token (strftime_date o))
                  = Some resp.
Hypothesis Hbody : resp_body resp = Some body.

Definition fetched_world : world :=
  {| w_out := w_out w; w_in := w_in w;
     w_http := w_http w ++ [(w_clock w, get_reserves_request token (strftime_date o))];
     w_clock := w_clock w; w_ready := w_ready w |}.

Lemma main_day_fetch :
  main_day srv a today token reserves day w
  = handle_reserves a token reserves (strftime_date o) body fetched_world.
Proof.
  destruct (eligible_true _ _ Helig) as [E4 E5].
  unfold main_day, get_reserves, send, resp_json, lift, st_bind.
  rewrite Hday. cbv beta iota. rewrite E4, E5, Hsrv. cbv beta iota.
  rewrite Hbody. reflexivity.
Qed.

(** C10. In lazy mode, a day whose answer has status ["OK"] and a
    non-empty food list in its first entry queues a reservation of the
    first food of that list for the day's date, and the loop goes on. *)
Theorem main_day_lazy_first entry rest_data food rest_foods :
  lazy_mode a = true ->
  getitem body (KStr "status") = Ok (JStr "OK") ->
  getitem body (KStr "data") = Ok (JArr (entry :: rest_data)) ->
  getitem entry (KStr "reserves") = Ok (JArr (food :: rest_foods)) ->
  let r := main_day srv a today token reserves day w in
  fst r = Ok (reserves ++ [ReserveFood token (strftime_date o) food]) /\
  w_ready (snd r) = w_ready w ++ [ReserveFood token (strftime_date o) food].
Proof.
  intros Hlazy Hst Hdata Hres. cbv zeta. rewrite main_day_fetch.
  exact (handle_reserves_lazy a token reserves (strftime_date o) body entry rest_data food rest_foods
           fetched_world Hlazy Hst Hdata Hres).
Qed.

(** C11. A day whose answer does not have status ["OK"] prints the
    service's message with the date, queues nothing, and lets the loop go
    on to the next day. *)
Theorem main_day_status_not_ok status msg :
  getitem body (KStr "status") = Ok status -> py_eq_str status "OK" = false ->
  getitem body (KStr "message") = Ok msg ->
  let r := main_day srv a today token reserves day w in
  fst r = Ok reserves /\ w_ready (snd r) = w_ready w /\
  w_out (snd r) = w_out w ++ [OLine [PLit "Failed to get reserves: "; PVal msg;
                                     PLit ", date: "; PLit (strftime_date o)]].
Proof.
  intros Hst Hok Hmsg. cbv zeta. rewrite main_day_fetch.
  unfold handle_reserves, getitemM, lift, print, emit, st_bind, st_ret.
  rewrite Hst. cbn. rewrite Hok, Hmsg. cbn. now repeat split.
Qed.

(** C12. A day whose answer has status ["OK"] but no food (an empty or
    false [data], or an empty first food list) prints that nothing is
    available, queues nothing, and lets the loop go on. *)
Theorem main_day_no_food data :
  getitem body (KStr "status") = Ok (JStr "OK") ->
  getitem body (KStr "data") = Ok data ->
  (truthy data = false \/
   exists entry foods, getitem data (KInt 0) = Ok entry /\
     getitem entry (KStr "reserves") = Ok foods /\ truthy foods = false) ->
  let r := main_day srv a today token reserves day w in
  fst r = Ok reserves /\ w_ready (snd r) = w_ready w /\
  w_out (snd r) = w_out w ++ [OLine [PLit "No reserves available for ";
                                     PLit (strftime_date o); PLit "."]].
Proof.
  intros Hst Hdata Hempty. cbv zeta. rewrite main_day_fetch.
  unfold handle_reserves, getitemM, lift, print, emit, st_bind, st_ret.
  rewrite Hst. cbn. rewrite Hdata. cbn.
  destruct Hempty as [Hf|(entry & foods & He & Hr & Hf)].
  - rewrite Hf. cbn. now repeat split.
  - destruct (truthy data); [rewrite He; cbn; rewrite Hr; cbn; rewrite Hf|]; cbn;
      now repeat split.
Qed.
End DayCases.

(** ** The weekday tests *)

Section Weekdays.
Context (srv : server) (a : args) (today : Z) (token : json) (reserves : list coro)
        (day : nat) (w : world) (o : Z).
Hypothesis Hinc : include_thursdays a = false.
Hypothesis Hday : add_days today (Z.of_nat day) = Ok o.

(** C16. Without [--include-thursdays], the days [main] skips with the
    message "Skipping Thursday" are Fridays (weekday index 4): nothing is
    fetched and nothing queued for them; a Thursday (index 3) is fetched
    like any other day. *)
Theorem main_day_skips_fridays :
  let r := main_day srv a today token reserves day w in
  (weekday_name o = "Friday" ->
     fst r = Ok reserves /\ w_http (snd r) = w_http w /\ w_ready (snd r) = w_ready w /\
     w_out (snd r) = w_out w ++ [OLine [PLit "Skipping Thursday: "; PLit (strftime_date o)]]) /\
  (weekday_name o = "Thursday" ->
     map snd (w_http (snd r)) = map snd (w_http w) ++ [get_reserves_request token (strftime_date o)]).
Proof.
  cbv zeta. destruct (weekday_name_index o) as [Hthu Hfri]. split.
  - intros Hn. unfold main_day, lift, print, emit, st_bind, st_ret.
    rewrite Hday, (Hfri Hn), Hinc. cbn. now repeat split.
  - intros Hn. destruct (main_day_effect srv a today token reserves day w) as (Eh & _).
    rewrite Eh. unfold day_gets. rewrite Hday.
    unfold eligible. rewrite (Hthu Hn), Hinc. reflexivity.
Qed.
End Weekdays.

(** ** Timing of the submissions *)

Definition count_ok (rs : list (pyres unit)) : Z := Z.of_nat (List.length (filter is_ok rs)).

(** When each task's PUT is sent: task [k] starts once the tasks before it
    have ended, that is after 10 seconds for each of them that ended
    normally (and so slept). *)
Fixpoint put_schedule (t : Z) (cs : list coro) (rs : list (pyres unit)) : list (Z * request) :=
  match cs, rs with
  | c :: cs', r :: rs' =>
      map (pair t) (coro_requests c) ++ put_schedule (t + if is_ok r then 10 else 0) cs' rs'
  | _, _ => []
  end.

Lemma put_schedule_snoc t cs rs c r :
  List.length cs = List.length rs ->
  put_schedule t (cs ++ [c]) (rs ++ [r])
  = put_schedule t cs rs ++ map (pair (t + 10 * count_ok rs)%Z) (coro_requests c).
Proof.
  revert t rs. induction cs as [|c' cs IH]; intros t [|r' rs] Hl; try discriminate Hl.
  - cbn [app put_schedule]. unfold count_ok. cbn [filter List.length].
    now rewrite Z.mul_0_r, Z.add_0_r, !app_nil_r.
  - cbn [List.length] in Hl. cbn [app put_schedule]. rewrite IH by lia. rewrite app_assoc.
    replace (t + (if is_ok r' then 10 else 0) + 10 * count_ok rs)%Z
      with (t + 10 * count_ok (r' :: rs))%Z; [reflexivity|].
    unfold count_ok. cbn [filter]. destruct (is_ok r'); cbn [List.length]; lia.
Qed.

(** ** The whole run *)

Section Program.
Context (srv : server) (a : args) (today : Z).

(** The queue after [main] returns or raises holds its tasks in order,
    and running them adds their PUTs to the log in that order. *)
Lemma drain_requests w h :
  map snd (w_http w) = h ->
  exists w' results, @drain (reserve_food_runner srv) w = Running w' results
    /\ map snd (w_http w') = h ++ flat_map coro_requests (w_ready w)
    /\ (w_clock w' <= w_clock w + 10 * Z.of_nat (List.length (w_ready w)))%Z.
Proof.
  intros Hh.
  assert (Hstep : forall ran (results : list (pyres unit)) c q w1,
             map snd (w_http w1) = h ++ flat_map coro_requests ran /\
             (w_clock w1 <= w_clock w + 10 * Z.of_nat (List.length ran))%Z ->
             w_ready w1 = c :: q ->
             let w2 := snd (run_coro srv c (set_ready q w1)) in
             map snd (w_http w2) = h ++ flat_map coro_requests (ran ++ [c]) /\
             (w_clock w2 <= w_clock w + 10 * Z.of_nat (List.length (ran ++ [c])))%Z).
  { intros ran results c q w1 [HI Hc] _. cbv zeta.
    destruct (run_coro_effect srv c (set_ready q w1)) as (Eh & Ec & _).
    rewrite Eh, map_app, flat_map_app. cbn [set_ready w_http w_clock] in *. rewrite HI. cbn [flat_map].
    rewrite map_map, app_nil_r, <- app_assoc, map_id. split; [reflexivity|].
    rewrite Ec, length_app. cbn [List.length].
    destruct (is_ok _); lia. }
  destruct (@drain_spec (reserve_food_runner srv)
              (fun c w e => proj2 (proj2 (proj2 (run_coro_effect srv c w))) e)
              (fun ran _ w' => map snd (w_http w') = h ++ flat_map coro_requests ran /\
                 (w_clock w' <= w_clock w + 10 * Z.of_nat (List.length ran))%Z)
              Hstep w)
    as (w' & results & Hd & HI & _).
  - simpl. rewrite app_nil_r. split; [exact Hh|lia].
  - exists w', results. now split.
Qed.

(** The shape of the request log of a whole run: the login, then the
    fetches of the days [main] got through, in day order, then the PUTs
    of the tasks it queued, in queue order; the tasks are at most one per
    day, each for an eligible date of its day; the token is the one the
    login returned, and when the login raises there are no fetches and no
    tasks.  This holds for every server, every input and every outcome of
    the run. *)
Theorem program_trace stdin :
  let res := program srv a today (init_world stdin) in
  exists token done rest reserves,
    match fst (get_bearer_token srv (username a) (password a) (init_world stdin)) with
    | Ok t => token = t
    | Exc _ => done = [] /\ reserves = []
    end /\
    seq 0 36 = done ++ rest /\ tasks_for a today token done reserves /\
    (forall rs, fst (main_prefix srv a today (init_world stdin)) = Ok rs -> rest = [] /\ rs = reserves) /\
    map snd (w_http (snd res))
    = login_request (username a) (password a)
        :: flat_map (day_gets a today token) done ++ flat_map coro_requests reserves /\
    (w_clock (snd res) <= 10 * Z.of_nat (List.length reserves))%Z.
Proof.
  unfold program, asyncio_run. cbv zeta.
  pose proof (main_prefix_trace srv a today (init_world stdin)) as HT. cbv zeta in HT.
  destruct (main_prefix srv a today (init_world stdin)) as [r w1]. cbn [fst snd] in HT.
  destruct HT as [(e & Hl & -> & Hh & Hc & Hq)
                 | (token & done & rest & reserves & Hl & Hs & (Hh & Hc & Hq & Ht) & Hr & Hnb)].
  - exists JNull, [], (seq 0 36), []. split; [rewrite Hl; split; reflexivity|].
    split; [reflexivity|].
    split; [exists []; split; constructor|]. split; [intros ? Hr; discriminate Hr|].
    destruct (drain_requests w1 _ Hh) as (w' & results & Hd & Hh' & Hc').
    rewrite Hq, Hc in *. cbn [w_ready w_clock init_world List.length] in *.
    destruct (is_base_only e); [split; [exact Hh|simpl; lia]|].
    rewrite Hd. simpl. rewrite Hh'. split; [reflexivity|lia].
  - exists token, done, rest, reserves. split; [rewrite Hl; reflexivity|].
    split; [exact Hs|]. split; [exact Ht|]. split; [exact Hr|].
    destruct (drain_requests w1 _ Hh) as (w' & results & Hd & Hh' & Hc').
    rewrite Hq, Hc in *. cbn [w_ready w_clock init_world app] in *.
    destruct r as [rs|e]; [|rewrite (Hnb e eq_refl)]; rewrite Hd; cbn [fst snd];
      (split; [rewrite Hh'; simpl; now rewrite <- ?app_assoc|lia]).
Qed.

Lemma day_in_window done rest d : seq 0 36 = done ++ rest -> In d done -> (d < 36)%nat.
Proof.
  intros Hs Hd. assert (Hin : In d (seq 0 36)) by (rewrite Hs; apply in_or_app; now left).
  apply in_seq in Hin. lia.
Qed.

(** C1. Every request a run sends, other than the login, is the fetch or
    the reservation of the date of a day [today + d], [d < 36], whose
    weekday index is not 5, and not 4 unless [--include-thursdays] is
    given. *)
Theorem program_requests_respect_filters stdin req :
  In req (map snd (w_http (snd (program srv a today (init_world stdin))))) ->
  req = login_request (username a) (password a) \/
  exists token d o, (d < 36)%nat /\ add_days today (Z.of_nat d) = Ok o /\
    weekday o <> 5 /\ (include_thursdays a = false -> weekday o <> 4) /\
    dated_request token (strftime_date o) req.
Proof.
  intros Hin.
  destruct (program_trace stdin) as (token & done & rest & reserves & _ & Hs & Ht & _ & Hlog & _).
  rewrite Hlog in Hin. destruct Hin as [<-|Hin]; [now left|right].
  apply in_app_or in Hin as [Hg|Hp].
  - apply in_flat_map in Hg as (d & Hd & Hr). apply in_day_gets in Hr as (o & Ho & He & ->).
    exists token, d, o. pose proof (eligible_spec _ _ He).
    repeat split; try tauto; [exact (day_in_window _ _ _ Hs Hd)|now left].
  - apply in_flat_map in Hp as (c & Hc & Hr).
    destruct (tasks_for_in _ _ _ _ _ _ Ht Hc) as (d & Hd & o & food & Ho & He & ->).
    apply in_coro_requests in Hr as (fid & ->).
    exists token, d, o. pose proof (eligible_spec _ _ He).
    repeat split; try tauto; [exact (day_in_window _ _ _ Hs Hd)|right; eauto].
Qed.

(** C6. When the service answers the login with a status other than 200
    and a ["message"], the run prints that message and ends with
    [SystemExit] (exit status 0) having sent nothing but the login. *)
Theorem program_login_rejected stdin resp body msg :
  srv [] (login_request (username a) (password a)) = Some resp ->
  status_code resp <> 200%Z -> resp_body resp = Some body ->
  getitem body (KStr "message") = Ok msg ->
  let res := program srv a today (init_world stdin) in
  fst res = Exc SystemExit /\ exit_status (fst res) = 0%Z /\
  map snd (w_http (snd res)) = [login_request (username a) (password a)] /\
  w_out (snd res) = [OLine [PLit "Failed to get token:"; PLit " "; PVal msg]].
Proof.
  intros Hs Hc Hb Hm. unfold program, asyncio_run, main_prefix.
  rewrite (st_bind_exc _ _ _ _ _
             (get_bearer_token_rejected srv _ _ (init_world stdin) resp body Hs Hb msg Hc Hm)).
  repeat split.
Qed.

(** C7. When the service accepts the login (status 200) with the token
    [tok], every later request carries the header
    [authorization: Bearer tok]. *)
Theorem program_uses_login_token stdin resp body tok req :
  srv [] (login_request (username a) (password a)) = Some resp ->
  status_code resp = 200%Z -> resp_body resp = Some body ->
  getitem body (KStr "token") = Ok tok ->
  In req (map snd (w_http (snd (program srv a today (init_world stdin))))) ->
  req <> login_request (username a) (password a) ->
  In (auth_header tok) (rq_headers req).
Proof.
  intros Hs Hc Hb Ht Hin Hne.
  pose proof (get_bearer_token_accepted srv _ _ (init_world stdin) resp body Hs Hb tok Hc Ht) as Hl.
  destruct (program_trace stdin) as (token & done & rest & reserves & Htok & Hsq & Htf & _ & Hlog & _).
  rewrite Hl in Htok. rewrite Htok in *. rewrite Hlog in Hin.
  destruct Hin as [<-|Hin]; [congruence|]. apply in_app_or in Hin as [Hg|Hp].
  - apply in_flat_map in Hg as (d & _ & Hr). apply in_day_gets in Hr as (o & _ & _ & ->).
    now left.
  - apply in_flat_map in Hp as (c & Hc' & Hr).
    destruct (tasks_for_in _ _ _ _ _ _ Htf Hc') as (d & _ & o & food & _ & _ & ->).
    apply in_coro_requests in Hr as (fid & ->). now left.
Qed.
(** C14. The event loop runs the queued submissions one after the other:
    every task runs to its end, the PUT of the [k]-th task is sent 10
    seconds after the previous one for each earlier task that ended
    normally, and the clock ends 10 seconds later per task that ended
    normally.  No two submissions overlap. *)
Theorem drain_schedule w :
  exists w' results, @drain (reserve_food_runner srv) w = Running w' results /\
    List.length results = List.length (w_ready w) /\
    w_http w' = w_http w ++ put_schedule (w_clock w) (w_ready w) results /\
    w_clock w' = (w_clock w + 10 * count_ok results)%Z /\ w_ready w' = [].
Proof.
  assert (Hstep : forall ran (results : list (pyres unit)) c q w1,
    (List.length results = List.length ran /\
     w_http w1 = w_http w ++ put_schedule (w_clock w) ran results /\
     w_clock w1 = (w_clock w + 10 * count_ok results)%Z) ->
    w_ready w1 = c :: q ->
    let r := run_coro srv c (set_ready q w1) in
    List.length (results ++ [fst r]) = List.length (ran ++ [c]) /\
    w_http (snd r) = w_http w ++ put_schedule (w_clock w) (ran ++ [c]) (results ++ [fst r]) /\
    w_clock (snd r) = (w_clock w + 10 * count_ok (results ++ [fst r]))%Z).
  { intros ran results c q w1 (Hl & Hh & Hc) _. cbv zeta.
    destruct (run_coro_effect srv c (set_ready q w1)) as (Eh & Ec & _).
    cbn [set_ready w_http w_clock] in Eh, Ec.
    rewrite !length_app, Hl. split; [reflexivity|].
    rewrite Eh, Ec, Hh, put_schedule_snoc, Hc, <- app_assoc by exact (eq_sym Hl).
    split; [reflexivity|].
    unfold count_ok. rewrite filter_app, length_app.
    destruct (is_ok (fst (run_coro srv c (set_ready q w1)))) eqn:Eok;
      cbn [filter List.length]; rewrite ?Eok; cbn [List.length]; lia. }
  destruct (@drain_spec (reserve_food_runner srv)
              (fun c w e => proj2 (proj2 (proj2 (run_coro_effect srv c w))) e)
              (fun ran results w' => List.length results = List.length ran /\
                 w_http w' = w_http w ++ put_schedule (w_clock w) ran results /\
                 w_clock w' = (w_clock w + 10 * count_ok results)%Z)
              Hstep w)
    as (w' & results & Hd & (Hl & Hh & Hc) & Hq).
  - split; [reflexivity|split; [cbn; now rewrite app_nil_r|]].
    unfold count_ok. cbn [filter List.length]. lia.
  - exists w', results. now repeat split.
Qed.

(** C15. When [main] stops on an exception after queueing tasks (an
    [EOFError] at a prompt, an [OverflowError] of the calendar, a missing
    key in an answer), the run still ends with that exception, but only
    after every queued reservation has been submitted. *)
Theorem program_main_failure_submits stdin e :
  fst (main_prefix srv a today (init_world stdin)) = Exc e -> is_base_only e = false ->
  let w1 := snd (main_prefix srv a today (init_world stdin)) in
  let res := program srv a today (init_world stdin) in
  fst res = Exc e /\
  map snd (w_http (snd res)) = map snd (w_http w1) ++ flat_map coro_requests (w_ready w1).
Proof.
  intros He Hb. unfold program, asyncio_run. cbv zeta.
  destruct (main_prefix srv a today (init_world stdin)) as [r w1]. cbn [fst snd] in *.
  subst r. rewrite Hb.
  destruct (drain_requests w1 _ eq_refl) as (w' & results & Hd & Hh & _). rewrite Hd.
  now split.
Qed.

(** C13. All fetches come before all reservations in the request log: a
    PUT is never followed by a GET, because the tasks only start when
    [main] has finished its day loop. *)
Theorem program_fetches_before_reservations stdin i j ri rj :
  let log := map snd (w_http (snd (program srv a today (init_world stdin)))) in
  nth_error log i = Some ri -> nth_error log j = Some rj ->
  rq_method ri = PUT -> rq_method rj = GET -> (j < i)%nat.
Proof.
  cbv zeta. intros Hi Hj Pi Gj.
  destruct (program_trace stdin) as (token & done & rest & reserves & _ & _ & Ht & _ & Hlog & _).
  rewrite Hlog, app_comm_cons in Hi, Hj.
  refine (nth_error_app_separated (fun r => rq_method r <> PUT) (fun r => rq_method r = PUT)
            _ _ i j ri rj _ _ _ Hi Hj Pi _); [| |intros z Hz Hz'; exact (Hz Hz')|congruence].
  - constructor; [discriminate|]. apply Forall_forall. intros r Hr.
    apply in_flat_map in Hr as (d & _ & Hr). apply in_day_gets in Hr as (o & _ & _ & ->).
    discriminate.
  - apply Forall_forall. intros r Hr. apply in_flat_map in Hr as (c & Hc & Hr).
    destruct (tasks_for_in _ _ _ _ _ _ Ht Hc) as (d & _ & o & food & _ & _ & ->).
    apply in_coro_requests in Hr as (fid & ->). reflexivity.
Qed.

(** Tasks of two days with the same date are tasks of the same day:
    [strftime] is injective on the dates [date + timedelta] accepts. *)
Lemma day_task_date_inj token d d' c c' :
  day_task a today token d c -> day_task a today token d' c' ->
  coro_date c = coro_date c' -> d = d'.
Proof.
  intros (o & f & Ho & _ & ->) (o' & f' & Ho' & _ & ->) E. simpl in E.
  apply add_days_ok in Ho as [-> Ho], Ho' as [-> Ho'].
  apply strftime_date_inj in E; [lia|lia|lia].
Qed.

(** The tasks of distinct days are for distinct dates. *)
Lemma tasks_for_nodup token done reserves :
  NoDup done -> tasks_for a today token done reserves -> NoDup (map coro_date reserves).
Proof.
  intros Hnd (ls & -> & H2). revert Hnd.
  induction H2 as [|d l done' ls' [Hf Hlen] H2' IH]; intros Hnd; [constructor|].
  inversion Hnd as [|? ? Hn Hnd']; subst. simpl. rewrite map_app. apply NoDup_app.
  - destruct l as [|c [|]]; simpl in Hlen; [constructor|repeat constructor; intros []|lia].
  - now apply IH.
  - intros x Hx Hx'. apply in_map_iff in Hx as (c & <- & Hc), Hx' as (c' & E & Hc').
    destruct (tasks_for_in a today token done' (concat ls') c' (ex_intro _ ls' (conj eq_refl H2')) Hc')
      as (d' & Hd' & Ht').
    apply Hn. rewrite (day_task_date_inj token d d' c c');
      [exact Hd'|now apply (proj1 (Forall_forall _ _) Hf)|exact Ht'|now symmetry].
Qed.

(** [main] gets past the login only when it is accepted. *)
Lemma main_prefix_login w rs :
  fst (main_prefix srv a today w) = Ok rs ->
  exists token, fst (get_bearer_token srv (username a) (password a) w) = Ok token.
Proof.
  unfold main_prefix, st_bind.
  destruct (get_bearer_token srv (username a) (password a) w) as [[t|e] w1];
    [intros _; now exists t|discriminate].
Qed.

(** Inside the calendar, the fetch of day [d] is that of the ordinal
    [today + d] when it passes the filter. *)
Lemma gets_window token l :
  (1 <= today)%Z -> (today + 35 <= MAXORDINAL)%Z -> Forall (fun d => (d < 36)%nat) l ->
  flat_map (day_gets a today token) l
  = map (fun o => get_reserves_request token (strftime_date o))
        (filter (eligible (include_thursdays a)) (map (fun d => today + Z.of_nat d)%Z l)).
Proof.
  intros H1 H2 Hl. induction Hl as [|d l Hd _ IH]; [reflexivity|].
  simpl. rewrite IH. unfold day_gets. rewrite add_days_in_range by lia.
  destruct (eligible _ _); reflexivity.
Qed.

(** When the day loop completes, the fetches of the log are those of all
    36 days. *)
(** The request log of [program_trace], split by method. *)
Lemma log_filters token done reserves :
  tasks_for a today token done reserves ->
  let log := login_request (username a) (password a)
               :: flat_map (day_gets a today token) done ++ flat_map coro_requests reserves in
  filter is_get log = flat_map (day_gets a today token) done /\
  filter is_put log = flat_map coro_requests reserves.
Proof.
  intros Ht. cbv zeta. cbn [filter].
  change (is_get (login_request _ _)) with false. change (is_put (login_request _ _)) with false.
  assert (Hg : forall r, In r (flat_map (day_gets a today token) done) -> rq_method r = GET).
  { intros r Hr'. apply in_flat_map in Hr' as (d & _ & Hr').
    now apply in_day_gets in Hr' as (o & _ & _ & ->). }
  assert (Hp : forall r, In r (flat_map coro_requests reserves) -> rq_method r = PUT).
  { intros r Hr'. apply in_flat_map in Hr' as (c & Hc & Hr').
    destruct (tasks_for_in _ _ _ _ _ _ Ht Hc) as (d & _ & o & food & _ & _ & ->).
    now apply in_coro_requests in Hr' as (fid & ->). }
  rewrite !filter_app, filter_all, (filter_none _ (flat_map coro_requests reserves)),
    (filter_none is_put), (filter_all is_put (flat_map coro_requests reserves)), app_nil_r;
    [split; reflexivity| | | |];
    intros r Hr; unfold is_get, is_put; first [rewrite (Hg r Hr) | rewrite (Hp r Hr)]; reflexivity.
Qed.

Lemma program_gets_complete stdin rs token :
  fst (get_bearer_token srv (username a) (password a) (init_world stdin)) = Ok token ->
  fst (main_prefix srv a today (init_world stdin)) = Ok rs ->
  filter is_get (map snd (w_http (snd (program srv a today (init_world stdin)))))
  = flat_map (day_gets a today token) (seq 0 36).
Proof.
  intros Hl Hm.
  destruct (program_trace stdin) as (token' & done & rest & reserves & Htok & Hs & Ht & Hr & -> & _).
  rewrite Hl in Htok. rewrite Htok, (proj1 (Hr rs Hm)), app_nil_r in *. subst done.
  exact (proj1 (log_filters token _ reserves Ht)).
Qed.

Lemma seq36_bound : Forall (fun d => (d < 36)%nat) (seq 0 36).
Proof. apply Forall_forall. intros d Hd. apply in_seq in Hd. lia. Qed.

(** C4. When the day loop completes, the fetches of a run are, in day
    order, exactly one for each day of [today .. today + 35] that passes
    the two weekday tests, for that day's date and with the login's
    token. *)
Theorem program_fetches_eligible_days stdin rs token :
  (1 <= today)%Z -> (today + 35 <= MAXORDINAL)%Z ->
  fst (get_bearer_token srv (username a) (password a) (init_world stdin)) = Ok token ->
  fst (main_prefix srv a today (init_world stdin)) = Ok rs ->
  filter is_get (map snd (w_http (snd (program srv a today (init_world stdin)))))
  = map (fun o => get_reserves_request token (strftime_date o))
        (filter (eligible (include_thursdays a)) (map (fun d => today + Z.of_nat d)%Z (seq 0 36))).
Proof.
  intros H1 H2 Hl Hm. rewrite (program_gets_complete stdin rs token Hl Hm).
  exact (gets_window token _ H1 H2 seq36_bound).
Qed.

(** C22. The scenario of the specification: starting on a Monday without
    [--include-thursdays], a run whose day loop completes fetches 26
    days: the 36 days minus the five days of weekday index 4 and the five
    of index 5. *)
Theorem program_monday_fetch_count stdin rs :
  weekday today = 0%Z -> (1 <= today)%Z -> (today + 35 <= MAXORDINAL)%Z ->
  include_thursdays a = false ->
  fst (main_prefix srv a today (init_world stdin)) = Ok rs ->
  List.length (filter is_get (map snd (w_http (snd (program srv a today (init_world stdin)))))) = 26%nat.
Proof.
  intros Hw H1 H2 Hi Hm. destruct (main_prefix_login _ _ Hm) as (token & Hl).
  rewrite (program_gets_complete stdin rs token Hl Hm), (gets_window token _ H1 H2 seq36_bound),
    length_map, Hi.
  now rewrite (eligible_count_shift false today 1 (seq 0 36) Hw).
Qed.

(** ** Time and the request log *)

Lemma main_day_clock_log token reserves day :
  frame clock_log (main_day srv a today token reserves day).
Proof. unfold main_day, handle_reserves. frame_solve. Qed.

Lemma main_prefix_clock_log : frame clock_log (main_prefix srv a today).
Proof.
  unfold main_prefix. apply (frame_bind clock_log); [auto with narije|].
  intros token. apply (frame_fold clock_log). intros. apply main_day_clock_log.
Qed.

Lemma run_coro_clock_log c : frame clock_log (run_coro srv c).
Proof. destruct c. apply reserve_food_clock_log. Qed.

Lemma program_clock_log stdin :
  clock_log (init_world stdin) (snd (program srv a today (init_world stdin))).
Proof.
  exact (@asyncio_run_frame (reserve_food_runner srv) clock_log _ run_coro_clock_log
           set_ready_clock_log _ (main_prefix srv a today) main_prefix_clock_log (init_world stdin)).
Qed.

Lemma day_gets_length token d : (List.length (day_gets a today token d) <= 1)%nat.
Proof. unfold day_gets. destruct (add_days _ _); [case_if|]; simpl; lia. Qed.

Lemma coro_requests_length c : (List.length (coro_requests c) <= 1)%nat.
Proof. destruct c. simpl. case_match; simpl; lia. Qed.

(** A day queues a task only when it was fetched. *)
Lemma tasks_for_length token done reserves :
  tasks_for a today token done reserves ->
  (List.length reserves <= List.length (flat_map (day_gets a today token) done))%nat.
Proof.
  intros (ls & -> & H2). induction H2 as [|d l done' ls' [Hf Hlen] _ IH]; [simpl; lia|].
  simpl. rewrite !length_app.
  enough (List.length l <= List.length (day_gets a today token d))%nat by lia.
  destruct l as [|c [|]]; simpl in Hlen |- *; [lia| |lia].
  inversion Hf as [|? ? (o & food & Ho & He & _)]; subst.
  unfold day_gets. rewrite Ho, He. simpl. lia.
Qed.

(** C17. Bounds of a run, for every server and every input: one login,
    at most 36 fetches, no more reservation requests than fetches, no
    other request; and the process sleeps at most 10 seconds per fetch,
    so at most 360 seconds in all. *)
Theorem program_bounds stdin :
  let w := snd (program srv a today (init_world stdin)) in
  let log := map snd (w_http w) in
  (List.length (filter is_put log) <= List.length (filter is_get log) <= 36)%nat /\
  List.length log = S (List.length (filter is_get log) + List.length (filter is_put log)) /\
  (0 <= w_clock w <= 10 * Z.of_nat (List.length (filter is_get log)))%Z.
Proof.
  cbv zeta. pose proof (program_clock_log stdin) as [Hc0 _].
  destruct (program_trace stdin) as (token & done & rest & reserves & _ & Hs & Ht & _ & Hlog & Hc).
  rewrite Hlog. destruct (log_filters token done reserves Ht) as [-> ->].
  pose proof (tasks_for_length token done reserves Ht).
  pose proof (length_flat_map_le1 (day_gets a today token) done
                (fun d _ => day_gets_length token d)).
  pose proof (length_flat_map_le1 coro_requests reserves (fun c _ => coro_requests_length c)).
  assert (Hd : (List.length done <= 36)%nat)
    by (rewrite <- (length_seq 36 0), Hs, length_app; lia).
  cbn [List.length]. rewrite length_app. cbn [init_world w_clock] in Hc0.
  repeat split; lia.
Qed.


(** Only the PUTs of the log have a reservation date. *)
Lemma omap_put_date_log token done reserves :
  omap put_date (login_request (username a) (password a)
                   :: flat_map (day_gets a today token) done ++ flat_map coro_requests reserves)
  = flat_map (fun c => omap put_date (coro_requests c)) reserves.
Proof.
  rewrite app_comm_cons, omap_app, omap_none, omap_flat_map; [reflexivity|].
  intros r [<-|Hr]; [reflexivity|].
  apply in_flat_map in Hr as (d & _ & Hr). now apply in_day_gets in Hr as (o & _ & _ & ->).
Qed.

(** C2. At most one reservation per date and run: two PUT requests of a
    run's log that reserve the same date are the same entry of the log,
    whatever the server answers and whatever the user types. *)
Theorem program_one_reservation_per_date stdin i j r1 r2 date :
  let log := map snd (w_http (snd (program srv a today (init_world stdin)))) in
  nth_error log i = Some r1 -> nth_error log j = Some r2 ->
  put_date r1 = Some date -> put_date r2 = Some date -> i = j.
Proof.
  cbv zeta. intros Hi Hj H1 H2.
  refine (nth_error_omap_unique put_date _ i j r1 r2 date _ Hi Hj H1 H2).
  destruct (program_trace stdin) as (token & done & rest & reserves & _ & Hs & Ht & _ & -> & _).
  rewrite omap_put_date_log.
  apply (NoDup_flat_map_single coro_date); [|intros c _; apply coro_put_dates].
  apply (tasks_for_nodup token done); [|exact Ht].
  apply (NoDup_app_remove_r _ rest). rewrite <- Hs. apply seq_NoDup.
Qed.
End Program.

(** ** A service that always offers food *)

(** The service accepts the login with the token [tok] and answers every
    fetch, whatever came before, with status ["OK"] and a first food list
    whose first food has an id. *)
Section Served.
Context (srv : server) (a : args) (today : Z) (tok : json).
Hypothesis Hlazy : lazy_mode a = true.
Hypothesis Hstart : (1 <= today)%Z.
Hypothesis Hend : (today + 35 <= MAXORDINAL)%Z.
Hypothesis Hlogin : exists resp body,
  srv [] (login_request (username a) (password a)) = Some resp /\ status_code resp = 200%Z /\
  resp_body resp = Some body /\ getitem body (KStr "token") = Ok tok.
Hypothesis Hget : forall h date, exists resp body entry rest_data food rest_foods fid,
  srv h (get_reserves_request tok date) = Some resp /\ resp_body resp = Some body /\
  getitem body (KStr "status") = Ok (JStr "OK") /\
  getitem body (KStr "data") = Ok (JArr (entry :: rest_data)) /\
  getitem entry (KStr "reserves") = Ok (JArr (food :: rest_foods)) /\
  getitem food (KStr "foodId") = Ok fid.

(** The date day [d] of the window is reserved for, if it passes the
    weekday tests. *)
Definition window_dates (d : nat) : list string :=
  if eligible (include_thursdays a) (today + Z.of_nat d)%Z
  then [strftime_date (today + Z.of_nat d)%Z] else [].

(** A task whose food has an id sends one PUT, for its own date. *)
Definition sends_put (c : coro) : Prop := omap put_date (coro_requests c) = [coro_date c].

Lemma window_dates_flat l :
  flat_map window_dates l
  = map strftime_date (filter (eligible (include_thursdays a)) (map (fun d => today + Z.of_nat d)%Z l)).
Proof.
  induction l as [|d l IH]; [reflexivity|]. cbn [flat_map map filter]. rewrite IH.
  unfold window_dates. destruct (eligible _ _); reflexivity.
Qed.

Lemma main_day_served reserves d w : (d < 36)%nat ->
  exists l w', main_day srv a today tok reserves d w = (Ok (reserves ++ l), w') /\
    map coro_date l = window_dates d /\ Forall sends_put l.
Proof.
  intros Hd. assert (Hday : add_days today (Z.of_nat d) = Ok (today + Z.of_nat d)%Z)
    by (apply add_days_in_range; lia).
  unfold window_dates. destruct (eligible (include_thursdays a) (today + Z.of_nat d)) eqn:He.
  - destruct (Hget (map snd (w_http w)) (strftime_date (today + Z.of_nat d)))
      as (resp & body & entry & rd & food & rf & fid & Hs & Hb & Hst & Hdata & Hres & Hfid).
    rewrite (main_day_fetch srv a today tok reserves d w _ resp body Hday He Hs Hb).
    destruct (handle_reserves_lazy a tok reserves (strftime_date (today + Z.of_nat d)) body entry
                rd food rf (fetched_world tok w (today + Z.of_nat d)) Hlazy Hst Hdata Hres) as [Hf _].
    eexists [_], _. rewrite (surjective_pairing (handle_reserves _ _ _ _ _ _)), Hf.
    split; [reflexivity|]. split; [reflexivity|]. constructor; [|constructor].
    unfold sends_put. simpl. now rewrite Hfid.
  - pose proof (main_day_not_eligible srv a today tok reserves d w _ Hday He) as Hf.
    exists [], (snd (main_day srv a today tok reserves d w)).
    rewrite (surjective_pairing (main_day _ _ _ _ _ _ _)), Hf, app_nil_r. repeat constructor.
Qed.

Lemma main_prefix_served w0 : w_http w0 = [] ->
  exists L w', main_prefix srv a today w0 = (Ok L, w') /\
    map coro_date L = flat_map window_dates (seq 0 36) /\ Forall sends_put L.
Proof.
  intros Hw0. destruct Hlogin as (resp & body & Hs & Hc & Hb & Ht).
  assert (Hh : map snd (w_http w0) = []) by now rewrite Hw0. rewrite <- Hh in Hs.
  pose proof (get_bearer_token_accepted srv _ _ w0 resp body Hs Hb tok Hc Ht) as Hacc.
  unfold main_prefix, st_bind.
  destruct (get_bearer_token srv (username a) (password a) w0) as [r w1]. simpl in Hacc. subst r.
  destruct (st_fold_collect (main_day srv a today tok) coro_date sends_put window_dates (seq 0 36)
              (fun acc d w Hd => main_day_served acc d w (proj2 (proj1 (in_seq 36 0 d) Hd)))
              [] w1) as (L & w' & E & HL & HQ).
  exists L, w'. now rewrite E.
Qed.

(** In lazy mode, when the service accepts the login and offers a food
    with an id every day, the run sends a reservation for every day of
    [today .. today + 35] that passes the weekday tests, in day order, and
    for no other date ([Transport] adds that the requests can be sent). *)
Lemma program_put_dates_served stdin :
  omap put_date (map snd (w_http (snd (program srv a today (init_world stdin)))))
  = map strftime_date
      (filter (eligible (include_thursdays a)) (map (fun d => today + Z.of_nat d)%Z (seq 0 36))).
Proof.
  destruct (main_prefix_served (init_world stdin) eq_refl) as (L & w1 & Em & Hm & Hq).
  destruct (program_trace srv a today stdin) as (token & done & rest & reserves & _ & _ & _ & Hr & Hlog & _).
  destruct (Hr L) as [_ <-]; [now rewrite Em|].
  rewrite Hlog, omap_put_date_log, <- window_dates_flat, <- Hm.
  clear -Hq. induction Hq as [|c L Hc _ IH]; [reflexivity|]. simpl. now rewrite Hc, IH.
Qed.
End Served.

(** ** Concrete runs *)

Definition demo_food : json := JObj [("foodId", JInt 7); ("food", JStr "kabab")].
Definition demo_entry : json := JObj [("reserves", JArr [demo_food])].
Definition demo_body : json := JObj [("status", JStr "OK"); ("data", JArr [demo_entry])].

(** A service that accepts the login with the token ["T"], answers every
    fetch with [get_body], and accepts every reservation. *)
Definition demo_service (get_body : json) : server := fun _ r =>
  match rq_method r with
  | POST => Some (mkResponse 200 (Some (JObj [("token", JStr "T")])))
  | GET => Some (mkResponse 200 (Some get_body))
  | PUT => Some (mkResponse 200 None)
  end.

(** One food, id 7, on every day. *)
Definition demo_server : server := demo_service demo_body.

(** A service that rejects the login. *)
Definition rejecting_server : server := fun _ _ =>
  Some (mkResponse 401 (Some (JObj [("message", JStr "bad password")]))).

Definition demo_args : args := mkArgs "09120000000" "secret" false true.

(** 2026-11-09, a Monday. *)
Definition demo_today : Z := 739929.

Lemma program_requests_respect_filters_witness :
  let req := get_reserves_request (JStr "T") "2026-11-09T00:00:00" in
  req = login_request (username demo_args) (password demo_args) \/
  exists token d o, (d < 36)%nat /\ add_days demo_today (Z.of_nat d) = Ok o /\
    weekday o <> 5 /\ (include_thursdays demo_args = false -> weekday o <> 4) /\
    dated_request token (strftime_date o) req.
Proof.
  apply (program_requests_respect_filters demo_server demo_args demo_today []).
  vm_compute. right. left. reflexivity.
Defined.

Lemma program_login_rejected_witness :
  let res := program rejecting_server demo_args demo_today (init_world []) in
  fst res = Exc SystemExit /\ exit_status (fst res) = 0%Z /\
  map snd (w_http (snd res)) = [login_request (username demo_args) (password demo_args)] /\
  w_out (snd res) = [OLine [PLit "Failed to get token:"; PLit " "; PVal (JStr "bad password")]].
Proof.
  apply (program_login_rejected rejecting_server demo_args demo_today []
           (mkResponse 401 (Some (JObj [("message", JStr "bad password")])))
           (JObj [("message", JStr "bad password")])).
  - reflexivity.
  - discriminate.
  - reflexivity.
  - reflexivity.
Defined.

Lemma program_uses_login_token_witness :
  In (auth_header (JStr "T")) (rq_headers (get_reserves_request (JStr "T") "2026-11-10T00:00:00")).
Proof.
  apply (program_uses_login_token demo_server demo_args demo_today []
           (mkResponse 200 (Some (JObj [("token", JStr "T")])))
           (JObj [("token", JStr "T")]) (JStr "T")
           (get_reserves_request (JStr "T") "2026-11-10T00:00:00")).
  - reflexivity.
  - reflexivity.
  - reflexivity.
  - reflexivity.
  - vm_compute. right. right. left. reflexivity.
  - discriminate.
Defined.

Lemma main_day_lazy_first_witness :
  let r := main_day demo_server demo_args demo_today (JStr "T") [] 0 (init_world []) in
  fst r = Ok [ReserveFood (JStr "T") (strftime_date demo_today) demo_food] /\
  w_ready (snd r) = [ReserveFood (JStr "T") (strftime_date demo_today) demo_food].
Proof.
  apply (main_day_lazy_first demo_server demo_args demo_today (JStr "T") [] 0 (init_world [])
           demo_today (mkResponse 200 (Some demo_body)) demo_body
           eq_refl eq_refl eq_refl eq_refl demo_entry [] demo_food []);
    reflexivity.
Defined.

Definition closed_body : json := JObj [("status", JStr "ERR"); ("message", JStr "closed")].

Lemma main_day_status_not_ok_witness :
  let r := main_day (demo_service closed_body) demo_args demo_today (JStr "T") [] 0
             (init_world []) in
  fst r = Ok [] /\ w_ready (snd r) = [] /\
  w_out (snd r) = [OLine [PLit "Failed to get reserves: "; PVal (JStr "closed");
                          PLit ", date: "; PLit (strftime_date demo_today)]].
Proof.
  apply (main_day_status_not_ok (demo_service closed_body) demo_args demo_today (JStr "T") []
           0 (init_world []) demo_today (mkResponse 200 (Some closed_body)) closed_body
           eq_refl eq_refl eq_refl eq_refl (JStr "ERR") (JStr "closed"));
    reflexivity.
Defined.

Definition empty_body : json := JObj [("status", JStr "OK"); ("data", JArr [])].

Lemma main_day_no_food_witness :
  let r := main_day (demo_service empty_body) demo_args demo_today (JStr "T") [] 0
             (init_world []) in
  fst r = Ok [] /\ w_ready (snd r) = [] /\
  w_out (snd r) = [OLine [PLit "No reserves available for ";
                          PLit (strftime_date demo_today); PLit "."]].
Proof.
  apply (main_day_no_food (demo_service empty_body) demo_args demo_today (JStr "T") []
           0 (init_world []) demo_today (mkResponse 200 (Some empty_body)) empty_body
           eq_refl eq_refl eq_refl eq_refl (JArr []));
    [reflexivity|reflexivity|left; reflexivity].
Defined.

Definition interactive_args : args := mkArgs "09120000000" "secret" false false.

(** An interactive run answered "1" on its first day, which queues the
    reservation of that day, and then out of input on the next prompt. *)
Lemma program_main_failure_submits_witness :
  let w1 := snd (main_prefix demo_server interactive_args demo_today (init_world ["1"])) in
  let res := program demo_server interactive_args demo_today (init_world ["1"]) in
  (fst res = Exc EOFError /\
   map snd (w_http (snd res)) = map snd (w_http w1) ++ flat_map coro_requests (w_ready w1)) /\
  flat_map coro_requests (w_ready w1)
  = [put_reserves_request (JStr "T") (reserve_body (strftime_date demo_today) (JInt 7))].
Proof.
  split.
  - apply (program_main_failure_submits demo_server interactive_args demo_today ["1"]).
    + vm_compute. reflexivity.
    + reflexivity.
  - vm_compute. reflexivity.
Defined.

Lemma program_fetches_before_reservations_witness : (1 < 27)%nat.
Proof.
  apply (program_fetches_before_reservations demo_server demo_args demo_today [] 27 1
           (put_reserves_request (JStr "T") (reserve_body (strftime_date demo_today) (JInt 7)))
           (get_reserves_request (JStr "T") (strftime_date demo_today))).
  - vm_compute. reflexivity.
  - vm_compute. reflexivity.
  - reflexivity.
  - reflexivity.
Defined.

Lemma program_one_reservation_per_date_witness : 27%nat = 27%nat.
Proof.
  set (put := put_reserves_request (JStr "T") (reserve_body (strftime_date demo_today) (JInt 7))).
  apply (program_one_reservation_per_date demo_server demo_args demo_today [] 27 27 put put
           (strftime_date demo_today)).
  - vm_compute. reflexivity.
  - vm_compute. reflexivity.
  - reflexivity.
  - reflexivity.
Defined.

(** The tasks [main] queues in the demo run. *)
Definition demo_tasks : list coro :=
  match fst (main_prefix demo_server demo_args demo_today (init_world [])) with
  | Ok rs => rs
  | Exc _ => []
  end.

Lemma program_fetches_eligible_days_witness :
  filter is_get (map snd (w_http (snd (program demo_server demo_args demo_today (init_world [])))))
  = map (fun o => get_reserves_request (JStr "T") (strftime_date o))
        (filter (eligible (include_thursdays demo_args))
                (map (fun d => demo_today + Z.of_nat d)%Z (seq 0 36))).
Proof.
  apply (program_fetches_eligible_days demo_server demo_args demo_today [] demo_tasks (JStr "T")).
  - unfold demo_today. lia.
  - unfold demo_today, MAXORDINAL. lia.
  - vm_compute. reflexivity.
  - vm_compute. reflexivity.
Defined.

Lemma program_monday_fetch_count_witness :
  List.length (filter is_get (map snd (w_http (snd (program demo_server demo_args demo_today
                                                          (init_world [])))))) = 26%nat.
Proof.
  apply (program_monday_fetch_count demo_server demo_args demo_today [] demo_tasks).
  - reflexivity.
  - unfold demo_today. lia.
  - unfold demo_today, MAXORDINAL. lia.
  - reflexivity.
  - vm_compute. reflexivity.
Defined.

(** 2026-11-13, a Friday, is the fifth day of the demo window. *)
Lemma main_day_skips_fridays_witness :
  weekday_name (demo_today + 4) = "Friday" /\
  fst (main_day demo_server demo_args demo_today (JStr "T") [] 4 (init_world [])) = Ok [] /\
  strftime_date (demo_today + 4) = "2026-11-13T00:00:00".
Proof.
  split; [reflexivity|]. split; [|vm_compute; reflexivity].
  refine (proj1 (proj1 (main_day_skips_fridays demo_server demo_args demo_today (JStr "T") [] 4
                          (init_world []) (demo_today + 4) eq_refl _) eq_refl)).
  vm_compute. reflexivity.
Defined.

