(* ===== verification/Provenance.v ===== *)
(** * Where the reserved foods come from

    The script reserves, for a date, a food it read from the service's
    answer to its own fetch for that date: [main] reads
    [reserves_response["data"][0]["reserves"]] (reserve.py 75-80), takes
    its first item or lets the user choose one of its items, and the task
    it queues sends that item's ["foodId"] in the PUT (30-32).  This file
    states that data flow as an invariant of the process state, in the
    style of a history invariant: every queued task is backed by a fetch
    in the request log for its date, whose answer (the server's answer on
    the log before that fetch) offered the task's food.  The invariant
    holds after the login, is kept by every iteration of the day loop,
    and carries over to the PUTs the event loop sends. *)

From Stdlib Require Import ZArith String List Bool Lia.
From S2P Require Import Prelude Json Runtime Calendar EventLoop Http PyInt Selector Reserve.
Import ListNotations.
Open Scope string_scope.
Open Scope list_scope.

(** ** Offered foods *)

(** [food] is one of the items of [body["data"][0]["reserves"]] in an
    answer whose status is ["OK"]: what [main] can choose from. *)
Definition offered (body food : json) : Prop :=
  exists status data first foods items,
    getitem body (KStr "status") = Ok status /\ py_eq_str status "OK" = true /\
    getitem body (KStr "data") = Ok data /\ getitem data (KInt 0) = Ok first /\
    getitem first (KStr "reserves") = Ok foods /\ py_iter foods = Ok items /\ In food items.

(** A task is backed by the log [h]: [h] holds the fetch for its date,
    with its token, at some position [i], and the server's answer to it,
    given the requests before it, offered the task's food. *)
Definition backed (srv : server) (h : list request) (c : coro) : Prop :=
  match c with
  | ReserveFood token date food =>
      exists i resp body,
        nth_error h i = Some (get_reserves_request token date) /\
        srv (firstn i h) (get_reserves_request token date) = Some resp /\
        resp_body resp = Some body /\ offered body food
  end.

(** The invariant: every task of the ready queue is backed by the log. *)
Definition tasks_backed (srv : server) (w : world) : Prop :=
  Forall (backed srv (map snd (w_http w))) (w_ready w).

(** The log only grows, and what it backed stays backed. *)
Lemma backed_app srv h h' c : backed srv h c -> backed srv (h ++ h') c.
Proof.
  destruct c as [token date food]. intros (i & resp & body & Hi & Hs & Hb & Ho).
  assert (Hlt : (i < List.length h)%nat) by (apply nth_error_Some; congruence).
  exists i, resp, body. rewrite nth_error_app1, firstn_app by exact Hlt.
  replace (i - List.length h)%nat with 0%nat by lia. rewrite firstn_O, app_nil_r. auto.
Qed.

Lemma Forall_backed_app srv h h' l :
  Forall (backed srv h) l -> Forall (backed srv (h ++ h')) l.
Proof. apply Forall_impl. intros c. apply backed_app. Qed.

(** ** One answer *)

(** [handle_reserves] sends nothing, and the task it queues, if any, is
    for its date and a food the answer offered. *)
Lemma handle_reserves_offered a token reserves date body w :
  let r := handle_reserves a token reserves date body w in
  w_http (snd r) = w_http w /\
  exists l, w_ready (snd r) = w_ready w ++ l /\
    Forall (fun c => exists food, c = ReserveFood token date food /\ offered body food) l.
Proof.
  cbv zeta. unfold handle_reserves, getitemM, lift, print, emit, create_task, st_bind, st_ret.
  repeat (simpl in *; first
    [ match goal with
      | |- context [match display_and_choose_food ?l ?w with _ => _ end] =>
          let Hn := fresh "Hn" in let E := fresh "E" in
          pose proof (display_and_choose_food_net l w) as Hn;
          destruct (display_and_choose_food l w) as [[?f|?e] ?w'] eqn:E;
          unfold net_obs in Hn; simpl in Hn; injection Hn as ? ? ?
      end
    | case_match ]);
  simpl; (split; [congruence|]);
  first [ exists []; rewrite app_nil_r; split; [congruence|constructor]
        | eexists [_]; split; [f_equal; congruence|] ].
  all: repeat constructor; eexists; split; [reflexivity|];
    repeat match goal with
    | H : display_and_choose_food _ _ = (Ok _, _) |- _ => apply display_and_choose_food_in in H
    | H : getitem _ (KInt _) = Ok ?f |- context [?f] =>
        lazymatch goal with _ : py_iter _ = Ok _ |- _ => fail | _ => apply getitem_int_in in H end
    end;
    repeat match goal with H : exists _, _ |- _ => destruct H as [? [? ?]] end;
    do 5 eexists; repeat split; eassumption.
Qed.

(** The fetch just appended to the log backs the tasks of its answer. *)
Lemma backed_fetch srv h token date resp body food :
  srv h (get_reserves_request token date) = Some resp -> resp_body resp = Some body ->
  offered body food ->
  backed srv (h ++ [get_reserves_request token date]) (ReserveFood token date food).
Proof.
  intros Hs Hb Ho. exists (List.length h), resp, body.
  rewrite nth_error_app_length, firstn_app, firstn_all, Nat.sub_diag, firstn_O, app_nil_r.
  auto.
Qed.

Section Loop.
Context (srv : server) (a : args) (today : Z).

(** One iteration of the day loop keeps the invariant: it only appends
    to the log, and the task it may queue is backed by its own fetch. *)
Lemma main_day_backed token reserves day w :
  tasks_backed srv w -> tasks_backed srv (snd (main_day srv a today token reserves day w)).
Proof.
  unfold tasks_backed. intros H.
  unfold main_day, get_reserves, send, resp_json, lift, print, emit, st_bind, st_ret.
  destruct (add_days today (Z.of_nat day)) as [o|e]; simpl; [|exact H].
  destruct (_ && _); simpl; [exact H|]. destruct (weekday o =? 5)%Z; simpl; [exact H|].
  destruct (srv _ _) as [resp|] eqn:Hs; simpl; [|rewrite map_app; now apply Forall_backed_app].
  destruct (resp_body resp) as [body|] eqn:Hb; simpl;
    [|rewrite map_app; now apply Forall_backed_app].
  match goal with
  | |- context [handle_reserves ?a' ?t ?r ?d ?b ?w'] =>
      destruct (handle_reserves_offered a' t r d b w') as (Hh & l & Hq & Hl)
  end.
  rewrite Hh, Hq. cbn [w_http w_ready]. rewrite map_app. apply Forall_app. split.
  - now apply Forall_backed_app.
  - refine (Forall_impl _ _ Hl). intros c (food & -> & Ho). now apply (backed_fetch _ _ _ _ resp body).
Qed.

(** Before the event loop runs, the log holds no reservation. *)
Definition no_puts (w : world) : Prop := Forall (fun r => is_put r = false) (map snd (w_http w)).

Lemma no_puts_in w r : no_puts w -> In r (map snd (w_http w)) -> is_put r = false.
Proof. unfold no_puts. rewrite Forall_forall. auto. Qed.

Lemma main_day_no_puts token reserves day w :
  no_puts w -> no_puts (snd (main_day srv a today token reserves day w)).
Proof.
  unfold no_puts. intros H. destruct (main_day_effect srv a today token reserves day w) as (-> & _).
  apply Forall_app. split; [exact H|]. unfold day_gets. repeat case_match; repeat constructor.
Qed.

(** The invariant of [main] up to the event loop: the login and the day
    loop keep the tasks backed and send no reservation. *)
Lemma main_prefix_backed w0 :
  w_ready w0 = [] -> no_puts w0 ->
  tasks_backed srv (snd (main_prefix srv a today w0)) /\ no_puts (snd (main_prefix srv a today w0)).
Proof.
  intros Hq Hp. unfold main_prefix, st_bind.
  destruct (get_bearer_token_effect srv (username a) (password a) w0) as (Hh & _ & Hq1).
  destruct (get_bearer_token srv (username a) (password a) w0) as [r1 w1]; cbn [snd] in *.
  assert (H1 : tasks_backed srv w1 /\ no_puts w1).
  { unfold tasks_backed, no_puts. rewrite Hq1, Hq, Hh. split; [constructor|].
    apply Forall_app. split; [exact Hp|]. now repeat constructor. }
  destruct r1 as [t|e]; [|exact H1].
  pose proof (st_fold_invariant (fun _ w => tasks_backed srv w /\ no_puts w)
                (fun w => tasks_backed srv w /\ no_puts w) (main_day srv a today t))
    as HI.
  specialize (HI ltac:(intros acc x s [Hb Hn];
                       destruct (main_day srv a today t acc x s) as [r s'] eqn:E;
                       pose proof (main_day_backed t acc x s Hb) as Hb';
                       pose proof (main_day_no_puts t acc x s Hn) as Hn';
                       rewrite E in Hb', Hn'; destruct r; auto)
                 ltac:(auto) (seq 0 36) [] w1 H1).
  destruct (st_fold _ _ _ _) as [[] ?]; exact HI.
Qed.

(** C3. Every reservation a run sends reserves, with its ["foodId"], a
    food that the service offered for that date, with that token, in its
    answer to a fetch of the same run that comes before it in the log:
    the script never reserves a food of its own making, nor one offered
    for another date. *)
Theorem program_reserves_offered_food stdin r :
  let log := map snd (w_http (snd (program srv a today (init_world stdin)))) in
  In r log -> is_put r = true ->
  exists token date food fid,
    r = put_reserves_request token (reserve_body date fid) /\
    getitem food (KStr "foodId") = Ok fid /\ backed srv log (ReserveFood token date food).
Proof.
  cbv zeta. unfold program, asyncio_run.
  destruct (main_prefix_backed (init_world stdin) eq_refl (Forall_nil _)) as [Hb Hp].
  destruct (main_prefix srv a today (init_world stdin)) as [res w1]. cbn [snd] in Hb, Hp.
  destruct (drain_requests srv w1 _ eq_refl) as (w' & results & Hd & Hh & _).
  assert (Hput : forall log, log = map snd (w_http w1) ++ flat_map coro_requests (w_ready w1) ->
            In r log -> is_put r = true -> exists token date food fid,
            r = put_reserves_request token (reserve_body date fid) /\
            getitem food (KStr "foodId") = Ok fid /\ backed srv log (ReserveFood token date food)).
  { intros log -> Hin Hr. apply in_app_or in Hin as [Hin|Hin].
    - now rewrite (no_puts_in w1 r Hp Hin) in Hr.
    - apply in_flat_map in Hin as ([token date food] & Hc & Hin). cbn in Hin.
      destruct (getitem food (KStr "foodId")) as [fid|] eqn:Hf; [|destruct Hin].
      destruct Hin as [<-|[]]. exists token, date, food, fid. do 2 (split; [reflexivity || exact Hf|]).
      apply backed_app. unfold tasks_backed in Hb. rewrite Forall_forall in Hb. exact (Hb _ Hc). }
  destruct res as [rs|e]; [|destruct (is_base_only e)]; rewrite ?Hd; cbn [snd];
    try (apply Hput; exact Hh).
  intros Hin Hr. now rewrite (no_puts_in w1 r Hp Hin) in Hr.
Qed.
End Loop.

(** ** A concrete run *)

(** The reservation of the demonstration run for 2026-11-09 sends the
    food with id 7 that its fetch for that date offered. *)
Lemma program_reserves_offered_food_witness :
  exists token date food fid,
    put_reserves_request (JStr "T") (reserve_body "2026-11-09T00:00:00" (JInt 7))
    = put_reserves_request token (reserve_body date fid) /\
    getitem food (KStr "foodId") = Ok fid /\
    backed demo_server (map snd (w_http (snd (program demo_server demo_args demo_today (init_world [])))))
      (ReserveFood token date food).
Proof.
  apply (program_reserves_offered_food demo_server demo_args demo_today []).
  - vm_compute. repeat first [left; reflexivity | right].
  - reflexivity.
Defined.
