(* ===== verification/Modes.v ===== *)
(** * Interactive mode answering "1" is lazy mode

    Without [--lazy-mode], [main] prints each day's menu and asks which
    food to reserve ([display_and_choose_food], reserve.py 40-54); with
    it, [main] takes [reserves_list[0]["reserves"][0]] (78-79).  When
    every food the service lists has a name (so the menu can be printed)
    and stdin holds at least 36 lines "1", the two runs send the same
    requests at the same times and end the same way; only stdout
    differs.  The proof runs the two programs in lock step ([sim] of the
    prelude) on states that agree on the request log, the clock and the
    ready queue, with a stock of "1" lines that each day may use one of. *)

From Stdlib Require Import ZArith String List Bool Lia.
From S2P Require Import Prelude Json Runtime Calendar EventLoop Http PyInt Selector Reserve.
Import ListNotations.
Open Scope string_scope.
Open Scope list_scope.

(** A food the menu can print: [food["food"]] exists. *)
Definition named_food (food : json) : Prop := exists name, getitem food (KStr "food") = Ok name.

(** An answer whose first food list, when [main] reaches it and finds it
    non-empty, is a list of named foods. *)
Definition named_menu (body : json) : Prop :=
  forall data first foods,
    getitem body (KStr "data") = Ok data -> getitem data (KInt 0) = Ok first ->
    getitem first (KStr "reserves") = Ok foods -> truthy foods = true ->
    exists l, foods = JArr l /\ Forall named_food l.

(** Every answer the service gives has named menus. *)
Definition named_menus (srv : server) : Prop :=
  forall h r resp body, srv h r = Some resp -> resp_body resp = Some body -> named_menu body.

(** The interactive run's stdin starts with [n] lines "1", whatever
    follows; the lazy run's stdin is never read. *)
Definition ones (n : nat) (in1 in2 : list string) : Prop :=
  exists rest, in1 = repeat "1" n ++ rest.

Lemma repeat_snoc_app {A} (x : A) n r : repeat x n ++ x :: r = x :: repeat x n ++ r.
Proof. induction n as [|n IH]; [reflexivity|]. cbn. now rewrite IH. Qed.

Lemma ones_le n m w1 w2 : (n <= m)%nat -> agree (ones m) w1 w2 -> agree (ones n) w1 w2.
Proof.
  unfold agree, ones. intros Hnm (H1 & H2 & H3 & rest & Hin). repeat split; auto.
  exists (repeat "1" (m - n) ++ rest). rewrite Hin, app_assoc, <- repeat_app.
  f_equal. f_equal. lia.
Qed.

Lemma ones_pred n w1 w2 : agree (ones (S n)) w1 w2 -> agree (ones n) w1 w2.
Proof. apply ones_le. lia. Qed.

Section Modes.
Context (srv : server) (a a' : args) (today : Z).
Hypothesis Hint : lazy_mode a = false.
Hypothesis Hlazy : lazy_mode a' = true.
Hypothesis Hinc : include_thursdays a' = include_thursdays a.
Hypothesis Huser : username a' = username a.
Hypothesis Hpass : password a' = password a.
Hypothesis Hnamed : named_menus srv.


(** One answer: the interactive run uses at most one line, and both
    runs queue the same task. *)
Lemma handle_reserves_ones n token reserves date body :
  named_menu body ->
  sim (agree (ones (S n))) (agree (ones n))
      (handle_reserves a token reserves date body) (handle_reserves a' token reserves date body).
Proof.
  intros Hm w1 w2 (H1 & H2 & H3 & rest0 & Ein). cbn in Ein.
  remember (repeat "1" n ++ rest0) as rest eqn:Hrest.
  unfold handle_reserves, getitemM, lift, print, emit, create_task, st_bind, st_ret.
  rewrite Hint, Hlazy.
  repeat (cbn beta iota; first
    [ match goal with
      | |- context [match display_and_choose_food ?foods ?w with _ => _ end] =>
          lazymatch goal with
          | Hd : getitem _ (KStr "data") = Ok ?d, Hf : getitem ?d (KInt 0) = Ok ?fst,
            Hr : getitem ?fst (KStr "reserves") = Ok foods, Ht : truthy foods = true |- _ =>
              destruct (Hm _ _ _ Hd Hf Hr Ht) as ([|food l] & -> & Hnl); [discriminate Ht|]
          end;
          destruct (display_and_choose_food_first food l w rest Hnl ltac:(cbn; assumption))
            as (w' & -> & Hin' & Hnet);
          unfold net_obs in Hnet; injection Hnet as Hh' Hc' Hq'
      end
    | case_match ]).
  all: cbn in *; try discriminate;
    repeat match goal with H : Ok _ = Ok _ |- _ => injection H as <- end;
    unfold agree, ones; cbn; rewrite ?Ein, ?Hin'; repeat split; cbn; try congruence;
    subst rest; first [exists rest0; reflexivity | exists ("1" :: rest0); symmetry; apply repeat_snoc_app].
Qed.

Lemma get_reserves_named token date w body w' :
  get_reserves srv token date w = (Ok body, w') -> named_menu body.
Proof.
  unfold get_reserves, send, resp_json, lift, st_bind. cbn.
  destruct (srv _ _) as [resp|] eqn:Hs; [|discriminate].
  destruct (resp_body resp) as [b|] eqn:Hb; [|discriminate].
  intros H. injection H as <- _. exact (Hnamed _ _ _ _ Hs Hb).
Qed.

#[local] Hint Resolve ones_pred : narije.

(** One day: the same requests, and at most one line of input used. *)
Lemma main_day_ones n token reserves day :
  sim (agree (ones (S n))) (agree (ones n))
      (main_day srv a today token reserves day) (main_day srv a' today token reserves day).
Proof.
  unfold main_day. rewrite Hinc.
  apply (sim_bind (agree (ones (S n))) (agree (ones (S n))) (agree (ones n))); [apply sim_lift|intros o|apply ones_pred].
  cbv zeta. apply sim_if; [sim_solve|]. apply sim_if; [sim_solve|].
  apply (sim_bind_post (agree (ones (S n))) (agree (ones (S n))) (agree (ones n)) named_menu);
    [apply get_reserves_sim|apply get_reserves_named|intros; now apply handle_reserves_ones|apply ones_pred].
Qed.

(** [main] up to its [await]: the login, then 36 days, each using at
    most one line. *)
Lemma main_prefix_ones n :
  sim (agree (ones (36 + n))) (agree (ones n)) (main_prefix srv a today) (main_prefix srv a' today).
Proof.
  unfold main_prefix. rewrite Huser, Hpass.
  apply (sim_bind (agree (ones (36 + n))) (agree (ones (36 + n))) (agree (ones n)));
    [apply get_bearer_token_sim|intros t|intros; eapply ones_le; [|eassumption]; lia].
  exact (st_fold_sim (fun n => agree (ones n)) _ _ ones_pred
           (fun acc x n => main_day_ones n t acc x) (seq 0 36) [] n).
Qed.

(** C21. Without [--lazy-mode], a run whose stdin starts with 36 lines
    "1", whatever follows them, sends the same requests (reservations
    included) at the same times and ends with the same outcome as the run
    with [--lazy-mode] and the same other arguments, whatever that run's
    stdin, provided every food the service lists has a name: answering
    "1" at each prompt picks [reserves[0]], as lazy mode does. *)
Theorem program_ones_is_lazy rest stdin' :
  let r1 := program srv a today (init_world (repeat "1" 36 ++ rest)) in
  let r2 := program srv a' today (init_world stdin') in
  fst r1 = fst r2 /\ w_http (snd r1) = w_http (snd r2).
Proof.
  cbv zeta. unfold program.
  destruct (@asyncio_run_sim (reserve_food_runner srv) (ones 0) (fun c => run_coro_sim (ones 0) srv c) _
              (agree (ones 36)) _ _ (main_prefix_ones 0)
              (init_world (repeat "1" 36 ++ rest)) (init_world stdin') ltac:(repeat split; exists rest; reflexivity))
    as [Hf (Hh & _)].
  split; assumption.
Qed.
End Modes.

(** ** A concrete pair of runs *)

Lemma demo_named_menus : named_menus demo_server.
Proof.
  intros h r resp body Hs Hb data first foods Hd Hf Hr Ht.
  unfold demo_server, demo_service in Hs.
  destruct (rq_method r); injection Hs as <-; cbn in Hb; try discriminate Hb;
    injection Hb as <-; cbn in Hd; try discriminate Hd.
  injection Hd as <-. cbn in Hf. injection Hf as <-. cbn in Hr. injection Hr as <-.
  eexists. split; [reflexivity|]. repeat constructor. eexists. reflexivity.
Qed.

(** The demonstration service, answered "1" at every prompt, and in lazy
    mode. *)
Lemma program_ones_is_lazy_witness :
  let r1 := program demo_server (mkArgs "09120000000" "secret" false false) demo_today
              (init_world (repeat "1" 36 ++ ["2"; "quit"])) in
  let r2 := program demo_server demo_args demo_today (init_world []) in
  fst r1 = fst r2 /\ w_http (snd r1) = w_http (snd r2).
Proof.
  apply program_ones_is_lazy; try reflexivity.
  exact demo_named_menus.
Defined.
