(* ===== verification/Cli.v ===== *)
(** * The command line (reserve.py 90-102)

    The [if __name__ == "__main__"] block builds an [argparse.ArgumentParser]
    with two required string options [--username] and [--password], two
    [store_true] flags [--include-thursdays] and [--lazy-mode] (and the
    automatic [-h]/[--help]), calls [parser.parse_args()] on [sys.argv[1:]]
    and runs [asyncio.run(main(...))] on the result.

    [parse_args] below is CPython 3.12's [ArgumentParser.parse_args]
    ([_parse_known_args], [_parse_optional], [_get_option_tuples],
    [consume_optional]) specialised to this parser, which has no
    positional arguments: every argument is classified first (an
    ambiguous abbreviation fails there), then consumed left to right
    ([-h] exits at once, an option missing its value fails), then the
    required options are checked, then the leftover arguments.  Errors
    exit with status 2 and help with status 0; their texts (usage lines
    on stderr, the help on stdout) are not modelled. *)

From Stdlib Require Import ZArith String Ascii List Bool Lia.
From S2P Require Import Prelude Json Runtime PyInt EventLoop Reserve.
Import ListNotations.
Open Scope string_scope.

(** The actions of the parser, in the order [add_argument] creates them. *)
Inductive action := AHelp | AUsername | APassword | AIncludeThursdays | ALazyMode.

(** [parser._option_string_actions], a dict in insertion order. *)
Definition option_string_actions : list (string * action) :=
  [("-h", AHelp); ("--help", AHelp); ("--username", AUsername); ("--password", APassword);
   ("--include-thursdays", AIncludeThursdays); ("--lazy-mode", ALazyMode)].

(** [s in parser._option_string_actions]. *)
Definition action_lookup (s : string) : option action :=
  match find (fun p => String.eqb (fst p) s) option_string_actions with
  | Some (_, a) => Some a
  | None => None
  end.

(** [s.startswith(p)] *)
Fixpoint starts_with (p s : string) : bool :=
  match p, s with
  | EmptyString, _ => true
  | String c p', String d s' => Ascii.eqb c d && starts_with p' s'
  | String _ _, EmptyString => false
  end.

(** [s.split(sep, 1)] when [sep in s]. *)
Fixpoint split_at (sep : ascii) (s : string) : option (string * string) :=
  match s with
  | EmptyString => None
  | String c r =>
      if Ascii.eqb c sep then Some (EmptyString, r)
      else match split_at sep r with
           | Some (o, v) => Some (String c o, v)
           | None => None
           end
  end.

Fixpoint all_digits (s : string) : bool :=
  match s with
  | EmptyString => true
  | String c r => is_digit c && all_digits r
  end.

Fixpoint has_char (x : ascii) (s : string) : bool :=
  match s with
  | EmptyString => false
  | String c r => Ascii.eqb c x || has_char x r
  end.

(** [parser._negative_number_matcher]: [^-\d+$|^-\d*\.\d+$]. *)
Definition is_negative_number (s : string) : bool :=
  match s with
  | String "-" r =>
      (negb (String.eqb r "") && all_digits r)
      || match split_at "." r with
         | Some (i, f) => all_digits i && negb (String.eqb f "") && all_digits f
         | None => false
         end
  | _ => false
  end.

(** [_get_option_tuples(s)]: the actions an abbreviation [s] may name,
    with the option string and the explicit argument. *)
Definition option_tuples (s : string) : list (action * string * option string) :=
  match s with
  | String "-" (String "-" _) =>
      let '(prefix, explicit) :=
        match split_at "=" s with Some (o, v) => (o, Some v) | None => (s, None) end in
      map (fun p => (snd p, fst p, explicit))
          (filter (fun p => starts_with prefix (fst p)) option_string_actions)
  | String "-" (String c r) =>
      let short := String "-" (String c EmptyString) in
      flat_map (fun p => if String.eqb (fst p) short then [(snd p, fst p, Some r)]
                         else if starts_with s (fst p) then [(snd p, fst p, None)]
                         else [])
               option_string_actions
  | _ => []
  end.

(** What [_parse_optional] makes of one argument. *)
Inductive arg_kind :=
| KPositional
| KOptional (a : action) (option_string : string) (explicit : option string)
| KUnknown
| KAmbiguous.

(** The end of [_parse_optional], after the exact lookups: an
    abbreviation, a negative number, a string with a space, or an unknown
    option. *)
Definition parse_abbrev (s : string) : arg_kind :=
  match option_tuples s with
  | [] => if is_negative_number s then KPositional
          else if has_char " " s then KPositional else KUnknown
  | [(a, o, e)] => KOptional a o e
  | _ => KAmbiguous
  end.

Definition parse_optional (s : string) : arg_kind :=
  match s with
  | EmptyString => KPositional
  | String c _ =>
      if negb (Ascii.eqb c "-") then KPositional
      else match action_lookup s with
      | Some a => KOptional a s None
      | None =>
          if (String.length s =? 1)%nat then KPositional
          else match split_at "=" s with
          | Some (o, v) =>
              match action_lookup o with
              | Some a => KOptional a o (Some v)
              | None => parse_abbrev s
              end
          | None => parse_abbrev s
          end
      end
  end.

(** The pattern letters of [_parse_known_args]: ['A'] for an argument,
    ['-'] for ["--"], ['O'] for an option (known or not). *)
Inductive pat := PA | PDash | PO (o : option (action * string * option string)).

Inductive parse_error :=
| ErrAmbiguous (s : string)
| ErrExpectedOne (a : action)
| ErrIgnoredExplicit (e : string)
| ErrRequired (missing : list action)
| ErrUnrecognized (extras : list string).

Definition pat_of_kind (k : arg_kind) : pat :=
  match k with
  | KOptional a o e => PO (Some (a, o, e))
  | KUnknown => PO None
  | _ => PA
  end.

(** The pattern of the whole command line; everything after ["--"] is an
    argument; an ambiguous abbreviation is an error at once. *)
Fixpoint classify (l : list string) : parse_error + list (string * pat) :=
  match l with
  | [] => inr []
  | s :: r =>
      if String.eqb s "--" then inr ((s, PDash) :: map (fun s => (s, PA)) r)
      else match parse_optional s with
           | KAmbiguous => inl (ErrAmbiguous s)
           | k =>
               match classify r with
               | inl e => inl e
               | inr ps =>
                   inr ((s, pat_of_kind k) :: ps)
               end
           end
  end.

(** The namespace being filled, and the strings left over ([extras]). *)
Record namespace := mkNamespace {
  ns_username : option string;
  ns_password : option string;
  ns_include_thursdays : bool;
  ns_lazy_mode : bool;
  ns_extras : list string
}.

Definition empty_namespace : namespace := mkNamespace None None false false [].

Definition add_extra (s : string) (ns : namespace) : namespace :=
  mkNamespace (ns_username ns) (ns_password ns) (ns_include_thursdays ns) (ns_lazy_mode ns)
              (ns_extras ns ++ [s]).

(** [take_action] for a store action and for a [store_true] action. *)
Definition store (a : action) (v : string) (ns : namespace) : namespace :=
  match a with
  | AUsername => mkNamespace (Some v) (ns_password ns) (ns_include_thursdays ns) (ns_lazy_mode ns) (ns_extras ns)
  | APassword => mkNamespace (ns_username ns) (Some v) (ns_include_thursdays ns) (ns_lazy_mode ns) (ns_extras ns)
  | _ => ns
  end.

Definition store_true (a : action) (ns : namespace) : namespace :=
  match a with
  | AIncludeThursdays => mkNamespace (ns_username ns) (ns_password ns) true (ns_lazy_mode ns) (ns_extras ns)
  | ALazyMode => mkNamespace (ns_username ns) (ns_password ns) (ns_include_thursdays ns) true (ns_extras ns)
  | _ => ns
  end.

Definition takes_value (a : action) : bool :=
  match a with AUsername | APassword => true | _ => false end.

(** [-h] with an explicit argument, as in [-hh]: [consume_optional]
    reads each further character as another single-dash flag, and only
    [-h] exists. *)
Fixpoint help_cluster (e : string) : bool :=
  match e with
  | EmptyString => true
  | String c r => Ascii.eqb c "h" && help_cluster r
  end.

Inductive consumed := CHelp | CError (e : parse_error) | CDone (ns : namespace).

(** The consuming loop: known options take their value, everything else
    goes to [extras]. *)
Fixpoint consume (l : list (string * pat)) (ns : namespace) : consumed :=
  match l with
  | [] => CDone ns
  | (s, PO (Some (a, o, Some e))) :: r =>
      if takes_value a then consume r (store a e ns)
      else match a with
           | AHelp => if negb (String.eqb e "") && starts_with "-h" o && help_cluster e
                      then CHelp else CError (ErrIgnoredExplicit e)
           | _ => CError (ErrIgnoredExplicit e)
           end
  | (s, PO (Some (a, o, None))) :: r =>
      if takes_value a then
        match r with
        | (v, PA) :: r' => consume r' (store a v ns)
        | _ => CError (ErrExpectedOne a)
        end
      else match a with
           | AHelp => CHelp
           | _ => consume r (store_true a ns)
           end
  | (s, _) :: r => consume r (add_extra s ns)
  end.

Inductive parse_outcome :=
| ParsedArgs (a : args)
| ParseHelp
| ParseError (e : parse_error).

(** [parser.parse_args(argv)]. *)
Definition parse_args (argv : list string) : parse_outcome :=
  match classify argv with
  | inl e => ParseError e
  | inr ps =>
      match consume ps empty_namespace with
      | CHelp => ParseHelp
      | CError e => ParseError e
      | CDone ns =>
          match ns_username ns, ns_password ns with
          | Some u, Some p =>
              match ns_extras ns with
              | [] => ParsedArgs (mkArgs u p (ns_include_thursdays ns) (ns_lazy_mode ns))
              | ex => ParseError (ErrUnrecognized ex)
              end
          | u, p =>
              ParseError (ErrRequired ((match u with Some _ => [] | None => [AUsername] end)
                                   ++ (match p with Some _ => [] | None => [APassword] end)))
          end
      end
  end.

(** How the process ends: a run of [main], or [parser.exit] with a status. *)
Inductive cli_outcome :=
| CliRan (r : pyres unit * world)
| CliExit (status : Z).

(** Lines 90-102: parse [sys.argv[1:]], then [asyncio.run(main(...))]. *)
Definition cli_main (srv : server) (today : Z) (argv stdin : list string) : cli_outcome :=
  match parse_args argv with
  | ParsedArgs a => CliRan (program srv a today (init_world stdin))
  | ParseHelp => CliExit 0
  | ParseError _ => CliExit 2
  end.

(** ** The command line, read back *)

(** The command line that gives [a] with the [--opt=value] spelling. *)
Definition render_args (a : args) : list string :=
  ["--username=" ++ username a; "--password=" ++ password a]
  ++ (if include_thursdays a then ["--include-thursdays"] else [])
  ++ (if lazy_mode a then ["--lazy-mode"] else []).

Lemma classify_cons s r :
  String.eqb s "--" = false -> parse_optional s <> KAmbiguous ->
  classify (s :: r) = match classify r with
                      | inl e => inl e
                      | inr ps => inr ((s, pat_of_kind (parse_optional s)) :: ps)
                      end.
Proof. intros Hd Ha. cbn [classify]. rewrite Hd. destruct (parse_optional s); [reflexivity..|congruence]. Qed.

(** C23. Round trip of the command line: whatever the user name and the
    password (empty, with spaces, starting with a dash, ...), the
    [--username=U --password=P] spelling with the chosen flags is parsed
    back to exactly those four values. *)
Theorem parse_args_render a : parse_args (render_args a) = ParsedArgs a.
Proof. destruct a as [u p [] []]; reflexivity. Qed.

(** C24. A password that argparse takes for an unknown option cannot be
    given as a separate argument: when [p] starts with a dash, is longer
    than the dash alone, is not a negative number, holds no space, and
    is neither an option of this parser nor a prefix of one (with or
    without [=value]), and [U] is a plain value, then
    [--username U --password p ...] stops the parser with "expected one
    argument" for [--password] (exit status 2 before logging in), as long
    as no later argument is an ambiguous abbreviation, which argparse
    reports first.  A password such as [-] or [-a b] is read as the
    value. *)
Theorem parse_args_dash_password u p rest ps :
  String.eqb u "--" = false -> parse_optional u = KPositional ->
  String.eqb p "--" = false -> parse_optional p = KUnknown ->
  classify rest = inr ps ->
  let argv := "--username" :: u :: "--password" :: p :: rest in
  parse_args argv = ParseError (ErrExpectedOne APassword) /\
  forall srv today stdin, cli_main srv today argv stdin = CliExit 2.
Proof.
  intros Hu Hku Hp Hkp Hr. cbv zeta.
  enough (E : parse_args ("--username" :: u :: "--password" :: p :: rest)
              = ParseError (ErrExpectedOne APassword))
    by (split; [exact E|intros; unfold cli_main; now rewrite E]).
  unfold parse_args.
  rewrite (classify_cons "--username"), (classify_cons u), (classify_cons "--password"),
    (classify_cons p), Hr
    by first [assumption | reflexivity | rewrite Hku; discriminate | rewrite Hkp; discriminate
             | cbv; discriminate].
  rewrite Hku, Hkp. reflexivity.
Qed.

Lemma parse_args_dash_password_witness :
  let argv := ["--username"; "09120000000"; "--password"; "-secret"; "--lazy-mode"] in
  parse_args argv = ParseError (ErrExpectedOne APassword) /\
  forall srv today stdin, cli_main srv today argv stdin = CliExit 2.
Proof.
  apply (parse_args_dash_password "09120000000" "-secret" ["--lazy-mode"]
           [("--lazy-mode", PO (Some (ALazyMode, "--lazy-mode", None)))]);
    reflexivity.
Defined.

(** ** Abbreviations *)

Definition action_eq_dec (x y : action) : {x = y} + {x <> y}.
Proof. decide equality. Defined.

Definition arg_kind_eq_dec (x y : arg_kind) : {x = y} + {x <> y}.
Proof.
  decide equality; try apply action_eq_dec; try apply string_dec.
  decide equality. apply string_dec.
Defined.

(** Every prefix of at least three characters of each long option is read
    as that option, checked by computation over the five long options. *)
Definition abbrevs_ok : bool :=
  forallb (fun p =>
             negb (starts_with "--" (fst p))
             || forallb (fun n => if arg_kind_eq_dec (parse_optional (substring 0 n (fst p)))
                                                     (KOptional (snd p) (fst p) None)
                                  then true else false)
                        (seq 3 (String.length (fst p) - 2)))
          option_string_actions.

Lemma abbrevs_ok_true : abbrevs_ok = true.
Proof. vm_compute. reflexivity. Qed.

(** C25. [allow_abbrev]: a long option may be shortened to any prefix
    that keeps at least its first letter ([--user U], [--pass P],
    [--lazy], [--inc]): the five long options differ in their first
    letter, so every such prefix names its option. *)
Theorem parse_optional_abbrev o a n :
  In (o, a) option_string_actions -> starts_with "--" o = true ->
  (3 <= n <= String.length o)%nat ->
  parse_optional (substring 0 n o) = KOptional a o None.
Proof.
  intros Hin Hs Hn. pose proof abbrevs_ok_true as H. unfold abbrevs_ok in H.
  rewrite forallb_forall in H. specialize (H _ Hin). cbn [fst snd] in H.
  rewrite Hs in H. cbn [negb orb] in H. rewrite forallb_forall in H.
  specialize (H n ltac:(apply in_seq; lia)).
  destruct (arg_kind_eq_dec _ _) as [E|]; [exact E|discriminate H].
Qed.

Lemma parse_optional_abbrev_witness :
  parse_optional (substring 0 6 "--username") = KOptional AUsername "--username" None.
Proof.
  apply parse_optional_abbrev.
  - right. right. left. reflexivity.
  - reflexivity.
  - cbn. lia.
Defined.
