(* ===== verification/Transport.v ===== *)
(** * The script's requests as the service receives them

    [Reserve] describes the requests of a run as the values the script
    passes to [requests.post], [requests.get] and [requests.put]; [Wire]
    says what [requests] and [http.client] make of such a value.  This
    file puts the two together: when the token the login returned prints
    without a line break, every request of every run reaches the wire
    with its method, URL and headers, and with a body that the service
    decodes into exactly the JSON the script built; when the token holds a
    line break, no request after the login can be sent. *)

From Stdlib Require Import ZArith List String Ascii Bool Lia.
From S2P Require Import Prelude Json Runtime PyInt Text Calendar Http Wire Reserve.
Import ListNotations.
Open Scope list_scope.

(** What the service receives for a request [r]: the same method and URL,
    every header of the script with its rendered value, and, for a
    [json=] body, a body that decodes to that JSON as the Python value the
    script holds ([py_value]: objects as the dicts [json.loads] built)
    with the content type [application/json] and its length. *)
Definition faithful_wire (r : request) (wr : wire_request) : Prop :=
  wr_method wr = rq_method r /\ wr_url wr = rq_url r /\
  (forall k f, In (k, f) (rq_headers r) ->
               ci_get (list_ascii_of_string k) (wr_headers wr) = Some (render f)) /\
  match rq_json r with
  | Some j => exists b, wr_body wr = Some b /\ json_loads b = Some (py_value j) /\
      ci_get (list_ascii_of_string "content-type") (wr_headers wr) = Some application_json /\
      ci_get (list_ascii_of_string "content-length") (wr_headers wr) = Some (length_text b)
  | None => wr_body wr = None
  end.

Definition on_the_wire (r : request) : Prop := exists wr, transmit r = Some wr /\ faithful_wire r wr.

Lemma login_on_the_wire u p : on_the_wire (login_request u p).
Proof.
  eexists. split; [apply transmit_login|]. repeat split.
  - intros k f [E|[]]. now injection E as <- <-.
  - exists (json_dumps (login_data u p)). split; [reflexivity|]. split; [apply json_roundtrip|].
    split; reflexivity.
Qed.

Lemma get_on_the_wire token date :
  clean (py_str token) = true -> on_the_wire (get_reserves_request token date).
Proof.
  intros Hc. eexists. rewrite transmit_get_reserves, Hc. split; [reflexivity|]. repeat split.
  intros k f [E|[]]. injection E as <- <-. now rewrite render_bearer.
Qed.

Lemma put_on_the_wire token body :
  clean (py_str token) = true -> on_the_wire (put_reserves_request token body).
Proof.
  intros Hc. eexists. rewrite transmit_put_reserves, Hc. split; [reflexivity|]. repeat split.
  - intros k f [E|[E|[]]]; injection E as <- <-; [now rewrite render_bearer|reflexivity].
  - exists (json_dumps body). split; [reflexivity|]. split; [apply json_roundtrip|].
    split; reflexivity.
Qed.

Section Transport.
Context (srv : server) (a : args) (today : Z).

(** The requests a run of the script sends, in order. *)
Definition run_requests (stdin : list string) : list request :=
  map snd (w_http (snd (program srv a today (init_world stdin)))).

(** The requests of a run after the login: fetches and reservations, all
    with the token of the login. *)
Lemma program_later_requests stdin r :
  In r (run_requests stdin) ->
  r = login_request (username a) (password a)
  \/ exists t, fst (get_bearer_token srv (username a) (password a) (init_world stdin)) = Ok t /\
       ((exists date, r = get_reserves_request t date)
        \/ exists date food_id, r = put_reserves_request t (reserve_body date food_id)).
Proof.
  unfold run_requests.
  destruct (program_trace srv a today stdin)
    as (token & done & rest & reserves & Htok & _ & Htf & _ & -> & _).
  intros [<-|Hin]; [now left|right].
  destruct (fst (get_bearer_token _ _ _ _)) as [t|e] eqn:Hl.
  - subst token. exists t. split; [reflexivity|]. apply in_app_or in Hin as [Hg|Hp].
    + apply in_flat_map in Hg as (d & _ & Hr). apply in_day_gets in Hr as (o & _ & _ & ->).
      left. eauto.
    + apply in_flat_map in Hp as (c & Hc & Hr).
      destruct (tasks_for_in _ _ _ _ _ _ Htf Hc) as (d & _ & o & food & _ & _ & ->).
      apply in_coro_requests in Hr as (fid & ->). right. eauto.
  - destruct Htok as [-> ->]. destruct Hin.
Qed.

(** The requests of a run all reach the wire when the login's token is
    clean. *)
Lemma run_requests_on_the_wire stdin :
  (forall t, fst (get_bearer_token srv (username a) (password a) (init_world stdin)) = Ok t ->
             clean (py_str t) = true) ->
  Forall on_the_wire (run_requests stdin).
Proof.
  intros Hclean. apply Forall_forall. intros r Hin.
  destruct (program_later_requests stdin r Hin) as [->|(t & Hl & [(date & ->)|(date & fid & ->)])].
  - apply login_on_the_wire.
  - apply get_on_the_wire, Hclean, Hl.
  - apply put_on_the_wire, Hclean, Hl.
Qed.

(** C8. When the token the login returned prints without a carriage
    return or a line feed, every request of every run reaches the wire,
    and the service receives each with its method, URL and headers, and
    a body that decodes to exactly the Python value the script passed as
    [json=]: the credentials and each date arrive unchanged, and the
    [foodId] as the value [json.loads] had built from the service's
    answer. *)
Theorem program_on_the_wire stdin :
  (forall t, fst (get_bearer_token srv (username a) (password a) (init_world stdin)) = Ok t ->
             clean (py_str t) = true) ->
  Forall on_the_wire (run_requests stdin).
Proof. apply run_requests_on_the_wire. Qed.

(** C9. When the token holds a line break, no request after the login
    can be sent: [requests] raises [InvalidHeader], or [http.client]
    raises [ValueError] for a final line feed, on each of them. *)
Theorem program_bad_token stdin t r :
  fst (get_bearer_token srv (username a) (password a) (init_world stdin)) = Ok t ->
  clean (py_str t) = false ->
  In r (run_requests stdin) ->
  r <> login_request (username a) (password a) ->
  transmit r = None.
Proof.
  intros Hl Hc Hin Hne.
  destruct (program_later_requests stdin r Hin) as [->|(t' & Hl' & [(date & ->)|(date & fid & ->)])];
    [congruence| |]; rewrite Hl in Hl'; injection Hl' as <-.
  - now rewrite transmit_get_reserves, Hc.
  - now rewrite transmit_put_reserves, Hc.
Qed.
(** C5. Liveness in lazy mode: when the service accepts the login with
    a token that prints without a line break and offers a food with an id
    every day, the run sends a reservation for every day of
    [today .. today + 35] that passes the weekday tests, in day order, and
    for no other date, and every request of the run reaches the service
    as the script built it. *)
Theorem program_reserves_every_eligible_day stdin tok :
  lazy_mode a = true -> (1 <= today)%Z -> (today + 35 <= MAXORDINAL)%Z ->
  (exists resp body,
     srv [] (login_request (username a) (password a)) = Some resp /\ status_code resp = 200%Z /\
     resp_body resp = Some body /\ getitem body (KStr "token") = Ok tok) ->
  (forall h date, exists resp body entry rest_data food rest_foods fid,
     srv h (get_reserves_request tok date) = Some resp /\ resp_body resp = Some body /\
     getitem body (KStr "status") = Ok (JStr "OK") /\
     getitem body (KStr "data") = Ok (JArr (entry :: rest_data)) /\
     getitem entry (KStr "reserves") = Ok (JArr (food :: rest_foods)) /\
     getitem food (KStr "foodId") = Ok fid) ->
  clean (py_str tok) = true ->
  omap put_date (run_requests stdin)
  = map strftime_date
      (filter (eligible (include_thursdays a)) (map (fun d => today + Z.of_nat d)%Z (seq 0 36)))
  /\ Forall on_the_wire (run_requests stdin).
Proof.
  intros Hlazy Hs He Hlogin Hget Hclean. split.
  - exact (program_put_dates_served srv a today tok Hlazy Hs He Hlogin Hget stdin).
  - apply run_requests_on_the_wire. intros t Ht.
    destruct Hlogin as (resp & body & Hl & Hc & Hb & Htok).
    rewrite (get_bearer_token_accepted srv _ _ (init_world stdin) resp body Hl Hb tok Hc Htok) in Ht.
    injection Ht as <-. exact Hclean.
Qed.
End Transport.

(** ** Concrete runs *)

(** A service like [demo_server] whose login token ends with a line feed. *)
Definition newline_token : json := JStr (String "T"%char (String "010"%char EmptyString)).

Definition newline_server : server := fun _ r =>
  match rq_method r with
  | POST => Some (mkResponse 200 (Some (JObj [("token", newline_token)])))
  | GET => Some (mkResponse 200 (Some demo_body))
  | PUT => Some (mkResponse 200 None)
  end.

Lemma program_on_the_wire_witness :
  Forall on_the_wire (run_requests demo_server demo_args demo_today []).
Proof.
  apply program_on_the_wire. intros t Ht. vm_compute in Ht. injection Ht as <-. reflexivity.
Defined.

Lemma program_reserves_every_eligible_day_witness :
  omap put_date (run_requests demo_server demo_args demo_today [])
  = map strftime_date
      (filter (eligible (include_thursdays demo_args))
              (map (fun d => demo_today + Z.of_nat d)%Z (seq 0 36)))
  /\ Forall on_the_wire (run_requests demo_server demo_args demo_today []).
Proof.
  apply (program_reserves_every_eligible_day demo_server demo_args demo_today [] (JStr "T")).
  - reflexivity.
  - unfold demo_today. lia.
  - unfold demo_today, MAXORDINAL. lia.
  - exists (mkResponse 200 (Some (JObj [("token", JStr "T")]))), (JObj [("token", JStr "T")]).
    repeat split.
  - intros h date. exists (mkResponse 200 (Some demo_body)), demo_body, demo_entry, [], demo_food,
      [], (JInt 7). repeat split.
  - reflexivity.
Defined.

Lemma program_bad_token_witness :
  transmit (get_reserves_request newline_token "2026-11-09T00:00:00") = None.
Proof.
  apply (program_bad_token newline_server demo_args demo_today [] newline_token).
  - vm_compute. reflexivity.
  - reflexivity.
  - vm_compute. right. left. reflexivity.
  - discriminate.
Defined.
